(** * tgclient: the MTProto session core (mtproto.go) and its byte decoder

    A shallow embedding of the Go sources.  Go integers are [Z] with the
    wrap-around of their width written out, byte slices are [list byte],
    Go strings are [string] (converted to and from their bytes as Go does),
    maps are [gmap], pointers to packets and channels are keys of explicit
    heaps, and a function that can panic, block or recurse without bound
    returns an [outcome]. *)

From Stdlib Require Import ZArith Lia List.
From Stdlib.Strings Require Import Byte String.
From stdpp Require Import gmap list strings pretty.

Local Open Scope Z_scope.

(** ** Outcomes of Go calls *)

Inductive outcome (A : Type) : Type :=
| Done (a : A)      (* the call returned *)
| Panicked          (* a run-time panic: index out of range, nil dereference, ... *)
| Blocked           (* the goroutine waits on a channel operation that is not ready *)
| OutOfFuel.        (* the recursion or the schedule given to the model ran out *)
Arguments Done {A} a.
Arguments Panicked {A}.
Arguments Blocked {A}.
Arguments OutOfFuel {A}.

Definition obind {A B} (x : outcome A) (f : A -> outcome B) : outcome B :=
  match x with
  | Done a => f a
  | Panicked => Panicked
  | Blocked => Blocked
  | OutOfFuel => OutOfFuel
  end.

Notation "'let*' x ':=' c 'in' k" := (obind c (fun x => k))
  (at level 10, x pattern, c at level 100, k at level 200).

(** ** Machine integers and bytes *)

(** Go's [int] and [int64]: 64 bits, two's complement. *)
Definition wrap_int (x : Z) : Z := (x + 2^63) mod 2^64 - 2^63.
(** Go's [int32]. *)
Definition wrap_int32 (x : Z) : Z := (x + 2^31) mod 2^32 - 2^31.
Definition int_add (a b : Z) : Z := wrap_int (a + b).

Definition byte_to_Z (b : byte) : Z := Z.of_N (Byte.to_N b).
(** The conversion [byte(x)]: the low eight bits. *)
Definition byte_of_Z (x : Z) : byte :=
  match Byte.of_N (Z.to_N (x mod 256)) with
  | Some b => b
  | None => x00
  end.

(** [binary.LittleEndian.UintN]: the unsigned value of a little-endian slice. *)
Fixpoint le_uint (bs : list byte) : Z :=
  match bs with
  | [] => 0
  | b :: rest => byte_to_Z b + 256 * le_uint rest
  end.

(** [binary.LittleEndian.PutUintN]: the [n] low bytes of [v], lowest first. *)
Fixpoint le_bytes (n : nat) (v : Z) : list byte :=
  match n with
  | O => []
  | S k => byte_of_Z v :: le_bytes k (v / 256)
  end.

(** [b[i]] on a slice: a panic outside [0, len b). *)
Definition index (b : list byte) (i : Z) : option byte :=
  if i <? 0 then None else b !! Z.to_nat i.

(** [b[lo:hi]] on a slice whose capacity is its length: a panic unless
    [0 <= lo <= hi <= len b]. *)
Definition slice (b : list byte) (lo hi : Z) : option (list byte) :=
  if (0 <=? lo) && (lo <=? hi) && (hi <=? Z.of_nat (length b))
  then Some (take (Z.to_nat (hi - lo)) (drop (Z.to_nat lo) b))
  else None.

(** [new(big.Int).SetBytes(y)]: [y] read as a big-endian unsigned number. *)
Definition big_SetBytes (y : list byte) : Z :=
  fold_left (fun acc b => acc * 256 + byte_to_Z b) y 0.

(** The big-endian unsigned value of a byte string, digit by digit: the
    byte at position [i] of [n] weighs [256^(n-1-i)]. *)
Fixpoint be_unsigned (bs : list byte) : Z :=
  match bs with
  | [] => 0
  | b :: rest => byte_to_Z b * 256 ^ Z.of_nat (length rest) + be_unsigned rest
  end.

(** ** TL values

    The generated schema (tl_schema.go) declares one struct per constructor.
    The constructors the session core inspects are spelled out with the
    fields it reads or builds; [others] stands for the fields it never
    looks at, and every other value is [TL_other].  [TL_MT_message] is the
    item of a container, built by the decoder from a long, two ints and an
    object: msg_id, seq_no, a third number and the object. *)

Inductive TL : Type :=
| TL_null                                        (* the nil interface value *)
| TL_msg_container (Items : list TL_MT_message)
| TL_rpc_result (req_msg_id : Z) (obj : TL)
| TL_bad_server_salt (NewServerSalt : Z) (others : list byte)
| TL_bad_msg_notification (BadMsgID : Z) (others : list byte)
| TL_msgs_state_info (ReqMsgID : Z) (others : list byte)
| TL_new_session_created (ServerSalt : Z) (others : list byte)
| TL_ping (PingID : Z)
| TL_pong (MsgID PingID : Z)
| TL_msgs_ack (MsgIds : list Z)
| TL_other (constructor : Z) (payload : list byte)
with TL_MT_message : Type :=
| MT_message (MsgID SeqNo Bytes : Z) (Data : TL).

Definition MT_MsgID (v : TL_MT_message) : Z := let 'MT_message i _ _ _ := v in i.
Definition MT_SeqNo (v : TL_MT_message) : Z := let 'MT_message _ s _ _ := v in s.
Definition MT_Data (v : TL_MT_message) : TL := let 'MT_message _ _ _ d := v in d.

(** ** The decode buffer (decode.go) *)

Module Decode.

Record DecodeBuf : Type := mkDecodeBuf {
buf : list byte;
off : Z;
size : Z;
err : option string
}.

Definition NewDecodeBuf (b : list byte) : DecodeBuf :=
mkDecodeBuf b 0 (Z.of_nat (length b)) None.

Definition failed (m : DecodeBuf) : bool :=
match err m with Some _ => true | None => false end.
Definition set_err (e : string) (m : DecodeBuf) : DecodeBuf :=
mkDecodeBuf (buf m) (off m) (size m) (Some e).
Definition set_off (o : Z) (m : DecodeBuf) : DecodeBuf :=
mkDecodeBuf (buf m) o (size m) (err m).

(** A reader is a method of [*DecodeBuf]: it returns its result and the
  buffer as the call leaves it. *)
Definition reader (A : Type) : Type := DecodeBuf -> outcome (A * DecodeBuf).

(** The common body of Long, Double, Int and UInt: [n] bytes, little-endian. *)
Definition fixed (n : Z) (name : string) (conv : Z -> Z) : reader Z := fun m =>
if failed m then Done (0, m)
else if int_add (off m) n >? size m then Done (0, set_err name m)
else match slice (buf m) (off m) (int_add (off m) n) with
     | None => Panicked
     | Some bs => Done (conv (le_uint bs), set_off (int_add (off m) n) m)
     end.

Definition Long : reader Z := fixed 8 "DecodeLong" wrap_int.
(** A float64 is represented by its IEEE-754 bit pattern, so that
  [math.Float64frombits] is the identity; the zero value 0.0 is pattern 0. *)
Definition Double : reader Z := fixed 8 "DecodeDouble" (fun x => x).
Definition Int : reader Z := fixed 4 "DecodeInt" wrap_int32.
Definition UInt : reader Z := fixed 4 "DecodeUInt" (fun x => x).

Definition Bytes (sz : Z) : reader (list byte) := fun m =>
if failed m then Done ([], m)
else if int_add (off m) sz >? size m then Done ([], set_err "DecodeBytes" m)
else if sz <? 0 then Panicked                       (* make([]byte, size) *)
else match slice (buf m) (off m) (int_add (off m) sz) with
     | None => Panicked
     | Some bs => Done (bs, set_off (int_add (off m) sz) m)
     end.

(** The tail of StringBytes once [size] and [padding] are known. *)
Definition StringBytes_body (sz padding : Z) : reader (list byte) := fun m =>
if int_add (off m) sz >? size m
then Done ([], set_err "DecodeStringBytes: Wrong size" m)
else match slice (buf m) (off m) (int_add (off m) sz) with
     | None => Panicked
     | Some x =>
       let m := set_off (int_add (off m) sz) m in
       if int_add (off m) padding >? size m
       then Done ([], set_err "DecodeStringBytes: Wrong padding" m)
       else Done (x, set_off (int_add (off m) padding) m)
     end.

Definition StringBytes : reader (list byte) := fun m =>
if failed m then Done ([], m)
else if int_add (off m) 1 >? size m then Done ([], set_err "DecodeStringBytes" m)
else match index (buf m) (off m) with
     | None => Panicked
     | Some b0 =>
       let sz := byte_to_Z b0 in
       let m := set_off (int_add (off m) 1) m in
       let padding := Z.land (wrap_int (4 - Z.rem (int_add sz 1) 4)) 3 in
       if sz =? 254 then
         if int_add (off m) 3 >? size m then Done ([], set_err "DecodeStringBytes" m)
         else match index (buf m) (off m),
                    index (buf m) (int_add (off m) 1),
                    index (buf m) (int_add (off m) 2) with
              | Some b1, Some b2, Some b3 =>
                let sz := Z.lor (Z.lor (byte_to_Z b1) (Z.shiftl (byte_to_Z b2) 8))
                                (Z.shiftl (byte_to_Z b3) 16) in
                let m := set_off (int_add (off m) 3) m in
                let padding := Z.land (wrap_int (4 - Z.rem sz 4)) 3 in
                StringBytes_body sz padding m
              | _, _, _ => Panicked
              end
       else StringBytes_body sz padding m
     end.

Definition String : reader string := fun m =>
let* (b, m) := StringBytes m in
if failed m then Done (EmptyString, m)
else Done (string_of_list_byte b, m).

(** A [*big.Int] is [None] for nil and [Some] of its value otherwise. *)
Definition BigInt : reader (option Z) := fun m =>
let* (b, m) := StringBytes m in
if failed m then Done (None, m)
else Done (Some (big_SetBytes (x00 :: b)), m).

(** Modelled from the spec: the constant [CRC_vector] is declared in the
  generated schema, which is not part of the sources at hand; the spec
  gives the vector framing as [u32(0x1CB5C415) | i32(count) | items]. *)
Definition CRC_vector : Z := 0x1CB5C415.

(** The loop [for i < size { y := rd(); if m.err != nil { return nil }; x[i] = y }]. *)
Fixpoint read_items {A} (rd : reader A) (n : nat) (acc : list A) : reader (list A) :=
fun m =>
match n with
| O => Done (acc, m)
| S k =>
  let* (y, m) := rd m in
  if failed m then Done ([], m) else read_items rd k (acc ++ [y]) m
end.

(** The common body of VectorInt, VectorLong, VectorString and Vector. *)
Definition vector_of {A} (name : string) (rd : reader A) : reader (list A) := fun m =>
let* (c, m) := UInt m in
if failed m then Done ([], m)
else if negb (c =? CRC_vector)
then Done ([], set_err (name ++ ": Wrong constructor") m)
else
  let* (sz, m) := Int m in
  if failed m then Done ([], m)
  else if sz <? 0 then Done ([], set_err (name ++ ": Wrong size") m)
  else read_items rd (Z.to_nat sz) [] m.

Definition VectorInt : reader (list Z) := vector_of "DecodeVectorInt" Int.
Definition VectorLong : reader (list Z) := vector_of "DecodeVectorLong" Long.
Definition VectorString : reader (list string) := vector_of "DecodeVectorString" String.

(** [bit := int32(1 << uint(num))]: a shift by 32 or more, or by the huge
    count a negative [num] converts to, leaves 0. *)
Definition flag_bit (num : Z) : Z :=
  if num <? 0 then 0 else wrap_int32 (2 ^ num).

(** The common body of the Flagged readers: the zero value unless
    [flags & bit] is not 0. *)
Definition flagged {A} (zero : A) (rd : reader A) (flags num : Z) : reader A :=
  fun m =>
  if Z.land flags (flag_bit num) =? 0 then Done (zero, m) else rd m.

Definition FlaggedLong : Z -> Z -> reader Z := flagged 0 Long.
Definition FlaggedDouble : Z -> Z -> reader Z := flagged 0 Double.
Definition FlaggedInt : Z -> Z -> reader Z := flagged 0 Int.
Definition FlaggedUInt : Z -> Z -> reader Z := flagged 0 UInt.
Definition FlaggedStringBytes : Z -> Z -> reader (list byte) := flagged [] StringBytes.
Definition FlaggedString : Z -> Z -> reader string := flagged EmptyString String.
Definition FlaggedBigInt : Z -> Z -> reader (option Z) := flagged None BigInt.
Definition FlaggedVectorInt : Z -> Z -> reader (list Z) := flagged [] VectorInt.
Definition FlaggedVectorLong : Z -> Z -> reader (list Z) := flagged [] VectorLong.
Definition FlaggedVectorString : Z -> Z -> reader (list string) :=
  flagged [] VectorString.

Section Objects.

(** Declared in the generated schema: the constructor numbers the decoder
switches on, and the decoder of every other constructor. *)
Variables CRC_msg_container CRC_rpc_result CRC_gzip_packed : Z.
Variables CRC_boolFalse CRC_boolTrue : Z.
Variable ObjectGenerated : Z -> reader TL.
(** compress/gzip: [None] when [gzip.NewReader] rejects the header (the
reader is then nil and the first [Read] panics), else the bytes the
read loop collects. *)
Variable gunzip : list byte -> option (list byte).

Definition Bool : reader bool := fun m =>
let* (c, m) := UInt m in
if failed m then Done (false, m)
else if c =? CRC_boolFalse then Done (false, m)
else if c =? CRC_boolTrue then Done (true, m)
else Done (false, m).

(** The container loop of Object; [None] is its early [return nil]. *)
Fixpoint container_items (object : reader TL) (n : nat) (acc : list TL_MT_message)
: reader (option (list TL_MT_message)) := fun m =>
match n with
| O => Done (Some acc, m)
| S k =>
let* (id, m) := Long m in
let* (sq, m) := Int m in
let* (bytes, m) := Int m in
let* (d, m) := object m in
if failed m then Done (None, m)
else container_items object k (acc ++ [MT_message id sq bytes d]) m
end.

Fixpoint Object (fuel : nat) : reader TL := fun m =>
match fuel with
| O => OutOfFuel
| S fuel =>
let* (c, m) := UInt m in
if failed m then Done (TL_null, m)
else
  let finish (r : TL) (m : DecodeBuf) : outcome (TL * DecodeBuf) :=
    if failed m then Done (TL_null, m) else Done (r, m) in
  if c =? CRC_msg_container then
    let* (sz, m) := Int m in
    if sz <? 0 then Panicked                (* make([]TL_MT_message, size) *)
    else
      let* (arr, m) := container_items (Object fuel) (Z.to_nat sz) [] m in
      match arr with
      | None => Done (TL_null, m)
      | Some arr => finish (TL_msg_container arr) m
      end
  else if c =? CRC_rpc_result then
    let* (req, m) := Long m in
    let* (o, m) := Object fuel m in
    finish (TL_rpc_result req o) m
  else if c =? CRC_gzip_packed then
    let* (packed, m) := StringBytes m in
    match gunzip packed with
    | None => Panicked
    | Some unpacked =>
      let* (r, _) := Object fuel (NewDecodeBuf unpacked) in
      finish r m
    end
  else
    let* (r, m) := ObjectGenerated c m in
    finish r m
end.

Definition Vector (fuel : nat) : reader (list TL) :=
vector_of "DecodeVector" (Object fuel).

Definition FlaggedVector (fuel : nat) : Z -> Z -> reader (list TL) :=
  flagged [] (Vector fuel).
Definition FlaggedObject (fuel : nat) : Z -> Z -> reader TL :=
  flagged TL_null (Object fuel).

End Objects.

End Decode.

(** ** The encode buffer

    encode.go is not part of the sources at hand; the session file store
    calls three of its methods. *)

Module Encode.

Record EncodeBuf : Type := mkEncodeBuf { buf : list byte }.

(** Modelled from the spec: [NewEncodeBuf] is missing; the buffer starts
    empty, [cap] being room set aside. *)
Definition NewEncodeBuf (cap : Z) : EncodeBuf := mkEncodeBuf [].

(** Modelled from the spec: the padding of a string is missing with its
    encoder; "zero-padded to a 4-byte boundary": zero bytes up to the next
    multiple of four after [n] bytes. *)
Definition padding (n : Z) : list byte :=
repeat x00 (Z.to_nat ((4 - n mod 4) mod 4)).

(** Modelled from the spec: [EncodeBuf.Long] is missing; "Little-endian
  primitives for i32/u32/i64/f64". *)
Definition Long (s : Z) (e : EncodeBuf) : EncodeBuf :=
mkEncodeBuf (buf e ++ le_bytes 8 s).

(** Modelled from the spec: [EncodeBuf.StringBytes] is missing; "if length
  < 254, one byte of length followed by bytes, then zero-padded to a 4-byte
  boundary; else a 0xFE marker followed by three length bytes", and "for
  length-prefixed strings, encoded length mod 4 == 0". *)
Definition string_bytes (s : list byte) : list byte :=
let n := Z.of_nat (length s) in
if n <? 254
then byte_of_Z n :: s ++ padding (1 + n)
else xfe :: le_bytes 3 n ++ s ++ padding (4 + n).

Definition StringBytes (s : list byte) (e : EncodeBuf) : EncodeBuf :=
mkEncodeBuf (buf e ++ string_bytes s).

(** Modelled from the spec: [EncodeBuf.String] is missing; a string is
  framed as its bytes are. *)
Definition String (s : string) (e : EncodeBuf) : EncodeBuf :=
StringBytes (list_byte_of_string s) e.

End Encode.

(** ** Sessions and their stores (mtproto.go) *)

Inductive error : Type :=
| ErrNoSessionData
| Err (msg : string).

Record SessionInfo : Type := mkSessionInfo {
  DcID : Z;
  AuthKey : list byte;
  AuthKeyHash : list byte;
  ServerSalt : Z;
  Addr : string;
  sessionId : Z
}.

Definition set_ServerSalt (v : Z) (s : SessionInfo) : SessionInfo :=
  mkSessionInfo (DcID s) (AuthKey s) (AuthKeyHash s) v (Addr s) (sessionId s).
Definition set_Dc (dc : Z) (addr : string) (s : SessionInfo) : SessionInfo :=
  mkSessionInfo dc (AuthKey s) (AuthKeyHash s) (ServerSalt s) addr (sessionId s).

(** The interface [SessionStore]; [St] is whatever the store keeps outside
    the process.  Both methods receive [*SessionInfo]; [Load] writes it. *)
Class SessionStore (St : Type) : Type := {
  Save : SessionInfo -> St -> outcome (St * option error);
  Load : SessionInfo -> St -> outcome (St * SessionInfo * option error)
}.

#[export] Instance SessNoopStore : SessionStore unit := {
  Save _ st := Done (st, None);
  Load sess st := Done (st, sess, Some (Err "can not load"))
}.

Module SessFileStore.

(** The files of the machine, by path.  [os.Create], [os.Open] of an
    existing file and [Write] are taken to succeed. *)
Abbreviation files := (gmap string (list byte)).

(** What [Save] writes. *)
Definition encode_session (sess : SessionInfo) : list byte :=
  let b := Encode.NewEncodeBuf 1024 in
  let b := Encode.StringBytes (AuthKey sess) b in
  let b := Encode.StringBytes (AuthKeyHash sess) b in
  let b := Encode.Long (ServerSalt sess) b in
  let b := Encode.String (Addr sess) b in
  Encode.buf b.

Definition Save (FPath : string) (sess : SessionInfo) (fs : files)
  : outcome (files * option error) :=
  Done (<[FPath := encode_session sess]> fs, None).

(** [b := make([]byte, 1024*4); f.Read(b)]: the first 4096 bytes of the
    file over a zeroed buffer, or [io.EOF] on an empty file. *)
Definition read_4096 (content : list byte) : option (list byte) :=
  match content with
  | [] => None
  | _ => let got := take 4096%nat content in
         Some (got ++ repeat x00 (4096 - length got)%nat)
  end.

Definition Load (FPath : string) (sess : SessionInfo) (fs : files)
  : outcome (files * SessionInfo * option error) :=
  match fs !! FPath with
  | None => Done (fs, sess, Some ErrNoSessionData)
  | Some content =>
    match read_4096 content with
    | None => Done (fs, sess, Some (Err "EOF"))
    | Some b =>
      let d := Decode.NewDecodeBuf b in
      let* (authKey, d) := Decode.StringBytes d in
      let* (authKeyHash, d) := Decode.StringBytes d in
      let* (serverSalt, d) := Decode.Long d in
      let* (addr, d) := Decode.String d in
      let sess := mkSessionInfo (DcID sess) authKey authKeyHash serverSalt addr
                                (sessionId sess) in
      match Decode.err d with
      | Some e => Done (fs, sess, Some (Err e))
      | None => Done (fs, sess, None)
      end
    end
  end.

Definition store (FPath : string) : SessionStore files :=
  Build_SessionStore files (Save FPath) (Load FPath).

End SessFileStore.

(** ** The protocol state (mtproto.go) *)

(** Packets are handled through [*packetToSend] and response channels are
    shared with the callers: both live in heaps, keyed by address. *)
Abbreviation ptr := positive.
Abbreviation chan_id := positive.

Record packetToSend : Type := mkPacket {
  msgID : Z;
  seqNo : Z;
  msg : TL;
  resp : option chan_id;      (* [None] is the nil channel *)
  needAck : bool
}.

Definition newPacket (msg : TL) (resp : option chan_id) : packetToSend :=
  mkPacket 0 0 msg resp false.

(** [packet.resp = nil] and [packet.needAck = false]. *)
Definition clear_resp (pk : packetToSend) : packetToSend :=
  mkPacket (msgID pk) (seqNo pk) (msg pk) None (needAck pk).
Definition clear_needAck (pk : packetToSend) : packetToSend :=
  mkPacket (msgID pk) (seqNo pk) (msg pk) (resp pk) false.

(** A [chan TL]: the buffered values, the capacity, and whether it is closed. *)
Record channel : Type := mkChannel {
  items : list TL;
  capacity : nat;
  closed : bool
}.

Inductive LogLevel : Type := LDebug | LInfo | LWarn | LError.

(** [TL_dcOption], with the fields [DCAddr] reads. *)
Record TL_dcOption : Type := mkDcOption {
  o_ID : Z;
  o_Ipv6 : bool;
  o_IpAddress : string;
  o_Port : Z
}.

Definition ROUTINES_COUNT : nat := 4.

(** [cap(m.sendQueue)], as NewMTProtoExt makes the channel. *)
Definition sendQueue_cap : nat := 1024.

Section Core.

Context {St : Type} {sessionStore : SessionStore St}.

(** [MTProto].  [store_state] is the outside world of [sessionStore];
    [log] is what the logger received; [sendQueue] is the internal queue,
    oldest first; [routinesStop] counts the stop tokens in the channel;
    [routinesWG] is the wait-group counter; [handleEvent] tells whether a
    handler is installed.  [started] holds the arguments of the goroutines
    started by [go m.handleEvent(x)], the latest first.  These goroutines run
    on their own: the list tells which of them exist, each as often as it
    was started, and nothing about when or in which order they run.
    The mutex only orders goroutines: a locked region is one step here. *)
Record MTProto : Type := mkMTProto {
  store_state : St;
  session : option SessionInfo;
  log : list (LogLevel * string);
  sendQueue : list ptr;
  routinesStop : nat;
  routinesWG : Z;
  encryptionReady : bool;
  msgsByID : gmap Z ptr;
  handleEvent : bool;
  started : list TL;
  dcOptions : list TL_dcOption;
  packets : gmap ptr packetToSend;
  chans : gmap chan_id channel
}.

Definition set_store_state (v : St) (m : MTProto) : MTProto :=
  mkMTProto v (session m) (log m) (sendQueue m) (routinesStop m) (routinesWG m)
    (encryptionReady m) (msgsByID m) (handleEvent m) (started m) (dcOptions m)
    (packets m) (chans m).
Definition set_session (v : option SessionInfo) (m : MTProto) : MTProto :=
  mkMTProto (store_state m) v (log m) (sendQueue m) (routinesStop m) (routinesWG m)
    (encryptionReady m) (msgsByID m) (handleEvent m) (started m) (dcOptions m)
    (packets m) (chans m).
Definition set_log (v : list (LogLevel * string)) (m : MTProto) : MTProto :=
  mkMTProto (store_state m) (session m) v (sendQueue m) (routinesStop m) (routinesWG m)
    (encryptionReady m) (msgsByID m) (handleEvent m) (started m) (dcOptions m)
    (packets m) (chans m).
Definition set_sendQueue (v : list ptr) (m : MTProto) : MTProto :=
  mkMTProto (store_state m) (session m) (log m) v (routinesStop m) (routinesWG m)
    (encryptionReady m) (msgsByID m) (handleEvent m) (started m) (dcOptions m)
    (packets m) (chans m).
Definition set_routinesStop (v : nat) (m : MTProto) : MTProto :=
  mkMTProto (store_state m) (session m) (log m) (sendQueue m) v (routinesWG m)
    (encryptionReady m) (msgsByID m) (handleEvent m) (started m) (dcOptions m)
    (packets m) (chans m).
Definition set_routinesWG (v : Z) (m : MTProto) : MTProto :=
  mkMTProto (store_state m) (session m) (log m) (sendQueue m) (routinesStop m) v
    (encryptionReady m) (msgsByID m) (handleEvent m) (started m) (dcOptions m)
    (packets m) (chans m).
Definition set_encryptionReady (v : bool) (m : MTProto) : MTProto :=
  mkMTProto (store_state m) (session m) (log m) (sendQueue m) (routinesStop m)
    (routinesWG m) v (msgsByID m) (handleEvent m) (started m) (dcOptions m)
    (packets m) (chans m).
Definition set_msgsByID (v : gmap Z ptr) (m : MTProto) : MTProto :=
  mkMTProto (store_state m) (session m) (log m) (sendQueue m) (routinesStop m)
    (routinesWG m) (encryptionReady m) v (handleEvent m) (started m) (dcOptions m)
    (packets m) (chans m).
Definition set_started (v : list TL) (m : MTProto) : MTProto :=
  mkMTProto (store_state m) (session m) (log m) (sendQueue m) (routinesStop m)
    (routinesWG m) (encryptionReady m) (msgsByID m) (handleEvent m) v (dcOptions m)
    (packets m) (chans m).
Definition set_packets (v : gmap ptr packetToSend) (m : MTProto) : MTProto :=
  mkMTProto (store_state m) (session m) (log m) (sendQueue m) (routinesStop m)
    (routinesWG m) (encryptionReady m) (msgsByID m) (handleEvent m) (started m)
    (dcOptions m) v (chans m).
Definition set_chans (v : gmap chan_id channel) (m : MTProto) : MTProto :=
  mkMTProto (store_state m) (session m) (log m) (sendQueue m) (routinesStop m)
    (routinesWG m) (encryptionReady m) (msgsByID m) (handleEvent m) (started m)
    (dcOptions m) (packets m) v.

(** [m.log.Debug(...)] and its siblings; the format string stands for the
    formatted line. *)
Definition logf (lvl : LogLevel) (line : string) (m : MTProto) : MTProto :=
  set_log (log m ++ [(lvl, line)]) m.

(** [m.sendQueue <- packet]: with 1024 packets in the queue the send waits
    until the send worker has taken one. *)
Definition enqueue (p : ptr) (m : MTProto) : outcome MTProto :=
  if (length (sendQueue m) <? sendQueue_cap)%nat
  then Done (set_sendQueue (sendQueue m ++ [p]) m)
  else Blocked.

(** [&packetToSend{...}]: a packet at an address not yet in use. *)
Definition alloc (pk : packetToSend) (m : MTProto) : ptr * MTProto :=
  let p := fresh (dom (packets m)) in
  (p, set_packets (<[p := pk]> (packets m)) m).

(** [m.sendQueue <- newPacket(msg, resp)]. *)
Definition enqueue_new (msg : TL) (resp : option chan_id) (m : MTProto)
  : outcome MTProto :=
  let '(p, m) := alloc (newPacket msg resp) m in
  enqueue p m.

(** [c <- v] on a buffered channel. *)
Definition chan_send (c : chan_id) (v : TL) (m : MTProto) : outcome MTProto :=
  match chans m !! c with
  | None => Panicked                     (* no such address: not a Go state *)
  | Some ch =>
    if closed ch then Panicked
    else if (length (items ch) <? capacity ch)%nat
    then Done (set_chans (<[c := mkChannel (items ch ++ [v]) (capacity ch) false]>
                            (chans m)) m)
    else Blocked
  end.

(** [close(c)]. *)
Definition chan_close (c : chan_id) (m : MTProto) : outcome MTProto :=
  match chans m !! c with
  | None => Panicked
  | Some ch =>
    if closed ch then Panicked
    else Done (set_chans (<[c := mkChannel (items ch) (capacity ch) true]> (chans m)) m)
  end.

(** [m.sessionStore.Save(m.session)], the error logged.  With a nil session
    the file store panics on its first field; the dispatcher sets the salt
    of the session, and so dereferences it, just before it calls this. *)
Definition SaveSessionLogged (m : MTProto) : outcome MTProto :=
  match session m with
  | None => Panicked
  | Some s =>
    let* (st, e) := Save s (store_state m) in
    let m := set_store_state st m in
    match e with
    | Some _ => Done (logf LError "failed to save session data" m)
    | None => Done m
    end
  end.

Fixpoint DCAddr_loop (os : list TL_dcOption) (dcID : Z) (ipv6 : bool) : string * bool :=
  match os with
  | [] => (EmptyString, false)
  | o :: rest =>
    if (o_ID o =? dcID) && Bool.eqb (o_Ipv6 o) ipv6
    then ((o_IpAddress o ++ ":" ++ pretty (o_Port o))%string, true)
    else DCAddr_loop rest dcID ipv6
  end.

Definition DCAddr (dcID : Z) (ipv6 : bool) (m : MTProto) : string * bool :=
  DCAddr_loop (dcOptions m) dcID ipv6.

Section Pending.

(** The order in which [range] visits a map is chosen by the runtime. *)
Variable range_order : gmap Z ptr -> list (Z * ptr).

Definition popPendingPacketsUnlocked (m : MTProto) : list ptr * MTProto :=
  let '(tbl, ps) :=
    foldl (fun '(tbl, ps) '(id, packet) => (delete id tbl, ps ++ [packet]))
          (msgsByID m, []) (range_order (msgsByID m)) in
  (ps, logf LDebug "popped %d pending packet(s): %#v" (set_msgsByID tbl m)).

(** The sends of the loop, one after the other: the first that has to
    wait stops the loop there. *)
Definition pushPendingPacketsUnlocked (ps : list ptr) (m : MTProto) : outcome MTProto :=
  let* m := foldl (fun r p => let* m := r in enqueue p m) (Done m) ps in
  Done (logf LDebug "pushed %d pending packet(s)" m).

Definition resendPendingPackets (m : MTProto) : outcome MTProto :=
  let '(ps, m) := popPendingPacketsUnlocked m in
  pushPendingPacketsUnlocked ps m.

Definition clearPacketData (msgID : Z) (response : TL) (m : MTProto)
  : outcome MTProto :=
  match msgsByID m !! msgID with
  | None => Done m
  | Some p =>
    match packets m !! p with
    | None => Panicked                 (* no such address: not a Go state *)
    | Some packet =>
      let* m :=
        match resp packet with
        | None => Done (logf LWarn "second response to message #%d %#v" m)
        | Some c =>
          let* m := chan_send c response m in
          let* m := chan_close c m in
          Done (set_packets (<[p := clear_resp packet]> (packets m)) m)
        end in
      Done (set_msgsByID (delete msgID (msgsByID m)) m)
    end
  end.

(** One turn of the loop over the ids of a msgs_ack. *)
Definition ack_one (id : Z) (m : MTProto) : outcome MTProto :=
  match msgsByID m !! id with
  | None => Done m
  | Some p =>
    match packets m !! p with
    | None => Panicked
    | Some packet =>
      let packet := clear_needAck packet in
      let m := set_packets (<[p := packet]> (packets m)) m in
      match resp packet with
      | None => Done (set_msgsByID (delete id (msgsByID m)) m)
      | Some _ => Done m
      end
    end
  end.

Fixpoint ack_all (ids : list Z) (m : MTProto) : outcome MTProto :=
  match ids with
  | [] => Done m
  | id :: rest => let* m := ack_one id m in ack_all rest m
  end.

Fixpoint process (dataTL : TL) (msgId seqNo : Z) (mayPassToHandler : bool)
         (m : MTProto) {struct dataTL} : outcome MTProto :=
  let* m :=
    match dataTL with
    | TL_msg_container Items =>
      (fix each (vs : list TL_MT_message) (m : MTProto) : outcome MTProto :=
         match vs with
         | [] => Done m
         | MT_message id sq _ d :: rest =>
           let* m := process d id sq true m in each rest m
         end) Items m
    | TL_bad_server_salt NewServerSalt _ =>
      match session m with
      | None => Panicked
      | Some s =>
        let m := set_session (Some (set_ServerSalt NewServerSalt s)) m in
        let* m := SaveSessionLogged m in
        resendPendingPackets m
      end
    | TL_bad_msg_notification BadMsgID _ => clearPacketData BadMsgID dataTL m
    | TL_msgs_state_info ReqMsgID _ => clearPacketData ReqMsgID dataTL m
    | TL_new_session_created ServerSalt _ =>
      match session m with
      | None => Panicked
      | Some s =>
        SaveSessionLogged (set_session (Some (set_ServerSalt ServerSalt s)) m)
      end
    | TL_ping PingID => enqueue_new (TL_pong msgId PingID) None m
    | TL_pong _ _ => Done m
    | TL_msgs_ack MsgIds => ack_all MsgIds m
    | TL_rpc_result req_msg_id obj =>
      let* m := process obj msgId 0 false m in
      clearPacketData req_msg_id obj m
    | TL_null | TL_other _ _ =>
      if mayPassToHandler && handleEvent m
      then Done (set_started (dataTL :: started m) m)   (* go m.handleEvent(dataTL) *)
      else Done m
    end in
  (* should acknowledge odd ids *)
  if Z.land seqNo 1 =? 1
  then enqueue_new (TL_msgs_ack [msgId]) None m
  else Done m.

(** *** The ping worker *)

(** What ends one wait of the ping worker's [select] when no stop token
    is in the channel at its start: another goroutine puts one there, or
    the 60 s of the timer pass first. *)
Inductive ping_select : Type := RecvStop | After60s.

(** [m.routinesWG.Done()]: a negative counter panics. *)
Definition WG_Done (m : MTProto) : outcome MTProto :=
  if routinesWG m - 1 <? 0 then Panicked
  else Done (set_routinesWG (routinesWG m - 1) m).

(** The loop of pingRoutine; the deferred function runs on return.  The
    timer of a [select] starts when the [select] does, so a stop token that
    is already in the channel is taken at once.  With none there the worker
    waits, and the schedule tells what ends each wait: a token that arrives
    is taken as it arrives, so the count of tokens stays 0. *)
Fixpoint pingRoutine (sched : list ping_select) (m : MTProto) : outcome MTProto :=
  match routinesStop m with
  | S k => WG_Done (logf LDebug "pingRoutine done" (set_routinesStop k m))
  | O =>
    match sched with
    | [] => OutOfFuel
    | RecvStop :: _ => WG_Done (logf LDebug "pingRoutine done" m)
    | After60s :: rest =>
      let* m := enqueue_new (TL_ping 0xCADACADA) None m in
      pingRoutine rest m
    end
  end.

(** The ping worker as the spec words it, "enqueues a ping(random_id)":
    the ids are the successive values of the random source [rnd]. *)
Fixpoint spec_pingRoutine (rnd : list Z) (sched : list ping_select) (m : MTProto)
  : outcome MTProto :=
  match routinesStop m with
  | S k => WG_Done (logf LDebug "pingRoutine done" (set_routinesStop k m))
  | O =>
    match sched with
    | [] => OutOfFuel
    | RecvStop :: _ => WG_Done (logf LDebug "pingRoutine done" m)
    | After60s :: rest =>
      match rnd with
      | [] => OutOfFuel
      | id :: rnd =>
        let* m := enqueue_new (TL_ping id) None m in
        spec_pingRoutine rnd rest m
      end
    end
  end.

(** *** Reconnection *)

Section Reconnect.

(** Lines 351-376 of reconnectToDc stop the four workers: stop tokens
    are pushed, the connection is closed (an error of [Close] is
    returned), the wait group is awaited and the left-over tokens are
    drained.  What this leaves depends on the workers and the network;
    so does [Connect]. *)
Variable stop_routines : MTProto -> outcome (MTProto * option error).
Variable Connect : MTProto -> outcome (MTProto * option error).

(** The end of reconnectToDc, after [Connect] returned. *)
Definition resend_after_connect (pendingIDs : list Z)
           (r : outcome (MTProto * option error)) : outcome (MTProto * option error) :=
  let* (m, e) := r in
  match e with
  | Some e => Done (m, Some e)
  | None =>
    let* m :=
      if (0 <? length pendingIDs)%nat
      then pushPendingPacketsUnlocked
             (omap (fun id => msgsByID m !! id) pendingIDs) m
      else Done m in
    Done (logf LInfo "reconnected to DC %d (%s)" m, None)
  end.

Definition reconnectToDc (newDcID : Z) (m : MTProto)
  : outcome (MTProto * option error) :=
  match session m with
  | None => Panicked
  | Some _ =>
    let m := logf LInfo "reconnecting: DC %d -> %d" m in
    let* (m, e) := stop_routines m in
    match e with
    | Some e => Done (m, Some e)
    | None =>
      let pendingIDs := (range_order (msgsByID m)).*1 in
      let m := logf LDebug "found %d pending packet(s)" m in
      (* renewing connection *)
      match session m with
      | None => Panicked
      | Some s =>
        let m := if negb (newDcID =? DcID s)
                 then set_encryptionReady false m else m in
        let '(newDcAddr, ok) := DCAddr newDcID false m in
        if negb ok then Done (m, Some (Err "wrong DC number: %d"))
        else
          let m := set_session (Some (set_Dc newDcID newDcAddr s)) m in
          resend_after_connect pendingIDs (Connect m)
      end
    end
  end.

Definition Reconnect (m : MTProto) : outcome (MTProto * option error) :=
  match session m with
  | None => Panicked
  | Some s => reconnectToDc (DcID s) m
  end.

End Reconnect.

End Pending.

End Core.

(** ** Starting up and sending (mtproto.go) *)

Section Startup.

Context {St : Type} {sessionStore : SessionStore St}.

(** [&SessionInfo{}]. *)
Definition empty_session : SessionInfo := mkSessionInfo 0 [] [] 0 EmptyString 0.

Definition set_sessionId (v : Z) (s : SessionInfo) : SessionInfo :=
  mkSessionInfo (DcID s) (AuthKey s) (AuthKeyHash s) (ServerSalt s) (Addr s) v.
Definition set_Addr (v : string) (s : SessionInfo) : SessionInfo :=
  mkSessionInfo (DcID s) (AuthKey s) (AuthKeyHash s) (ServerSalt s) v (sessionId s).

(** NewMTProtoExt: the queues and the table empty, no stop token, every
    flag at its zero value; [st] is what the store finds outside.  The
    application config and the debug goroutine, which only logs, are not
    part of the state kept here. *)
Definition NewMTProtoExt (st : St) (session : option SessionInfo) : @MTProto St :=
  mkMTProto st session [] [] 0 0 false ∅ false [] [] ∅ ∅.

(** InitSession; [rnd] is the value [rand.Int63()] returns.  The session
    allocated for [Load] stays in place whatever [Load] returns. *)
Definition InitSession (sessEncrIsReady : bool) (rnd : Z) (m : @MTProto St)
  : outcome (@MTProto St * option error) :=
  let* (m, e) :=
    match session m with
    | None =>
      let* (r, err) := Load empty_session (store_state m) in
      let '(st, sess) := r in
      let m := set_store_state st (set_session (Some sess) m) in
      match err with
      | Some ErrNoSessionData =>       (* merry.Is(err, ErrNoSessionData) *)
        Done (set_encryptionReady false
                (set_session (Some (set_Addr "149.154.167.50:443" sess)) m), None)
      | None => Done (set_encryptionReady true m, None)
      | Some e => Done (m, Some e)
      end
    | Some _ => Done (set_encryptionReady sessEncrIsReady m, None)
    end in
  match e with
  | Some e => Done (m, Some e)
  | None =>
    match session m with
    | None => Panicked
    | Some s => Done (set_session (Some (set_sessionId rnd s)) m, None)
    end
  end.

(** The external queue stands beside the protocol state: [MTProto] with
    its [extSendQueue], a channel of capacity 64. *)
Record Sender : Type := mkSender {
  core : @MTProto St;
  extSendQueue : list ptr
}.

Definition extSendQueue_cap : nat := 64.

(** [make(chan TL, 1)]: an open, empty channel at an address not in use. *)
Definition make_chan (m : @MTProto St) : chan_id * @MTProto St :=
  let c := fresh (dom (chans m)) in
  (c, set_chans (<[c := mkChannel [] 1 false]> (chans m)) m).

(** Send: a new response channel, a new packet on the external queue
    (the caller waits while the queue is full), and the channel returned. *)
Definition Send (msg : TL) (x : Sender) : outcome (chan_id * Sender) :=
  let '(c, m) := make_chan (core x) in
  let '(p, m) := alloc (newPacket msg (Some c)) m in
  if (length (extSendQueue x) <? extSendQueue_cap)%nat
  then Done (c, mkSender m (extSendQueue x ++ [p]))
  else Blocked.

(** The loop of queueTransferRoutine.  Each element of the schedule tells
    whether the runtime, at this turn, takes the stop case when it can
    choose.  With room in the internal queue the worker waits for a stop
    token or for a packet of the external queue; without room it takes a
    stop token if there is one and sleeps otherwise. *)
Fixpoint queueTransferRoutine (sched : list bool) (x : Sender) : outcome Sender :=
  match sched with
  | [] => OutOfFuel
  | prefer_stop :: rest =>
    let m := core x in
    let stop (k : nat) :=            (* a token taken, [k] left; then the defer *)
      let* m := WG_Done (logf LDebug "queueTransferRoutine done"
                           (set_routinesStop k m)) in
      Done (mkSender m (extSendQueue x)) in
    if (length (sendQueue m) <? extSendQueue_cap)%nat then
      match routinesStop m, extSendQueue x with
      | O, [] => Blocked
      | O, p :: ext =>
        let* m := enqueue p m in queueTransferRoutine rest (mkSender m ext)
      | S k, [] => stop k
      | S k, p :: ext =>
        if prefer_stop then stop k
        else let* m := enqueue p m in queueTransferRoutine rest (mkSender m ext)
      end
    else
      match routinesStop m with
      | O => queueTransferRoutine rest x          (* time.Sleep *)
      | S k => stop k
      end
  end.

End Startup.

(** ** Who runs reconnectToDc

    Several goroutines may ask for a reconnection at once.  Each one is
    followed from its entry point to its return; the only state they share
    here is the semaphore channel of capacity one. *)

Module Semaphore.

(** The entry points: the workers' [go m.reconnectLogged()], the exported
    [Reconnect], and [Auth] on a migration error. *)
Inductive entry : Type := ViaReconnectLogged | ViaReconnect | ViaAuth.

Inductive position : Type :=
| AtEntry
| InReconnectToDc              (* pushing stop tokens, connecting, ... *)
| ReturnedInProgress           (* "reconnection already in progress, aborting" *)
| Returned.

#[export] Instance entry_eq_dec : EqDecision entry.
Proof. solve_decision. Defined.
#[export] Instance position_eq_dec : EqDecision position.
Proof. solve_decision. Defined.

Record system : Type := mkSystem {
  reconnSemaphore : nat;                    (* tokens in the channel, capacity 1 *)
  goroutines : list (entry * position)
}.

(** One step of a goroutine: the new position and semaphore, if it can move. *)
Definition advance (e : entry) (p : position) (sem : nat) : option (position * nat) :=
  match e, p with
  | ViaReconnectLogged, AtEntry =>
    (* select { case m.reconnSemaphore <- struct{}{}: default: return } *)
    if (sem <? 1)%nat then Some (InReconnectToDc, S sem)
    else Some (ReturnedInProgress, sem)
  | ViaReconnectLogged, InReconnectToDc =>
    (* reconnectToDc returned nil; defer func() { <-m.reconnSemaphore }() *)
    match sem with
    | O => None
    | S k => Some (Returned, k)
    end
  | (ViaReconnect | ViaAuth), AtEntry => Some (InReconnectToDc, sem)
  | (ViaReconnect | ViaAuth), InReconnectToDc => Some (Returned, sem)
  | _, _ => None
  end.

Definition step (i : nat) (s : system) : system :=
  match goroutines s !! i with
  | None => s
  | Some (e, p) =>
    match advance e p (reconnSemaphore s) with
    | None => s
    | Some (p', sem') => mkSystem sem' (<[i := (e, p')]> (goroutines s))
    end
  end.

(** The system after the goroutines named by a schedule moved in turn. *)
Definition run (schedule : list nat) (s : system) : system :=
  foldl (fun s i => step i s) s schedule.

(** How many goroutines are inside reconnectToDc. *)
Definition reconnecting (s : system) : nat :=
  length (filter (fun g => g.2 = InReconnectToDc) (goroutines s)).

(** The same, counting only those that entered by [e]. *)
Definition reconnecting_via (e : entry) (s : system) : nat :=
  length (filter (fun g => g = (e, InReconnectToDc)) (goroutines s)).

(** All goroutines at their entry points, the semaphore free. *)
Definition initial (es : list entry) : system :=
  mkSystem 0 ((fun e => (e, AtEntry)) <$> es).

End Semaphore.

(** ** Notions used to state the properties *)

(** A decoder as [NewDecodeBuf] makes it and the readers leave it: [size]
    is the length of the buffer, the offset lies inside, and the length is
    one a Go slice can have. *)
Definition decoder_wf (d : Decode.DecodeBuf) : Prop :=
  Decode.size d = Z.of_nat (length (Decode.buf d))
  /\ 0 <= Decode.off d <= Decode.size d
  /\ Decode.size d < 2^62.

(** The session file as the spec words it: "four length-prefixed fields in
    order auth_key, auth_key_hash, server_salt (i64), address (string)",
    each in string-bytes framing, the salt being its eight bytes. *)
Definition spec_session_file (sess : SessionInfo) : list byte :=
  Encode.string_bytes (AuthKey sess) ++ Encode.string_bytes (AuthKeyHash sess)
  ++ Encode.string_bytes (le_bytes 8 (ServerSalt sess))
  ++ Encode.string_bytes (list_byte_of_string (Addr sess)).

(** The acknowledgements an inbound message calls for, in the order of a
    post-order walk: those of the messages nested in it, then its own id if
    its seq_no is odd.  Items of a container carry their own msg_id and
    seq_no; the object inside an rpc_result counts with seq_no 0. *)
Fixpoint acks_of (dataTL : TL) (msgId seqNo : Z) : list Z :=
  match dataTL with
  | TL_msg_container Items =>
    (fix each (vs : list TL_MT_message) : list Z :=
       match vs with
       | [] => []
       | MT_message id sq _ d :: rest => acks_of d id sq ++ each rest
       end) Items
  | TL_rpc_result _ obj => acks_of obj msgId 0
  | _ => []
  end ++ (if Z.odd seqNo then [msgId] else []).

(** A bound on the sends to the internal queue that processing an inbound
    message makes: one pong for each ping, the pending packets for a
    bad_server_salt (at most [pending] of them, the size of the table when
    the dispatcher is called, which it never enlarges), and one
    acknowledgement for each odd seq_no. *)
Fixpoint sends_of (dataTL : TL) (seqNo : Z) (pending : nat) : nat :=
  (match dataTL with
   | TL_msg_container Items =>
     (fix each (vs : list TL_MT_message) : nat :=
        match vs with
        | [] => 0
        | MT_message _ sq _ d :: rest => sends_of d sq pending + each rest
        end) Items
   | TL_rpc_result _ obj => sends_of obj 0 pending
   | TL_bad_server_salt _ _ => pending
   | TL_ping _ => 1
   | _ => 0
   end + (if Z.odd seqNo then 1 else 0))%nat.

(** The ids acknowledged by the packet at [p], if it carries a msgs_ack. *)
Definition ack_ids (heap : gmap ptr packetToSend) (p : ptr) : option (list Z) :=
  match heap !! p with
  | Some pk => match msg pk with TL_msgs_ack ids => Some ids | _ => None end
  | None => None
  end.

(** The msgs_ack packets among [ps] that did not exist in the heap [old],
    in order: the acknowledgements created while [ps] was enqueued. *)
Definition new_acks (old heap : gmap ptr packetToSend) (ps : list ptr)
  : list (list Z) :=
  omap (fun p => if decide (p ∈ dom old) then None else ack_ids heap p) ps.

Section StateInvariant.

Context {St : Type}.

(** What holds of the protocol state between two calls of the dispatcher:
    a session is set; the pending table points to packets; a packet that
    still waits for a response owns an open, empty channel with room, and
    no other packet shares it; and no channel ever held more than one
    response. *)
Record state_wf (m : @MTProto St) : Prop := {
  wf_session : is_Some (session m);
  wf_table : forall id p, msgsByID m !! id = Some p -> is_Some (packets m !! p);
  wf_resp : forall p pk c,
      packets m !! p = Some pk -> resp pk = Some c ->
      exists ch, chans m !! c = Some ch /\ closed ch = false
                 /\ items ch = [] /\ (0 < capacity ch)%nat;
  wf_owner : forall p1 p2 pk1 pk2 c,
      packets m !! p1 = Some pk1 -> packets m !! p2 = Some pk2 ->
      resp pk1 = Some c -> resp pk2 = Some c -> p1 = p2;
  wf_once : forall c ch, chans m !! c = Some ch -> (length (items ch) <= 1)%nat
}.


(** What the loop over the ids of a msgs_ack has done between [m] and [m']:
    only the table and the packet heap may differ; entries of other ids are
    kept and absent ids stay absent; an acked entry is removed exactly when
    its packet has no response channel; a packet under an acked id has its
    needAck flag cleared and every other packet is as it was. *)
Record ack_rel (ids : list Z) (m m' : @MTProto St) : Prop := {
  ack_frame : set_packets (packets m') (set_msgsByID (msgsByID m') m) = m';
  ack_other : forall id, id ∉ ids -> msgsByID m' !! id = msgsByID m !! id;
  ack_absent : forall id, msgsByID m !! id = None -> msgsByID m' !! id = None;
  ack_entry : forall id p pk,
      id ∈ ids -> msgsByID m !! id = Some p -> packets m !! p = Some pk ->
      msgsByID m' !! id = match resp pk with None => None | Some _ => Some p end;
  ack_cleared : forall p pk,
      packets m !! p = Some pk ->
      (exists id, id ∈ ids /\ msgsByID m !! id = Some p) ->
      packets m' !! p = Some (clear_needAck pk);
  ack_kept : forall p pk,
      packets m !! p = Some pk ->
      (forall id, id ∈ ids -> msgsByID m !! id <> Some p) ->
      packets m' !! p = Some pk;
  ack_no_alloc : forall p, packets m !! p = None -> packets m' !! p = None
}.

(** What a stretch of the dispatcher has done between [m] and [m']: the
    state is still well-formed; [added] was appended to the internal queue;
    the table only lost entries; old packets kept their payload; a packet
    of [added] is either new or was in the table; and the new msgs_ack
    packets of [added] acknowledge [expected], in this order. *)
Record step_ok (m m' : @MTProto St) (added : list ptr) (expected : list (list Z))
  : Prop := {
  ok_wf : state_wf m';
  ok_queue : sendQueue m' = sendQueue m ++ added;
  ok_table : forall id p, msgsByID m' !! id = Some p -> msgsByID m !! id = Some p;
  ok_heap : forall p pk, packets m !! p = Some pk ->
                         exists pk', packets m' !! p = Some pk' /\ msg pk' = msg pk;
  ok_added : forall p, p ∈ added ->
                       (packets m !! p = None /\ is_Some (packets m' !! p))
                       \/ (exists id, msgsByID m !! id = Some p);
  ok_acks : new_acks (packets m) (packets m') added = expected
}.

End StateInvariant.

(** A store whose [Save] always returns. *)
Definition store_returns {St : Type} (sessionStore : SessionStore St) : Prop :=
  forall s st, exists st' e, Save s st = Done (st', e).

(** ** States to try the properties on *)

Definition example_session : SessionInfo :=
  mkSessionInfo 2 [] [] 5 "149.154.167.50:443" 11.

(** One request in flight: msg_id 7, the packet at address 1, its caller
    waiting on channel 1; one stop token; four workers in the wait group;
    a session on DC 2 and the option of DC 2 in the table. *)
Definition example_state : @MTProto unit :=
  mkMTProto tt (Some example_session) [] [] 1 4 true
            {[7 := 1%positive]} false []
            [mkDcOption 2 false "149.154.167.50" 443]
            {[1%positive := mkPacket 7 1 (TL_other 100 []) (Some 1%positive) true]}
            {[1%positive := mkChannel [] 1 false]}.

(** The same state before any configuration was received: no DC option. *)
Definition example_state_no_options : @MTProto unit :=
  mkMTProto tt (Some example_session) [] [] 1 4 true
            {[7 := 1%positive]} false [] []
            {[1%positive := mkPacket 7 1 (TL_other 100 []) (Some 1%positive) true]}
            {[1%positive := mkChannel [] 1 false]}.

(** The container of the spec's second scenario: a ping with msg_id 10 and
    seq_no 1, and an rpc_result with msg_id 12 and seq_no 3 answering the
    request 7. *)
Definition example_container : TL :=
  TL_msg_container
    [MT_message 10 1 8 (TL_ping 1);
     MT_message 12 3 16 (TL_rpc_result 7 (TL_other 200 []))].

(** A network that stops the workers and connects without incident. *)
Definition quiet_network (m : @MTProto unit) : outcome (@MTProto unit * option error) :=
  Done (m, None).

(** The first packet a worker enqueues, as far as the ping id goes. *)
Definition first_ping {St : Type} (r : outcome (@MTProto St)) : option TL :=
  match r with
  | Done m => p ← head (sendQueue m); msg <$> packets m !! p
  | _ => None
  end.

(** The example state with no stop token in the channel: the workers run. *)
Definition example_state_running : @MTProto unit :=
  mkMTProto tt (Some example_session) [] [] 0 4 true
            {[7 := 1%positive]} false []
            [mkDcOption 2 false "149.154.167.50" 443]
            {[1%positive := mkPacket 7 1 (TL_other 100 []) (Some 1%positive) true]}
            {[1%positive := mkChannel [] 1 false]}.

(** The example state with an event handler installed. *)
Definition example_state_with_handler : @MTProto unit :=
  mkMTProto tt (Some example_session) [] [] 1 4 true
            {[7 := 1%positive]} true []
            [mkDcOption 2 false "149.154.167.50" 443]
            {[1%positive := mkPacket 7 1 (TL_other 100 []) (Some 1%positive) true]}
            {[1%positive := mkChannel [] 1 false]}.

(** Two updates in a container, the first with an odd seq_no. *)
Definition example_updates : list TL_MT_message :=
  [MT_message 10 1 8 (TL_other 100 []); MT_message 12 2 8 (TL_other 200 [])].

(** The example state with nothing in the external queue, and the same
    after two calls of Send. *)
Definition example_sender : @Sender unit := mkSender example_state [].

Definition after_Send (msg : TL) (x : @Sender unit) : @Sender unit :=
  match Send msg x with
  | Done (_, x') => x'
  | _ => x
  end.

Definition example_sender_two_sent : @Sender unit :=
  after_Send (TL_other 400 []) (after_Send (TL_other 300 []) example_sender).

(** * Properties *)

(** ** The decoder *)

Lemma wrap_int_small (x : Z) : - 2^63 <= x < 2^63 -> wrap_int x = x.
Proof.
  intros H. unfold wrap_int.
  rewrite Z.mod_small; lia.
Qed.

Lemma byte_to_Z_range (b : byte) : 0 <= byte_to_Z b < 256.
Proof.
  unfold byte_to_Z. pose proof (Byte.to_N_bounded b). lia.
Qed.

Lemma big_SetBytes_from (bs : list byte) (acc : Z) :
  fold_left (fun a b => a * 256 + byte_to_Z b) bs acc
  = acc * 256 ^ Z.of_nat (length bs) + be_unsigned bs.
Proof.
  revert acc. induction bs as [|b bs IH]; intros acc; simpl fold_left.
  - simpl. lia.
  - rewrite IH. cbn [be_unsigned length].
    rewrite Nat2Z.inj_succ, Z.pow_succ_r by lia. ring.
Qed.

Lemma big_SetBytes_zero_prefix (bs : list byte) :
  big_SetBytes (x00 :: bs) = be_unsigned bs.
Proof.
  unfold big_SetBytes. simpl fold_left.
  rewrite big_SetBytes_from. change (0 * 256 + byte_to_Z "000") with 0. lia.
Qed.

Lemma be_unsigned_nonneg (bs : list byte) : 0 <= be_unsigned bs.
Proof.
  induction bs as [|b bs IH]; simpl; [lia|].
  pose proof (byte_to_Z_range b).
  assert (0 <= 256 ^ Z.of_nat (length bs)) by (apply Z.pow_nonneg; lia).
  nia.
Qed.

Section DecoderFacts.

Variables CRC_msg_container CRC_rpc_result CRC_gzip_packed : Z.
Variables CRC_boolFalse CRC_boolTrue : Z.
Variable ObjectGenerated : Z -> Decode.reader TL.
Variable gunzip : list byte -> option (list byte).

Local Abbreviation Object :=
  (Decode.Object CRC_msg_container CRC_rpc_result CRC_gzip_packed
                 ObjectGenerated gunzip).
Local Abbreviation Vector :=
  (Decode.Vector CRC_msg_container CRC_rpc_result CRC_gzip_packed
                 ObjectGenerated gunzip).
Local Abbreviation Bool := (Decode.Bool CRC_boolFalse CRC_boolTrue).

Lemma failed_of_err (m : Decode.DecodeBuf) :
  Decode.err m <> None -> Decode.failed m = true.
Proof.
  unfold Decode.failed. destruct (Decode.err m); congruence.
Qed.

Lemma fixed_sticky n name conv (m : Decode.DecodeBuf) :
  Decode.failed m = true -> Decode.fixed n name conv m = Done (0, m).
Proof.
  intros H. unfold Decode.fixed. now rewrite H.
Qed.

Lemma StringBytes_sticky (m : Decode.DecodeBuf) :
  Decode.failed m = true -> Decode.StringBytes m = Done ([], m).
Proof.
  intros H. unfold Decode.StringBytes. now rewrite H.
Qed.

Lemma vector_of_sticky {A} name (rd : Decode.reader A) (m : Decode.DecodeBuf) :
  Decode.failed m = true -> Decode.vector_of name rd m = Done ([], m).
Proof.
  intros H. unfold Decode.vector_of, Decode.UInt.
  rewrite fixed_sticky by assumption. cbn [obind]. now rewrite H.
Qed.

(** C8. Once the error of a decode buffer is set, every reader (Long,
    Int, UInt, Double, Bytes, StringBytes, String, BigInt, Bool, the four
    vector readers and Object) returns the zero value of its result type
    and leaves the buffer, its offset and its error as they were. *)
Theorem decode_error_is_sticky (m : Decode.DecodeBuf) (H : Decode.err m <> None) :
  Decode.Long m = Done (0, m)
  /\ Decode.Int m = Done (0, m)
  /\ Decode.UInt m = Done (0, m)
  /\ Decode.Double m = Done (0, m)
  /\ (forall sz, Decode.Bytes sz m = Done ([], m))
  /\ Decode.StringBytes m = Done ([], m)
  /\ Decode.String m = Done (EmptyString, m)
  /\ Decode.BigInt m = Done (None, m)
  /\ Bool m = Done (false, m)
  /\ Decode.VectorInt m = Done ([], m)
  /\ Decode.VectorLong m = Done ([], m)
  /\ Decode.VectorString m = Done ([], m)
  /\ (forall fuel, Vector fuel m = Done ([], m))
  /\ (forall fuel, Object (S fuel) m = Done (TL_null, m)).
Proof.
  apply failed_of_err in H.
  repeat split; intros;
    try (apply fixed_sticky; assumption);
    try (apply vector_of_sticky; assumption);
    try (apply StringBytes_sticky; assumption).
  - unfold Decode.Bytes. now rewrite H.
  - unfold Decode.String. rewrite StringBytes_sticky by assumption.
    cbn [obind]. now rewrite H.
  - unfold Decode.BigInt. rewrite StringBytes_sticky by assumption.
    cbn [obind]. now rewrite H.
  - unfold Decode.Bool, Decode.UInt. rewrite fixed_sticky by assumption.
    cbn [obind]. now rewrite H.
  - cbn [Decode.Object]. unfold Decode.UInt.
    rewrite fixed_sticky by assumption. cbn [obind]. now rewrite H.
Qed.

End DecoderFacts.

Lemma int_add_small (a b : Z) : - 2^63 <= a + b < 2^63 -> int_add a b = a + b.
Proof. intros H. unfold int_add. now apply wrap_int_small. Qed.

Lemma index_in_range (b : list byte) (i : Z) :
  0 <= i < Z.of_nat (length b) -> exists x, index b i = Some x.
Proof.
  intros H. unfold index.
  destruct (Z.ltb_spec i 0) as [|_]; [lia|].
  destruct (lookup_lt_is_Some_2 b (Z.to_nat i)) as [x Hx]; [lia|].
  now exists x.
Qed.

Lemma slice_in_range (b : list byte) (lo hi : Z) :
  0 <= lo <= hi -> hi <= Z.of_nat (length b) ->
  slice b lo hi = Some (take (Z.to_nat (hi - lo)) (drop (Z.to_nat lo) b)).
Proof.
  intros H1 H2. unfold slice.
  destruct (Z.leb_spec 0 lo); [|lia].
  destruct (Z.leb_spec lo hi); [|lia].
  destruct (Z.leb_spec hi (Z.of_nat (length b))); [|lia].
  reflexivity.
Qed.

Lemma lor_le_add (a b : Z) : 0 <= a -> 0 <= b -> 0 <= Z.lor a b <= a + b.
Proof.
  intros Ha Hb. pose proof (Z.add_lor_land a b) as E.
  assert (0 <= Z.land a b) by (apply Z.land_nonneg; lia).
  assert (0 <= Z.lor a b) by (apply Z.lor_nonneg; lia).
  lia.
Qed.

Lemma three_byte_size_range (b1 b2 b3 : byte) :
  0 <= Z.lor (Z.lor (byte_to_Z b1) (Z.shiftl (byte_to_Z b2) 8))
             (Z.shiftl (byte_to_Z b3) 16) < 2^24.
Proof.
  pose proof (byte_to_Z_range b1). pose proof (byte_to_Z_range b2).
  pose proof (byte_to_Z_range b3).
  rewrite !Z.shiftl_mul_pow2 by lia.
  pose proof (lor_le_add (byte_to_Z b1) (byte_to_Z b2 * 2^8)).
  pose proof (lor_le_add (Z.lor (byte_to_Z b1) (byte_to_Z b2 * 2^8))
                         (byte_to_Z b3 * 2^16)).
  lia.
Qed.

Lemma land_3_range (x : Z) : 0 <= Z.land x 3 < 4.
Proof.
  change 3 with (Z.ones 2). rewrite Z.land_ones by lia.
  apply Z.mod_pos_bound. lia.
Qed.

(** The tail of StringBytes returns on a well-formed decoder and leaves it
    well-formed. *)
Lemma StringBytes_body_returns (sz padding : Z) (m : Decode.DecodeBuf) :
  decoder_wf m -> 0 <= sz < 2^24 -> 0 <= padding < 4 ->
  exists r m', Decode.StringBytes_body sz padding m = Done (r, m') /\ decoder_wf m'.
Proof.
  intros (Hsize & Hoff & Hlen) Hsz Hpad. unfold Decode.StringBytes_body.
  rewrite (int_add_small (Decode.off m) sz) by lia.
  destruct (Z.gtb_spec (Decode.off m + sz) (Decode.size m)) as [Hgt|Hle].
  - eexists _, _. split; [reflexivity|]. repeat split; simpl; lia.
  - rewrite slice_in_range by lia. cbn [Decode.off Decode.size Decode.set_off].
    rewrite (int_add_small (Decode.off m + sz) padding) by lia.
    destruct (Z.gtb_spec (Decode.off m + sz + padding) (Decode.size m)).
    + eexists _, _. split; [reflexivity|]. repeat split; simpl; lia.
    + eexists _, _. split; [reflexivity|]. repeat split; simpl; lia.
Qed.

(** StringBytes never panics on a well-formed decoder. *)
Lemma StringBytes_returns (m : Decode.DecodeBuf) :
  decoder_wf m ->
  exists r m', Decode.StringBytes m = Done (r, m') /\ decoder_wf m'.
Proof.
  intros Hwf. pose proof Hwf as (Hsize & Hoff & Hlen). unfold Decode.StringBytes.
  destruct (Decode.failed m); [now eexists _, _|].
  rewrite (int_add_small (Decode.off m) 1) by lia.
  destruct (Z.gtb_spec (Decode.off m + 1) (Decode.size m)) as [Hgt|Hle].
  { eexists _, _. split; [reflexivity|]. repeat split; simpl; lia. }
  destruct (index_in_range (Decode.buf m) (Decode.off m)) as [b0 Hb0]; [lia|].
  rewrite Hb0. cbn [Decode.off Decode.size Decode.buf Decode.set_off].
  pose proof (byte_to_Z_range b0) as Hb.
  destruct (Z.eqb_spec (byte_to_Z b0) 254) as [E|NE].
  - rewrite (int_add_small (Decode.off m + 1) 3) by lia.
    destruct (Z.gtb_spec (Decode.off m + 1 + 3) (Decode.size m)) as [Hgt3|Hle3].
    { eexists _, _. split; [reflexivity|]. repeat split; simpl; lia. }
    rewrite (int_add_small (Decode.off m + 1) 1) by lia.
    rewrite (int_add_small (Decode.off m + 1) 2) by lia.
    destruct (index_in_range (Decode.buf m) (Decode.off m + 1)) as [b1 ->]; [lia|].
    destruct (index_in_range (Decode.buf m) (Decode.off m + 1 + 1)) as [b2 ->]; [lia|].
    destruct (index_in_range (Decode.buf m) (Decode.off m + 1 + 2)) as [b3 ->]; [lia|].
    apply StringBytes_body_returns.
    + repeat split; simpl; lia.
    + apply three_byte_size_range.
    + apply land_3_range.
  - apply StringBytes_body_returns.
    + repeat split; simpl; lia.
    + lia.
    + apply land_3_range.
Qed.

(** C10. On every well-formed decoder (one made by NewDecodeBuf from a
    buffer, or left by earlier reads), BigInt returns, and either the decoder
    error is set and the result is nil, or the result is the big-endian
    unsigned value of the string-bytes just decoded, which is never
    negative although the payload's top bit may be set. *)
Theorem BigInt_is_unsigned_big_endian (d : Decode.DecodeBuf) (H : decoder_wf d) :
  exists r d',
    Decode.BigInt d = Done (r, d')
    /\ ((Decode.err d' <> None /\ r = None)
        \/ (Decode.err d' = None
            /\ exists s, Decode.StringBytes d = Done (s, d')
                         /\ r = Some (be_unsigned s) /\ 0 <= be_unsigned s)).
Proof.
  destruct (StringBytes_returns d H) as (s & d' & E & _).
  unfold Decode.BigInt. rewrite E. cbn [obind].
  unfold Decode.failed. destruct (Decode.err d') as [e|] eqn:Herr.
  - exists None, d'. split; [reflexivity|]. left. rewrite Herr. split; congruence.
  - exists (Some (big_SetBytes (x00 :: s))), d'. split; [reflexivity|]. right.
    split; [assumption|]. exists s. rewrite big_SetBytes_zero_prefix.
    repeat split. apply be_unsigned_nonneg.
Qed.

Lemma NewDecodeBuf_wf (b : list byte) :
  Z.of_nat (length b) < 2^62 -> decoder_wf (Decode.NewDecodeBuf b).
Proof.
  intros H. repeat split; simpl; lia.
Qed.

(** A decoder that failed on a two-byte buffer, read again. *)
Lemma decode_error_is_sticky_witness :
  let m := Decode.mkDecodeBuf [x01; x02] 0 2 (Some "DecodeInt"%string) in
  Decode.err m <> None
  /\ Decode.Long m = Done (0, m)
  /\ Decode.StringBytes m = Done ([], m)
  /\ Decode.Object 1 2 3 (fun _ d => Done (TL_null, d)) (fun _ => None) 1 m
     = Done (TL_null, m).
Proof.
  intros m.
  assert (Hm : Decode.err m <> None) by (subst m; simpl; discriminate).
  pose proof (decode_error_is_sticky 1 2 3 4 5 (fun _ d => Done (TL_null, d))
                                     (fun _ => None) m Hm) as H.
  split; [exact Hm|].
  split; [apply H|]. split; [apply H|]. apply H.
Defined.

(** The payload ff 80 behind its length byte 2 and one byte of padding. *)
Lemma BigInt_is_unsigned_big_endian_witness :
  decoder_wf (Decode.NewDecodeBuf [x02; xff; x80; x00])
  /\ exists r d',
      Decode.BigInt (Decode.NewDecodeBuf [x02; xff; x80; x00]) = Done (r, d')
      /\ ((Decode.err d' <> None /\ r = None)
          \/ (Decode.err d' = None
              /\ exists s, Decode.StringBytes (Decode.NewDecodeBuf [x02; xff; x80; x00])
                           = Done (s, d')
                           /\ r = Some (be_unsigned s) /\ 0 <= be_unsigned s)).
Proof.
  assert (Hwf : decoder_wf (Decode.NewDecodeBuf [x02; xff; x80; x00])).
  { repeat split; simpl; lia. }
  split; [exact Hwf|].
  apply (BigInt_is_unsigned_big_endian _ Hwf).
Defined.

Example BigInt_top_bit_set :
  Decode.BigInt (Decode.NewDecodeBuf [x02; xff; x80; x00])
  = Done (Some 65408, Decode.mkDecodeBuf [x02; xff; x80; x00] 4 4 None).
Proof. reflexivity. Qed.

(** ** The session file *)

Lemma byte_to_of_Z (v : Z) : byte_to_Z (byte_of_Z v) = v mod 256.
Proof.
  unfold byte_to_Z, byte_of_Z.
  assert (Hr : 0 <= v mod 256 < 256) by (apply Z.mod_pos_bound; lia).
  destruct (Byte.of_N (Z.to_N (v mod 256))) as [b|] eqn:E.
  - apply Byte.to_of_N in E. rewrite E. lia.
  - apply Byte.of_N_None_iff in E. lia.
Qed.

Lemma le_uint_le_bytes (n : nat) (v : Z) :
  le_uint (le_bytes n v) = v mod 256 ^ Z.of_nat n.
Proof.
  revert v. induction n as [|k IH]; intros v.
  - simpl. now rewrite Z.mod_1_r.
  - cbn [le_bytes le_uint]. rewrite IH, byte_to_of_Z.
    rewrite Nat2Z.inj_succ, Z.pow_succ_r by lia.
    rewrite Z.rem_mul_r; [reflexivity|lia|].
    apply Z.pow_pos_nonneg; lia.
Qed.

Lemma length_le_bytes (n : nat) (v : Z) : length (le_bytes n v) = n.
Proof.
  revert v. induction n as [|k IH]; intros v; simpl; [reflexivity|].
  now rewrite IH.
Qed.

Lemma wrap_int_of_uint64 (v : Z) : - 2^63 <= v < 2^63 -> wrap_int (v mod 2^64) = v.
Proof.
  intros H. unfold wrap_int.
  change (2^63) with 9223372036854775808 in *.
  change (2^64) with 18446744073709551616.
  Z.div_mod_to_equations. lia.
Qed.

Lemma lor_shiftl_add (a b n : Z) :
  0 <= n -> 0 <= a < 2^n -> 0 <= b -> Z.lor a (Z.shiftl b n) = a + b * 2^n.
Proof.
  intros Hn Ha Hb.
  assert (E : Z.land a (Z.shiftl b n) = 0).
  { apply Z.bits_inj'. intros i Hi.
    rewrite Z.land_spec, Z.bits_0.
    destruct (Z.lt_ge_cases i n) as [Hlt|Hge].
    - rewrite (Z.shiftl_spec_low b n i) by assumption. apply andb_false_r.
    - rewrite <- (Z.mod_small a (2^n)) by assumption.
      now rewrite Z.mod_pow2_bits_high by lia. }
  pose proof (Z.add_lor_land a (Z.shiftl b n)) as H.
  rewrite E, Z.shiftl_mul_pow2 in H by assumption.
  rewrite Z.shiftl_mul_pow2 by assumption. lia.
Qed.

Lemma three_byte_size (n : Z) :
  0 <= n < 2^24 ->
  Z.lor (Z.lor (byte_to_Z (byte_of_Z n)) (Z.shiftl (byte_to_Z (byte_of_Z (n / 256))) 8))
        (Z.shiftl (byte_to_Z (byte_of_Z (n / 256 / 256))) 16) = n.
Proof.
  intros H. rewrite !byte_to_of_Z.
  assert (0 <= n mod 256 < 256) by (apply Z.mod_pos_bound; lia).
  assert (0 <= (n / 256) mod 256 < 256) by (apply Z.mod_pos_bound; lia).
  assert (0 <= (n / 256 / 256) mod 256 < 256) by (apply Z.mod_pos_bound; lia).
  rewrite (lor_shiftl_add (n mod 256) ((n / 256) mod 256) 8) by lia.
  rewrite lor_shiftl_add; [| lia | | lia].
  - change (2^8) with 256. change (2^16) with 65536.
    change (2^24) with 16777216 in H.
    Z.div_mod_to_equations. lia.
  - change (2^8) with 256. change (2^16) with 65536. lia.
Qed.

Lemma decoder_padding (n : Z) :
  0 <= n < 2^24 -> Z.land (wrap_int (4 - Z.rem n 4)) 3 = (4 - n mod 4) mod 4.
Proof.
  intros H. rewrite Z.rem_mod_nonneg by lia.
  assert (0 <= n mod 4 < 4) by (apply Z.mod_pos_bound; lia).
  rewrite wrap_int_small by lia.
  change 3 with (Z.ones 2). rewrite Z.land_ones by lia. reflexivity.
Qed.

Lemma length_padding (n : Z) :
  Z.of_nat (length (Encode.padding n)) = (4 - n mod 4) mod 4.
Proof.
  unfold Encode.padding. rewrite repeat_length.
  assert (0 <= (4 - n mod 4) mod 4 < 4) by (apply Z.mod_pos_bound; lia).
  lia.
Qed.

Lemma slice_middle (pre s rest : list byte) :
  slice (pre ++ s ++ rest) (Z.of_nat (length pre))
        (Z.of_nat (length pre) + Z.of_nat (length s)) = Some s.
Proof.
  rewrite slice_in_range.
  - f_equal. rewrite Nat2Z.id, drop_app_length.
    replace (Z.to_nat _) with (length s) by lia.
    apply take_app_length.
  - lia.
  - rewrite !length_app. lia.
Qed.

Lemma index_middle (pre : list byte) (x : byte) (rest : list byte) :
  index (pre ++ x :: rest) (Z.of_nat (length pre)) = Some x.
Proof.
  unfold index. destruct (Z.ltb_spec (Z.of_nat (length pre)) 0); [lia|].
  rewrite Nat2Z.id. apply list_lookup_middle. reflexivity.
Qed.

Ltac dec_simpl :=
  cbn [Decode.buf Decode.off Decode.size Decode.err Decode.set_off
       Decode.NewDecodeBuf].

Lemma StringBytes_body_decodes (pre s pad rest : list byte) (d : Decode.DecodeBuf) :
  Decode.buf d = pre ++ s ++ pad ++ rest ->
  Decode.off d = Z.of_nat (length pre) ->
  Decode.size d = Z.of_nat (length (Decode.buf d)) ->
  Decode.size d < 2^62 ->
  Decode.StringBytes_body (Z.of_nat (length s)) (Z.of_nat (length pad)) d
  = Done (s, Decode.set_off
               (Z.of_nat (length pre) + Z.of_nat (length s) + Z.of_nat (length pad)) d).
Proof.
  intros Hbuf Hoff Hsize Hlen.
  assert (Htot : Decode.size d
                 = Z.of_nat (length pre) + Z.of_nat (length s)
                   + Z.of_nat (length pad) + Z.of_nat (length rest)).
  { rewrite Hsize, Hbuf, !length_app. lia. }
  unfold Decode.StringBytes_body. rewrite Hoff.
  rewrite int_add_small by lia.
  destruct (Z.gtb_spec (Z.of_nat (length pre) + Z.of_nat (length s)) (Decode.size d));
    [lia|].
  rewrite Hbuf, slice_middle.
  cbn [Decode.off Decode.size Decode.set_off].
  rewrite int_add_small by lia.
  destruct (Z.gtb_spec (Z.of_nat (length pre) + Z.of_nat (length s)
                        + Z.of_nat (length pad)) (Decode.size d)); [lia|].
  reflexivity.
Qed.

(** StringBytes reads back what the encoder framed, wherever it stands in
    the buffer. *)
Lemma StringBytes_decodes (pre s rest : list byte) (d : Decode.DecodeBuf) :
  Decode.buf d = pre ++ Encode.string_bytes s ++ rest ->
  Decode.off d = Z.of_nat (length pre) ->
  Decode.size d = Z.of_nat (length (Decode.buf d)) ->
  Decode.size d < 2^62 ->
  Decode.err d = None ->
  Z.of_nat (length s) < 2^24 ->
  Decode.StringBytes d
  = Done (s, Decode.set_off
               (Z.of_nat (length pre) + Z.of_nat (length (Encode.string_bytes s))) d).
Proof.
  destruct d as [b o sz e]. cbn [Decode.buf Decode.off Decode.size Decode.err].
  intros -> -> Hsize Hlen -> Hs.
  assert (Hfit : Z.of_nat (length pre) + Z.of_nat (length (Encode.string_bytes s))
                 <= sz).
  { rewrite Hsize, !length_app. lia. }
  unfold Decode.StringBytes, Decode.failed.
  cbn [Decode.buf Decode.off Decode.size Decode.err Decode.set_off].
  revert Hsize Hfit. unfold Encode.string_bytes.
  set (n := Z.of_nat (length s)) in *.
  destruct (Z.ltb_spec n 254) as [Hshort|Hlong];
    intros Hsize Hfit; cbn [length] in Hfit.
  - rewrite int_add_small by lia.
    destruct (Z.gtb_spec (Z.of_nat (length pre) + 1) sz); [lia|].
    cbn [app]. rewrite index_middle, byte_to_of_Z.
    rewrite (Z.mod_small n 256) by lia.
    destruct (Z.eqb_spec n 254); [lia|].
    rewrite (int_add_small n 1) by lia.
    rewrite decoder_padding by lia.
    replace ((4 - (n + 1) mod 4) mod 4)
      with (Z.of_nat (length (Encode.padding (1 + n))))
      by (rewrite length_padding; f_equal; f_equal; f_equal; lia).
    subst n.
    rewrite (StringBytes_body_decodes
               (pre ++ [byte_of_Z (Z.of_nat (length s))]) s
               (Encode.padding (1 + Z.of_nat (length s))) rest).
    + do 2 f_equal. unfold Decode.set_off. cbn. f_equal.
      rewrite !length_app. cbn [length]. lia.
    + cbn. rewrite <- !app_assoc. reflexivity.
    + cbn. rewrite length_app. cbn [length]. lia.
    + cbn. assumption.
    + cbn. assumption.
  - rewrite int_add_small by lia.
    destruct (Z.gtb_spec (Z.of_nat (length pre) + 1) sz); [lia|].
    cbn [app le_bytes]. rewrite index_middle.
    change (byte_to_Z "254") with 254. change (254 =? 254) with true. cbv iota.
    rewrite !length_app in Hfit. cbn [length] in Hfit.
    rewrite (int_add_small (Z.of_nat (length pre) + 1) 3) by lia.
    destruct (Z.gtb_spec (Z.of_nat (length pre) + 1 + 3) sz); [lia|].
    rewrite (int_add_small (Z.of_nat (length pre) + 1) 1) by lia.
    rewrite (int_add_small (Z.of_nat (length pre) + 1) 2) by lia.
    set (tail := (s ++ Encode.padding (4 + n)) ++ rest).
    set (whole := pre ++ xfe :: byte_of_Z n :: byte_of_Z (n / 256)
                      :: byte_of_Z (n / 256 / 256) :: tail) in *.
    assert (I1 : index whole (Z.of_nat (length pre) + 1) = Some (byte_of_Z n)).
    { replace whole
        with ((pre ++ [xfe]) ++ byte_of_Z n
                :: (byte_of_Z (n / 256) :: byte_of_Z (n / 256 / 256) :: tail))
        by (subst whole; now rewrite <- app_assoc).
      replace (Z.of_nat (length pre) + 1) with (Z.of_nat (length (pre ++ [xfe])))
        by (rewrite length_app; cbn [length]; lia).
      apply index_middle. }
    assert (I2 : index whole (Z.of_nat (length pre) + 1 + 1)
                 = Some (byte_of_Z (n / 256))).
    { replace whole
        with ((pre ++ [xfe; byte_of_Z n]) ++ byte_of_Z (n / 256)
                :: (byte_of_Z (n / 256 / 256) :: tail))
        by (subst whole; now rewrite <- app_assoc).
      replace (Z.of_nat (length pre) + 1 + 1)
        with (Z.of_nat (length (pre ++ [xfe; byte_of_Z n])))
        by (rewrite length_app; cbn [length]; lia).
      apply index_middle. }
    assert (I3 : index whole (Z.of_nat (length pre) + 1 + 2)
                 = Some (byte_of_Z (n / 256 / 256))).
    { replace whole
        with ((pre ++ [xfe; byte_of_Z n; byte_of_Z (n / 256)])
                ++ byte_of_Z (n / 256 / 256) :: tail)
        by (subst whole; now rewrite <- app_assoc).
      replace (Z.of_nat (length pre) + 1 + 2)
        with (Z.of_nat (length (pre ++ [xfe; byte_of_Z n; byte_of_Z (n / 256)])))
        by (rewrite length_app; cbn [length]; lia).
      apply index_middle. }
    rewrite I1, I2, I3.
    rewrite three_byte_size by lia.
    rewrite decoder_padding by lia.
    replace ((4 - n mod 4) mod 4)
      with (Z.of_nat (length (Encode.padding (4 + n)))).
    2:{ rewrite length_padding. f_equal. f_equal.
        rewrite Z.add_comm, <- (Z.mul_1_l 4) at 1. apply Z.mod_add. lia. }
    subst n.
    rewrite (StringBytes_body_decodes
               (pre ++ [xfe; byte_of_Z (Z.of_nat (length s));
                        byte_of_Z (Z.of_nat (length s) / 256);
                        byte_of_Z (Z.of_nat (length s) / 256 / 256)]) s
               (Encode.padding (4 + Z.of_nat (length s))) rest).
    + do 2 f_equal. unfold Decode.set_off. cbn. f_equal.
      rewrite !length_app. cbn [length]. rewrite ?length_app. lia.
    + cbn. subst whole tail. rewrite <- !app_assoc. reflexivity.
    + cbn. rewrite length_app. cbn [length]. lia.
    + cbn. assumption.
    + cbn. assumption.
Qed.

Lemma Long_decodes (pre : list byte) (v : Z) (rest : list byte) (d : Decode.DecodeBuf) :
  Decode.buf d = pre ++ le_bytes 8 v ++ rest ->
  Decode.off d = Z.of_nat (length pre) ->
  Decode.size d = Z.of_nat (length (Decode.buf d)) ->
  Decode.size d < 2^62 ->
  Decode.err d = None ->
  - 2^63 <= v < 2^63 ->
  Decode.Long d = Done (v, Decode.set_off (Z.of_nat (length pre) + 8) d).
Proof.
  destruct d as [b o sz e]. cbn [Decode.buf Decode.off Decode.size Decode.err].
  intros -> -> Hsize Hlen -> Hv.
  assert (Hfit : Z.of_nat (length pre) + 8 <= sz).
  { rewrite Hsize, !length_app, length_le_bytes. lia. }
  unfold Decode.Long, Decode.fixed, Decode.failed.
  cbn [Decode.buf Decode.off Decode.size Decode.err].
  rewrite int_add_small by lia.
  destruct (Z.gtb_spec (Z.of_nat (length pre) + 8) sz); [lia|].
  replace 8 with (Z.of_nat (length (le_bytes 8 v))) at 1
    by (now rewrite length_le_bytes).
  rewrite slice_middle, le_uint_le_bytes.
  change (256 ^ Z.of_nat 8) with (2^64).
  now rewrite wrap_int_of_uint64.
Qed.

Lemma String_decodes (pre : list byte) (a : string) (rest : list byte)
      (d : Decode.DecodeBuf) :
  Decode.buf d = pre ++ Encode.string_bytes (list_byte_of_string a) ++ rest ->
  Decode.off d = Z.of_nat (length pre) ->
  Decode.size d = Z.of_nat (length (Decode.buf d)) ->
  Decode.size d < 2^62 ->
  Decode.err d = None ->
  Z.of_nat (length (list_byte_of_string a)) < 2^24 ->
  Decode.String d
  = Done (a, Decode.set_off
               (Z.of_nat (length pre)
                + Z.of_nat (length (Encode.string_bytes (list_byte_of_string a)))) d).
Proof.
  intros Hbuf Hoff Hsize Hlen Herr Ha. unfold Decode.String.
  rewrite (StringBytes_decodes pre (list_byte_of_string a) rest d) by assumption.
  cbn [obind]. unfold Decode.failed. cbn [Decode.err Decode.set_off].
  rewrite Herr. now rewrite string_of_list_byte_of_string.
Qed.

Lemma length_string_bytes (s : list byte) :
  (length s < length (Encode.string_bytes s))%nat.
Proof.
  unfold Encode.string_bytes.
  destruct (Z.of_nat (length s) <? 254); cbn [length]; rewrite !length_app; lia.
Qed.

(** The layout of the session file: the key, its hash and the address in
    string-bytes framing, the salt as eight little-endian bytes. *)
Lemma encode_session_layout (sess : SessionInfo) :
  SessFileStore.encode_session sess
  = Encode.string_bytes (AuthKey sess) ++ Encode.string_bytes (AuthKeyHash sess)
    ++ le_bytes 8 (ServerSalt sess)
    ++ Encode.string_bytes (list_byte_of_string (Addr sess)).
Proof.
  unfold SessFileStore.encode_session, Encode.String, Encode.StringBytes, Encode.Long.
  cbn [Encode.buf Encode.NewEncodeBuf]. now rewrite !app_nil_l, <- !app_assoc.
Qed.

(** C6, as amended. The session file holds, in this order, auth_key and
    auth_key_hash in string-bytes framing, server_salt as eight little-endian
    bytes without a length prefix, and the address in string-bytes framing;
    and for a session whose file is at most 4096 bytes long (the size of the
    buffer Load reads into) and whose salt is an int64, Load after Save
    returns without error with auth_key, auth_key_hash, server_salt and
    address restored. *)
Theorem session_file_round_trip
        (FPath : string) (sess sess0 : SessionInfo) (fs : SessFileStore.files)
        (Hfits : Z.of_nat (length (SessFileStore.encode_session sess)) <= 4096)
        (Hsalt : - 2^63 <= ServerSalt sess < 2^63) :
  SessFileStore.encode_session sess
  = Encode.string_bytes (AuthKey sess) ++ Encode.string_bytes (AuthKeyHash sess)
    ++ le_bytes 8 (ServerSalt sess)
    ++ Encode.string_bytes (list_byte_of_string (Addr sess))
  /\ exists fs',
      SessFileStore.Save FPath sess fs = Done (fs', None)
      /\ fs' !! FPath = Some (SessFileStore.encode_session sess)
      /\ SessFileStore.Load FPath sess0 fs'
         = Done (fs',
                 mkSessionInfo (DcID sess0) (AuthKey sess) (AuthKeyHash sess)
                               (ServerSalt sess) (Addr sess) (sessionId sess0),
                 None).
Proof.
  split; [apply encode_session_layout|].
  exists (<[FPath := SessFileStore.encode_session sess]> fs).
  split; [reflexivity|]. split; [apply lookup_insert_eq|].
  unfold SessFileStore.Load. rewrite lookup_insert_eq.
  rewrite encode_session_layout in *.
  set (k := Encode.string_bytes (AuthKey sess)) in *.
  set (h := Encode.string_bytes (AuthKeyHash sess)) in *.
  set (a := Encode.string_bytes (list_byte_of_string (Addr sess))) in *.
  set (l := le_bytes 8 (ServerSalt sess)) in *.
  pose proof (length_string_bytes (AuthKey sess)) as Lk.
  pose proof (length_string_bytes (AuthKeyHash sess)) as Lh.
  pose proof (length_string_bytes (list_byte_of_string (Addr sess))) as La.
  fold k in Lk. fold h in Lh. fold a in La.
  rewrite !length_app in Hfits.
  assert (Ll : length l = 8%nat) by apply length_le_bytes.
  unfold SessFileStore.read_4096.
  destruct (k ++ h ++ l ++ a) as [|x0 xs] eqn:Hfile.
  { apply (f_equal (@length byte)) in Hfile. rewrite !length_app in Hfile.
    cbn [length] in Hfile. lia. }
  rewrite <- Hfile. clear x0 xs Hfile.
  rewrite take_ge by (rewrite !length_app; lia).
  set (z := repeat x00 (4096 - length (k ++ h ++ l ++ a))).
  set (b := (k ++ h ++ l ++ a) ++ z).
  assert (Hb : Z.of_nat (length b) = 4096).
  { subst b z. rewrite length_app, repeat_length, !length_app. lia. }
  rewrite (StringBytes_decodes [] (AuthKey sess) (h ++ l ++ a ++ z));
    [ | subst b; dec_simpl; now rewrite <- !app_assoc | reflexivity | reflexivity
      | dec_simpl; lia | reflexivity | lia ].
  cbn [obind]. fold k.
  rewrite (StringBytes_decodes k (AuthKeyHash sess) (l ++ a ++ z));
    [ | subst b; dec_simpl; now rewrite <- !app_assoc | dec_simpl; cbn [length]; lia
      | reflexivity | dec_simpl; lia | reflexivity | lia ].
  cbn [obind]. fold h.
  rewrite (Long_decodes (k ++ h) (ServerSalt sess) (a ++ z));
    [ | subst b; dec_simpl; now rewrite <- !app_assoc
      | dec_simpl; rewrite length_app; lia
      | reflexivity | dec_simpl; lia | reflexivity | assumption ].
  cbn [obind].
  rewrite (String_decodes ((k ++ h) ++ l) (Addr sess) z);
    [ | subst b; dec_simpl; now rewrite <- !app_assoc
      | dec_simpl; rewrite !length_app; lia
      | reflexivity | dec_simpl; lia | reflexivity | lia ].
  cbn [obind]. reflexivity.
Qed.

(** A session with a 256-byte key, an 8-byte hash and a short address. *)
Lemma session_file_round_trip_witness :
  let sess := mkSessionInfo 2 (repeat x2a 256) (repeat x07 8) (-5)
                            "149.154.167.50:443" 11 in
  let sess0 := mkSessionInfo 0 [] [] 0 "" 77 in
  Z.of_nat (length (SessFileStore.encode_session sess)) <= 4096
  /\ - 2^63 <= ServerSalt sess < 2^63
  /\ exists fs',
      SessFileStore.Save "tg.session" sess ∅ = Done (fs', None)
      /\ fs' !! "tg.session"%string = Some (SessFileStore.encode_session sess)
      /\ SessFileStore.Load "tg.session" sess0 fs'
         = Done (fs',
                 mkSessionInfo 0 (repeat x2a 256) (repeat x07 8) (-5)
                               "149.154.167.50:443" 77,
                 None).
Proof.
  intros sess sess0.
  assert (H1 : Z.of_nat (length (SessFileStore.encode_session sess)) <= 4096).
  { vm_compute. discriminate. }
  assert (H2 : - 2^63 <= ServerSalt sess < 2^63).
  { subst sess. cbn [ServerSalt]. lia. }
  split; [exact H1|]. split; [exact H2|].
  exact (proj2 (session_file_round_trip "tg.session" sess sess0 ∅ H1 H2)).
Defined.

(** C6 as it is stated does not hold.  The salt is not in string-bytes
    framing: it takes eight bytes of the file, not twelve.  And a session
    whose file is longer than 4096 bytes is not restored: with a 4096-byte
    key, Load after Save reports a decoding error and yields an empty key. *)
Lemma session_file_claim_fails :
  SessFileStore.encode_session (mkSessionInfo 2 [] [] 1 "" 0)
  <> spec_session_file (mkSessionInfo 2 [] [] 1 "" 0)
  /\ let sess := mkSessionInfo 2 (repeat x2a 4096) (repeat x07 8) 1 "a:1" 0 in
     let fs' := <["tg.session"%string := SessFileStore.encode_session sess]>
                  (∅ : gmap string (list byte)) in
     SessFileStore.Save "tg.session" sess ∅ = Done (fs', None)
     /\ SessFileStore.Load "tg.session" (mkSessionInfo 0 [] [] 0 "" 0) fs'
        = Done (fs', mkSessionInfo 0 [] [] 0 "" 0,
                Some (Err "DecodeStringBytes: Wrong size")).
Proof.
  split.
  - vm_compute. discriminate.
  - intros sess fs'. split; [reflexivity|].
    unfold SessFileStore.Load. subst fs'. rewrite lookup_insert_eq.
    set (fs' := <[_ := _]> _). clearbody fs'.
    vm_compute. reflexivity.
Qed.

(** ** The dispatcher *)

Lemma land_1_odd (x : Z) : (Z.land x 1 =? 1) = Z.odd x.
Proof.
  change 1 with (Z.ones 1) at 1. rewrite Z.land_ones by lia.
  change (2 ^ 1) with 2. rewrite <- Z.bit0_mod, Z.bit0_odd.
  now destruct (Z.odd x).
Qed.

Section DispatcherFacts.

Context {St : Type} {sessionStore : SessionStore St}.
Variable range_order : gmap Z ptr -> list (Z * ptr).

Implicit Types m : @MTProto St.

(** A state that differs from a well-formed one outside the table and the
    heaps is well-formed if it has a session. *)
Lemma state_wf_frame m m' :
  state_wf m -> is_Some (session m') ->
  msgsByID m' = msgsByID m -> packets m' = packets m -> chans m' = chans m ->
  state_wf m'.
Proof.
  intros [Hs Ht Hr Ho H1] Hs' Et Ep Ec.
  split; rewrite ?Et, ?Ep, ?Ec; assumption.
Qed.

Lemma state_wf_delete m id :
  state_wf m -> state_wf (set_msgsByID (delete id (msgsByID m)) m).
Proof.
  intros [Hs Ht Hr Ho H1]. split; cbn; try assumption.
  intros id' p Hl. apply lookup_delete_Some in Hl as [_ Hl]. eauto.
Qed.

(** Completing the packet at [p], whose channel is [c], keeps the state
    well-formed. *)
Lemma state_wf_complete m p pk c ch v :
  state_wf m -> packets m !! p = Some pk -> resp pk = Some c ->
  chans m !! c = Some ch -> items ch = [] ->
  state_wf (set_packets (<[p := clear_resp pk]> (packets m))
              (set_chans (<[c := mkChannel [v] (capacity ch) true]> (chans m)) m)).
Proof.
  intros [Hs Ht Hr Ho H1] Hp Hc Hch Hitems. split; cbn.
  - assumption.
  - intros id q Hq. destruct (decide (p = q)) as [->|Hne].
    + rewrite lookup_insert_eq. eauto.
    + rewrite lookup_insert_ne by assumption. eauto.
  - intros q qk c' Hq Hc'. destruct (decide (p = q)) as [->|Hne].
    + rewrite lookup_insert_eq in Hq. injection Hq as <-. discriminate.
    + rewrite lookup_insert_ne in Hq by assumption.
      assert (c <> c') as Hcc.
      { intros <-. apply Hne. eapply Ho; eassumption. }
      rewrite lookup_insert_ne by assumption. eauto.
  - intros q1 q2 k1 k2 c' Hq1 Hq2 Hc1 Hc2.
    destruct (decide (p = q1)) as [->|Hne1].
    { rewrite lookup_insert_eq in Hq1. injection Hq1 as <-. discriminate. }
    destruct (decide (p = q2)) as [->|Hne2].
    { rewrite lookup_insert_eq in Hq2. injection Hq2 as <-. discriminate. }
    rewrite lookup_insert_ne in Hq1, Hq2 by assumption. eauto.
  - intros c' ch' Hc'. destruct (decide (c = c')) as [->|Hne].
    + rewrite lookup_insert_eq in Hc'. injection Hc' as <-. cbn. lia.
    + rewrite lookup_insert_ne in Hc' by assumption. eauto.
Qed.

(** C3. In a well-formed state clearPacketData returns and leaves the state
    well-formed, so that no channel ever holds more than one response.  If
    the id is not in the table nothing changes.  If it is there the entry is
    removed, and: a packet whose response channel is nil gets a warning in
    the log and the response is dropped; a packet with a live channel has
    exactly the response sent on it, the channel closed, and its response
    field set to nil, which makes any later completion of the same packet
    take the first branch. *)
Theorem clearPacketData_completes_once m (id : Z) (response : TL)
        (Hwf : state_wf m) :
  exists m',
    clearPacketData id response m = Done m'
    /\ state_wf m'
    /\ match msgsByID m !! id with
       | None => m' = m
       | Some p =>
         msgsByID m' = delete id (msgsByID m)
         /\ sendQueue m' = sendQueue m
         /\ exists pk,
             packets m !! p = Some pk
             /\ match resp pk with
                | None =>
                  chans m' = chans m /\ packets m' = packets m
                  /\ log m' = log m ++ [(LWarn, "second response to message #%d %#v"%string)]
                | Some c =>
                  exists ch,
                  chans m !! c = Some ch
                  /\ chans m' = <[c := mkChannel [response] (capacity ch) true]> (chans m)
                  /\ packets m' = <[p := clear_resp pk]> (packets m)
                  /\ log m' = log m
                end
       end.
Proof.
  unfold clearPacketData.
  destruct (msgsByID m !! id) as [p|] eqn:Hid.
  2:{ exists m. repeat split; apply Hwf. }
  destruct (wf_table m Hwf id p Hid) as [pk Hpk]. rewrite Hpk.
  destruct (resp pk) as [c|] eqn:Hc.
  - destruct (wf_resp m Hwf p pk c Hpk Hc) as (ch & Hch & Hopen & Hitems & Hcap).
    unfold chan_send. rewrite Hch, Hopen, Hitems.
    destruct (Nat.ltb_spec (length (@nil TL)) (capacity ch)) as [_|Hbad];
      [|cbn in Hbad; lia].
    cbn [obind]. unfold chan_close. cbn [chans set_chans]. rewrite lookup_insert_eq.
    cbn [closed obind items capacity app]. rewrite insert_insert_eq.
    eexists. split; [reflexivity|]. split.
    + apply state_wf_delete.
      now apply (state_wf_complete m p pk c ch response).
    + cbn. repeat split. exists pk. split; [reflexivity|]. rewrite Hc.
      exists ch. repeat split. assumption.
  - cbn [obind]. eexists. split; [reflexivity|]. split.
    + apply state_wf_delete. eapply state_wf_frame; try eassumption; try reflexivity.
      apply Hwf.
    + cbn. repeat split. exists pk. split; [reflexivity|]. rewrite Hc.
      repeat split.
Qed.

Lemma fresh_not_allocated m p pk :
  packets m !! p = Some pk -> fresh (dom (packets m)) <> p.
Proof.
  intros Hp E. pose proof (is_fresh (dom (packets m))) as Hf.
  apply Hf. rewrite E. apply elem_of_dom. eauto.
Qed.

(** The loop of popPendingPacketsUnlocked: every visited id is deleted and
    every visited packet collected. *)
Lemma pop_loop (l : list (Z * ptr)) (tbl : gmap Z ptr) (ps : list ptr) :
  foldl (fun '(tbl, ps) '(id, packet) => (delete id tbl, ps ++ [packet])) (tbl, ps) l
  = (foldl (fun t x => delete x.1 t) tbl l, ps ++ l.*2).
Proof.
  revert tbl ps. induction l as [|[id p] l IH]; intros tbl ps; cbn [foldl].
  - now rewrite app_nil_r.
  - rewrite IH. cbn. now rewrite <- app_assoc.
Qed.

Lemma lookup_delete_all (l : list (Z * ptr)) (tbl : gmap Z ptr) (k : Z) :
  foldl (fun t x => delete x.1 t) tbl l !! k
  = if decide (k ∈ l.*1) then None else tbl !! k.
Proof.
  revert tbl. induction l as [|[id p] l IH]; intros tbl; cbn [foldl fmap list_fmap].
  - destruct (decide (k ∈ [])) as [H|_]; [|reflexivity]. now apply elem_of_nil in H.
  - rewrite IH. cbn [fst].
    destruct (decide (k ∈ l.*1)) as [Hin|Hout].
    + rewrite decide_True by (now apply elem_of_cons; right). reflexivity.
    + destruct (decide (k = id)) as [->|Hne].
      * rewrite decide_True by (apply elem_of_cons; now left).
        apply lookup_delete_eq.
      * rewrite decide_False by (rewrite elem_of_cons; tauto).
        now apply lookup_delete_ne.
Qed.

Lemma pop_empties (tbl : gmap Z ptr) :
  range_order tbl ≡ₚ map_to_list tbl ->
  foldl (fun t x => delete x.1 t) tbl (range_order tbl) = ∅.
Proof.
  intros Hperm. apply map_eq. intros k.
  rewrite lookup_delete_all, lookup_empty.
  destruct (decide (k ∈ (range_order tbl).*1)) as [_|Hout]; [reflexivity|].
  destruct (tbl !! k) as [p|] eqn:E; [|reflexivity].
  exfalso. apply Hout. apply list_elem_of_fmap. exists (k, p). split; [reflexivity|].
  rewrite Hperm. now apply elem_of_map_to_list.
Qed.

Lemma length_range_order (tbl : gmap Z ptr) :
  range_order tbl ≡ₚ map_to_list tbl -> length (range_order tbl) = size tbl.
Proof. intros ->. apply length_map_to_list. Qed.

Lemma enqueue_room (p : ptr) m :
  (length (sendQueue m) < sendQueue_cap)%nat ->
  enqueue p m = Done (set_sendQueue (sendQueue m ++ [p]) m).
Proof.
  intros H. unfold enqueue.
  destruct (Nat.ltb_spec (length (sendQueue m)) sendQueue_cap); [reflexivity|lia].
Qed.

Lemma enqueue_full (p : ptr) m :
  (sendQueue_cap <= length (sendQueue m))%nat -> enqueue p m = Blocked.
Proof.
  intros H. unfold enqueue.
  destruct (Nat.ltb_spec (length (sendQueue m)) sendQueue_cap); [lia|reflexivity].
Qed.

Lemma enqueue_new_room (t : TL) (r : option chan_id) m :
  (length (sendQueue m) < sendQueue_cap)%nat ->
  enqueue_new t r m
  = Done (set_sendQueue (sendQueue m ++ [fresh (dom (packets m))])
            (set_packets (<[fresh (dom (packets m)) := newPacket t r]> (packets m)) m)).
Proof. intros H. unfold enqueue_new, alloc. now rewrite enqueue_room. Qed.

Lemma enqueue_new_full (t : TL) (r : option chan_id) m :
  (sendQueue_cap <= length (sendQueue m))%nat -> enqueue_new t r m = Blocked.
Proof. intros H. unfold enqueue_new, alloc. now rewrite enqueue_full. Qed.

Lemma push_loop_waits (ps : list ptr) (r : outcome (@MTProto St)) :
  (forall m, r <> Done m) ->
  forall m, foldl (fun r p => let* m := r in enqueue p m) r ps <> Done m.
Proof.
  revert r. induction ps as [|p ps IH]; intros r Hr; cbn [foldl]; [exact Hr|].
  apply IH. intros m. destruct r as [m0| | |]; cbn [obind]; try discriminate.
  exfalso. now apply (Hr m0).
Qed.

(** The sends of pushPendingPacketsUnlocked go through when the queue has
    room for all of them. *)
Lemma push_loop (ps : list ptr) m :
  (length (sendQueue m) + length ps <= sendQueue_cap)%nat ->
  foldl (fun r p => let* m := r in enqueue p m) (Done m) ps
  = Done (set_sendQueue (sendQueue m ++ ps) m).
Proof.
  revert m. induction ps as [|p ps IH]; intros m Hroom; cbn [foldl obind].
  - rewrite app_nil_r. now destruct m.
  - cbn [length] in Hroom. rewrite enqueue_room by lia.
    rewrite IH by (cbn; rewrite length_app; cbn; lia).
    cbn. now rewrite <- app_assoc.
Qed.

(** And when they have gone through, that is all they did. *)
Lemma push_loop_done (ps : list ptr) m m' :
  foldl (fun r p => let* m := r in enqueue p m) (Done m) ps = Done m' ->
  m' = set_sendQueue (sendQueue m ++ ps) m.
Proof.
  revert m. induction ps as [|p ps IH]; intros m; cbn [foldl obind].
  - intros [= <-]. rewrite app_nil_r. now destruct m.
  - unfold enqueue.
    destruct (length (sendQueue m) <? sendQueue_cap)%nat.
    + intros H. rewrite (IH _ H). cbn. now rewrite <- app_assoc.
    + intros H. exfalso. revert H. apply push_loop_waits. discriminate.
Qed.

(** What resendPendingPackets does when it returns, in one equation. *)
Lemma resendPendingPackets_done m m' :
  resendPendingPackets range_order m = Done m' ->
  m' = logf LDebug "pushed %d pending packet(s)"
         (set_sendQueue (sendQueue m ++ (range_order (msgsByID m)).*2)
            (logf LDebug "popped %d pending packet(s): %#v"
               (set_msgsByID
                  (foldl (fun t x => delete x.1 t) (msgsByID m) (range_order (msgsByID m)))
                  m))).
Proof.
  unfold resendPendingPackets, popPendingPacketsUnlocked, pushPendingPacketsUnlocked.
  rewrite pop_loop. cbn [app].
  match goal with
  | |- obind ?r _ = _ -> _ => destruct r as [m1| | |] eqn:E; try discriminate
  end.
  cbn [obind]. intros [= <-]. now rewrite (push_loop_done _ _ _ E).
Qed.

(** With room in the queue for every pending packet it does return. *)
Lemma resendPendingPackets_eq m :
  range_order (msgsByID m) ≡ₚ map_to_list (msgsByID m) ->
  (length (sendQueue m) + size (msgsByID m) <= sendQueue_cap)%nat ->
  resendPendingPackets range_order m
  = Done (logf LDebug "pushed %d pending packet(s)"
            (set_sendQueue (sendQueue m ++ (range_order (msgsByID m)).*2)
               (logf LDebug "popped %d pending packet(s): %#v"
                  (set_msgsByID
                     (foldl (fun t x => delete x.1 t) (msgsByID m)
                            (range_order (msgsByID m)))
                     m)))).
Proof.
  intros Hperm Hroom.
  unfold resendPendingPackets, popPendingPacketsUnlocked, pushPendingPacketsUnlocked.
  rewrite pop_loop. cbn [app].
  rewrite push_loop; [reflexivity|].
  cbn. rewrite length_fmap, (length_range_order _ Hperm). exact Hroom.
Qed.

(** C2. Processing a bad_server_salt, when the internal queue has room for
    the pending packets (and for the acknowledgement, if the seq_no is odd),
    returns, and afterwards: the session is the old one with only its server
    salt replaced by the new salt; the store has saved that session; the
    pending table is empty; and every packet that was in the table has been
    appended to the internal queue, once each, in the order the runtime
    ranged over the table (followed by the acknowledgement of the
    notification itself if its seq_no is odd).  The heaps of packets and
    channels are otherwise untouched. *)
Theorem bad_server_salt_resends m (salt : Z) (others : list byte) (msgId seqNo : Z)
        (may : bool) (s : SessionInfo) (st' : St) (e : option error)
        (Hperm : forall t, range_order t ≡ₚ map_to_list t)
        (Hs : session m = Some s)
        (Hsave : Save (mkSessionInfo (DcID s) (AuthKey s) (AuthKeyHash s) salt
                                     (Addr s) (sessionId s))
                      (store_state m) = Done (st', e))
        (Hroom : (length (sendQueue m) + size (msgsByID m)
                  + (if Z.odd seqNo then 1 else 0) <= sendQueue_cap)%nat) :
  exists m',
    process range_order (TL_bad_server_salt salt others) msgId seqNo may m
    = Done m'
    /\ session m' = Some (mkSessionInfo (DcID s) (AuthKey s) (AuthKeyHash s) salt
                                        (Addr s) (sessionId s))
    /\ store_state m' = st'
    /\ msgsByID m' = ∅
    /\ chans m' = chans m
    /\ (forall p pk, packets m !! p = Some pk -> packets m' !! p = Some pk)
    /\ exists ps,
        ps ≡ₚ (map_to_list (msgsByID m)).*2
        /\ sendQueue m'
           = sendQueue m ++ ps
             ++ (if Z.odd seqNo then [fresh (dom (packets m))] else []).
Proof.
  cbn [process]. rewrite Hs. unfold SaveSessionLogged.
  cbn [session set_session store_state].
  change (set_ServerSalt salt s)
    with (mkSessionInfo (DcID s) (AuthKey s) (AuthKeyHash s) salt (Addr s) (sessionId s)).
  rewrite Hsave. cbn [obind].
  rewrite land_1_odd.
  assert (Hps : (range_order (msgsByID m)).*2 ≡ₚ (map_to_list (msgsByID m)).*2).
  { now rewrite Hperm. }
  assert (Hlen : length (range_order (msgsByID m)).*2 = size (msgsByID m)).
  { rewrite length_fmap. apply length_range_order, Hperm. }
  destruct e as [err|]; cbn [obind];
    (rewrite resendPendingPackets_eq;
     [|apply Hperm
      |cbn [msgsByID sendQueue set_log set_store_state logf set_session]; lia]);
    cbn [obind msgsByID sendQueue set_log set_store_state logf set_session];
    rewrite pop_empties by apply Hperm.
  all: destruct (Z.odd seqNo);
    [rewrite enqueue_new_room by (cbn; rewrite length_app, Hlen; lia)|];
    eexists; (split; [reflexivity|]);
    cbn; repeat split; try reflexivity.
  all: try (intros p pk Hp;
            first [ exact Hp
                  | rewrite lookup_insert_ne; [exact Hp|];
                    now apply (fresh_not_allocated m p pk) ]).
  all: exists ((range_order (msgsByID m)).*2); split; [exact Hps|];
    now rewrite ?app_nil_r, <- ?app_assoc.
Qed.

(** *** Acknowledgements from the server *)

Lemma ack_rel_shrinks ids m m' id p :
  state_wf m -> ack_rel ids m m' ->
  msgsByID m' !! id = Some p -> msgsByID m !! id = Some p.
Proof.
  intros Hwf R H.
  destruct (msgsByID m !! id) as [q|] eqn:E.
  2:{ rewrite (ack_absent _ _ _ R id E) in H. discriminate. }
  destruct (decide (id ∈ ids)) as [Hin|Hout].
  - destruct (wf_table m Hwf id q E) as [pk Hpk].
    rewrite (ack_entry _ _ _ R id q pk Hin E Hpk) in H.
    destruct (resp pk); congruence.
  - rewrite (ack_other _ _ _ R id Hout), E in H. exact H.
Qed.

Lemma state_wf_needAck m p pk :
  state_wf m -> packets m !! p = Some pk ->
  state_wf (set_packets (<[p := clear_needAck pk]> (packets m)) m).
Proof.
  intros [Hs Ht Hr Ho H1] Hp. split; cbn; try assumption.
  - intros id q Hq. destruct (decide (p = q)) as [->|Hne].
    + rewrite lookup_insert_eq. eauto.
    + rewrite lookup_insert_ne by assumption. eauto.
  - intros q qk c Hq Hc. destruct (decide (p = q)) as [->|Hne].
    + rewrite lookup_insert_eq in Hq. injection Hq as <-. eauto.
    + rewrite lookup_insert_ne in Hq by assumption. eauto.
  - intros q1 q2 k1 k2 c Hq1 Hq2 Hc1 Hc2.
    assert (forall q k, <[p := clear_needAck pk]> (packets m) !! q = Some k ->
                        exists k0, packets m !! q = Some k0 /\ resp k0 = resp k) as Hold.
    { intros q k Hq. destruct (decide (p = q)) as [->|Hne].
      - rewrite lookup_insert_eq in Hq. injection Hq as <-. eauto.
      - rewrite lookup_insert_ne in Hq by assumption. eauto. }
    destruct (Hold _ _ Hq1) as (k1' & Hk1 & E1).
    destruct (Hold _ _ Hq2) as (k2' & Hk2 & E2).
    apply (Ho q1 q2 k1' k2' c); congruence.
Qed.

Lemma ack_one_rel m id :
  state_wf m ->
  exists m', ack_one id m = Done m' /\ state_wf m' /\ ack_rel [id] m m'.
Proof.
  intros Hwf. unfold ack_one.
  destruct (msgsByID m !! id) as [p|] eqn:Hid.
  2:{ exists m. split; [reflexivity|]. split; [assumption|].
      split.
      - now destruct m.
      - reflexivity.
      - tauto.
      - intros i q qk Hi Hiq. apply list_elem_of_singleton in Hi. congruence.
      - intros q pk Hq [i [Hi Hiq]]. apply list_elem_of_singleton in Hi. congruence.
      - tauto.
      - tauto. }
  destruct (wf_table m Hwf id p Hid) as [pk Hpk]. rewrite Hpk.
  cbn [resp clear_needAck].
  assert (Hheap : forall q qk, packets m !! q = Some qk ->
            <[p := clear_needAck pk]> (packets m) !! q
            = Some (if decide (p = q) then clear_needAck qk else qk)).
  { intros q qk Hq. destruct (decide (p = q)) as [->|Hne].
    - rewrite lookup_insert_eq. congruence.
    - now rewrite lookup_insert_ne. }
  assert (Htbl : forall q, (exists i, i ∈ [id] /\ msgsByID m !! i = Some q) <-> p = q).
  { intros q. split.
    - intros [i [Hi Hiq]]. apply list_elem_of_singleton in Hi. congruence.
    - intros <-. exists id. split; [apply list_elem_of_singleton; reflexivity|assumption]. }
  destruct (resp pk) as [c|] eqn:Hc; eexists; (split; [reflexivity|]); split.
  - now apply state_wf_needAck.
  - split; cbn.
    + reflexivity.
    + reflexivity.
    + tauto.
    + intros i q qk Hi Hiq Hq. apply list_elem_of_singleton in Hi. subst i.
      assert (q = p) by congruence. subst q.
      assert (qk = pk) by congruence. subst qk. now rewrite Hc.
    + intros q qk Hq Hex. apply Htbl in Hex. subst q.
      rewrite (Hheap _ _ Hq). now rewrite decide_True.
    + intros q qk Hq Hno. rewrite (Hheap _ _ Hq). rewrite decide_False; [reflexivity|].
      intros <-. apply (Hno id); [apply list_elem_of_singleton; reflexivity|assumption].
    + intros q Hq. rewrite lookup_insert_ne; [assumption|]. congruence.
  - apply state_wf_delete. now apply state_wf_needAck.
  - split; cbn.
    + reflexivity.
    + intros i Hi. apply lookup_delete_ne. intros <-. apply Hi.
      apply list_elem_of_singleton. reflexivity.
    + intros i Hi. destruct (decide (id = i)) as [->|Hne].
      * apply lookup_delete_eq.
      * now rewrite lookup_delete_ne.
    + intros i q qk Hi Hiq Hq. apply list_elem_of_singleton in Hi. subst i.
      assert (q = p) by congruence. subst q.
      assert (qk = pk) by congruence. subst qk. rewrite Hc. apply lookup_delete_eq.
    + intros q qk Hq Hex. apply Htbl in Hex. subst q.
      rewrite (Hheap _ _ Hq). now rewrite decide_True.
    + intros q qk Hq Hno. rewrite (Hheap _ _ Hq). rewrite decide_False; [reflexivity|].
      intros <-. apply (Hno id); [apply list_elem_of_singleton; reflexivity|assumption].
    + intros q Hq. rewrite lookup_insert_ne; [assumption|]. congruence.
Qed.

Lemma ack_rel_trans id ids m m1 m2 :
  state_wf m -> ack_rel [id] m m1 -> ack_rel ids m1 m2 -> ack_rel (id :: ids) m m2.
Proof.
  intros Hwf R1 R2.
  assert (Hheap1 : forall p pk, packets m !! p = Some pk ->
            exists pk1, packets m1 !! p = Some pk1 /\ resp pk1 = resp pk
                        /\ clear_needAck pk1 = clear_needAck pk
                        /\ (msgsByID m !! id <> Some p -> pk1 = pk)
                        /\ (msgsByID m !! id = Some p -> pk1 = clear_needAck pk)).
  { intros p pk Hp. destruct (decide (msgsByID m !! id = Some p)) as [Hy|Hn].
    - exists (clear_needAck pk). split.
      + apply (ack_cleared _ _ _ R1 p pk Hp). exists id.
        split; [apply list_elem_of_singleton; reflexivity|assumption].
      + repeat split; tauto.
    - exists pk. split.
      + apply (ack_kept _ _ _ R1 p pk Hp). intros i Hi.
        apply list_elem_of_singleton in Hi. now subst i.
      + repeat split; tauto. }
  split.
  - etransitivity; [|exact (ack_frame _ _ _ R2)].
    rewrite <- (ack_frame _ _ _ R1). now destruct m.
  - intros i Hi. rewrite not_elem_of_cons in Hi. destruct Hi as [Hne Hi].
    rewrite (ack_other _ _ _ R2 i Hi). apply (ack_other _ _ _ R1).
    rewrite list_elem_of_singleton. assumption.
  - intros i Hi. apply (ack_absent _ _ _ R2). now apply (ack_absent _ _ _ R1).
  - intros i p pk Hi Hip Hp.
    destruct (Hheap1 p pk Hp) as (pk1 & Hp1 & Hresp & _).
    destruct (decide (i ∈ ids)) as [Hin|Hout].
    + destruct (msgsByID m1 !! i) as [q|] eqn:E1.
      * assert (q = p) as ->.
        { pose proof (ack_rel_shrinks _ _ _ _ _ Hwf R1 E1). congruence. }
        rewrite (ack_entry _ _ _ R2 i p pk1 Hin E1 Hp1). now rewrite Hresp.
      * rewrite (ack_absent _ _ _ R2 i E1).
        destruct (decide (i = id)) as [->|Hne].
        -- rewrite (ack_entry _ _ _ R1 id p pk) in E1;
             [| apply list_elem_of_singleton; reflexivity | assumption | assumption].
           now destruct (resp pk).
        -- rewrite (ack_other _ _ _ R1 i) in E1 by (now rewrite list_elem_of_singleton).
           congruence.
    + apply elem_of_cons in Hi as [->|Hi]; [|contradiction].
      rewrite (ack_other _ _ _ R2 id Hout).
      apply (ack_entry _ _ _ R1 id p pk);
        [apply list_elem_of_singleton; reflexivity | assumption | assumption].
  - intros p pk Hp (i & Hi & Hip).
    destruct (Hheap1 p pk Hp) as (pk1 & Hp1 & _ & Hclr & _ & Hyes).
    destruct (decide (Exists (fun j => msgsByID m1 !! j = Some p) ids)) as [Hex|Hno].
    + rewrite <- Hclr. apply (ack_cleared _ _ _ R2 p pk1 Hp1).
      apply Exists_exists in Hex. exact Hex.
    + rewrite <- Hyes.
      * apply (ack_kept _ _ _ R2 p pk1 Hp1). intros j Hj Hjp. apply Hno.
        apply Exists_exists. eauto.
      * apply elem_of_cons in Hi as [->|Hi]; [assumption|].
        destruct (decide (i = id)) as [->|Hne]; [assumption|].
        exfalso. apply Hno. apply Exists_exists. exists i. split; [assumption|].
        rewrite (ack_other _ _ _ R1 i) by (now rewrite list_elem_of_singleton).
        assumption.
  - intros p pk Hp Hno.
    destruct (Hheap1 p pk Hp) as (pk1 & Hp1 & _ & _ & Hsame & _).
    assert (pk1 = pk) as -> by (apply Hsame, Hno, elem_of_cons; now left).
    apply (ack_kept _ _ _ R2 p pk Hp1). intros j Hj Hjp.
    apply (Hno j); [apply elem_of_cons; now right|].
    eapply ack_rel_shrinks; eassumption.
  - intros p Hp. apply (ack_no_alloc _ _ _ R2). now apply (ack_no_alloc _ _ _ R1).
Qed.

Lemma ack_all_rel ids m :
  state_wf m ->
  exists m', ack_all ids m = Done m' /\ state_wf m' /\ ack_rel ids m m'.
Proof.
  revert m. induction ids as [|id ids IH]; intros m Hwf; cbn [ack_all].
  - exists m. split; [reflexivity|]. split; [assumption|]. split.
    + now destruct m.
    + reflexivity.
    + tauto.
    + intros i q qk Hi. now apply elem_of_nil in Hi.
    + intros q pk Hq [i [Hi _]]. now apply elem_of_nil in Hi.
    + tauto.
    + tauto.
  - destruct (ack_one_rel m id Hwf) as (m1 & E1 & Hwf1 & R1). rewrite E1. cbn [obind].
    destruct (IH m1 Hwf1) as (m2 & E2 & Hwf2 & R2).
    exists m2. split; [assumption|]. split; [assumption|].
    now apply (ack_rel_trans id ids m m1 m2).
Qed.

(** C4. Processing a msgs_ack in a well-formed state (with room in the
    internal queue for the acknowledgement of the msgs_ack itself, if its
    seq_no is odd) returns, and then, for every acked id that was in the
    pending table, the packet under it has its needAck flag set to false and
    its other fields as they were, and the entry is gone if the packet has
    no response channel and still there if it has one; entries of ids that
    were not acked, and ids that were not in the table, are as before;
    packets under no acked id are unchanged; and the channels are exactly as
    they were: nothing is sent on a response channel. *)
Theorem msgs_ack_clears_and_removes m (ids : list Z) (msgId seq_no : Z) (may : bool)
        (Hwf : state_wf m)
        (Hroom : Z.odd seq_no = true -> (length (sendQueue m) < sendQueue_cap)%nat) :
  exists m',
    process range_order (TL_msgs_ack ids) msgId seq_no may m = Done m'
    /\ chans m' = chans m
    /\ (forall id p pk,
           id ∈ ids -> msgsByID m !! id = Some p -> packets m !! p = Some pk ->
           packets m' !! p
           = Some (mkPacket (msgID pk) (seqNo pk) (msg pk) (resp pk) false)
           /\ msgsByID m' !! id = match resp pk with None => None | Some _ => Some p end)
    /\ (forall id, id ∉ ids -> msgsByID m' !! id = msgsByID m !! id)
    /\ (forall id, msgsByID m !! id = None -> msgsByID m' !! id = None)
    /\ (forall p pk,
           packets m !! p = Some pk ->
           (forall id, id ∈ ids -> msgsByID m !! id <> Some p) ->
           packets m' !! p = Some pk).
Proof.
  cbn [process].
  destruct (ack_all_rel ids m Hwf) as (m1 & E & Hwf1 & R). rewrite E. cbn [obind].
  assert (Hch : chans m1 = chans m).
  { rewrite <- (ack_frame _ _ _ R). reflexivity. }
  assert (Hq : sendQueue m1 = sendQueue m).
  { rewrite <- (ack_frame _ _ _ R). reflexivity. }
  assert (Hold : forall p pk1, packets m1 !! p = Some pk1 ->
                               <[fresh (dom (packets m1)) :=
                                   newPacket (TL_msgs_ack [msgId]) None]> (packets m1) !! p
                               = Some pk1).
  { intros p pk1 Hp. rewrite lookup_insert_ne; [assumption|].
    now apply (fresh_not_allocated m1 p pk1). }
  rewrite land_1_odd.
  destruct (Z.odd seq_no);
    [rewrite enqueue_new_room by (rewrite Hq; now apply Hroom)|];
    eexists; (split; [reflexivity|]); cbn [chans packets msgsByID set_sendQueue set_packets].
  - split; [exact Hch|]. split; [|split; [|split]].
    + intros id p pk Hi Hip Hp. split.
      * apply Hold. apply (ack_cleared _ _ _ R p pk Hp). eauto.
      * apply (ack_entry _ _ _ R id p pk Hi Hip Hp).
    + apply (ack_other _ _ _ R).
    + apply (ack_absent _ _ _ R).
    + intros p pk Hp Hno. apply Hold. now apply (ack_kept _ _ _ R p pk Hp).
  - split; [exact Hch|]. split; [|split; [|split]].
    + intros id p pk Hi Hip Hp. split.
      * apply (ack_cleared _ _ _ R p pk Hp). eauto.
      * apply (ack_entry _ _ _ R id p pk Hi Hip Hp).
    + apply (ack_other _ _ _ R).
    + apply (ack_absent _ _ _ R).
    + intros p pk Hp Hno. now apply (ack_kept _ _ _ R p pk Hp).
Qed.

(** *** Acknowledgements to the server *)

Lemma omap_ext_in {A B} (f g : A -> option B) (l : list A) :
  (forall x, x ∈ l -> f x = g x) -> omap f l = omap g l.
Proof.
  induction l as [|x l IH]; intros H; cbn [omap list_omap]; [reflexivity|].
  rewrite (H x) by (apply elem_of_cons; now left).
  rewrite IH; [reflexivity|]. intros y Hy. apply H. apply elem_of_cons. now right.
Qed.

Lemma step_ok_refl m : state_wf m -> step_ok m m [] [].
Proof.
  intros Hwf. split; try tauto.
  - now rewrite app_nil_r.
  - eauto.
  - intros p Hp. now apply elem_of_nil in Hp.
Qed.

Lemma step_ok_trans m m1 m2 a1 a2 e1 e2 :
  state_wf m -> step_ok m m1 a1 e1 -> step_ok m1 m2 a2 e2 ->
  step_ok m m2 (a1 ++ a2) (e1 ++ e2).
Proof.
  intros Hwf S1 S2. split.
  - apply (ok_wf _ _ _ _ S2).
  - rewrite (ok_queue _ _ _ _ S2), (ok_queue _ _ _ _ S1). now rewrite app_assoc.
  - intros id p H. apply (ok_table _ _ _ _ S1). now apply (ok_table _ _ _ _ S2).
  - intros p pk Hp. destruct (ok_heap _ _ _ _ S1 p pk Hp) as (pk1 & Hp1 & E1).
    destruct (ok_heap _ _ _ _ S2 p pk1 Hp1) as (pk2 & Hp2 & E2).
    exists pk2. split; [assumption|congruence].
  - intros p Hp. apply elem_of_app in Hp as [Hp|Hp].
    + destruct (ok_added _ _ _ _ S1 p Hp) as [[Hnew [pk1 Hp1]]|Hold]; [left|now right].
      split; [assumption|].
      destruct (ok_heap _ _ _ _ S2 p pk1 Hp1) as (pk2 & Hp2 & _). eauto.
    + destruct (ok_added _ _ _ _ S2 p Hp) as [[Hnew Hsome]|[id Hold]].
      * left. split; [|assumption].
        destruct (packets m !! p) as [pk|] eqn:E; [|reflexivity].
        destruct (ok_heap _ _ _ _ S1 p pk E) as (pk1 & Hp1 & _). congruence.
      * right. exists id. now apply (ok_table _ _ _ _ S1).
  - unfold new_acks. rewrite omap_app. f_equal.
    + rewrite <- (ok_acks _ _ _ _ S1). unfold new_acks. apply omap_ext_in.
      intros p Hp. destruct (decide (p ∈ dom (packets m))) as [|Hout]; [reflexivity|].
      destruct (ok_added _ _ _ _ S1 p Hp) as [[Hnew [pk1 Hp1]]|[id Hold]].
      * destruct (ok_heap _ _ _ _ S2 p pk1 Hp1) as (pk2 & Hp2 & E2).
        unfold ack_ids. now rewrite Hp1, Hp2, E2.
      * exfalso. apply Hout. apply elem_of_dom. eapply wf_table; eassumption.
    + rewrite <- (ok_acks _ _ _ _ S2). unfold new_acks. apply omap_ext_in.
      intros p Hp.
      destruct (ok_added _ _ _ _ S2 p Hp) as [[Hnew Hsome]|[id Hold]].
      * rewrite !decide_False; [reflexivity| |].
        -- rewrite elem_of_dom, Hnew. now intros [? ?].
        -- rewrite elem_of_dom. intros [pk Hpk].
           destruct (ok_heap _ _ _ _ S1 p pk Hpk) as (pk1 & Hp1 & _). congruence.
      * rewrite !decide_True; [reflexivity| |].
        -- apply elem_of_dom. eapply (wf_table m1); [apply (ok_wf _ _ _ _ S1)|eassumption].
        -- apply elem_of_dom. eapply (wf_table m); [assumption|].
           apply (ok_table _ _ _ _ S1). eassumption.
Qed.

(** A change that leaves the queue, the table and the heaps alone. *)
Lemma step_ok_frame m m' :
  state_wf m -> is_Some (session m') -> sendQueue m' = sendQueue m ->
  msgsByID m' = msgsByID m -> packets m' = packets m -> chans m' = chans m ->
  step_ok m m' [] [].
Proof.
  intros Hwf Hs Eq Et Ep Ec. split.
  - now apply (state_wf_frame m m').
  - now rewrite app_nil_r.
  - now rewrite Et.
  - rewrite Ep. eauto.
  - intros p Hp. now apply elem_of_nil in Hp.
  - reflexivity.
Qed.

Lemma step_ok_enqueue_new (t : TL) m :
  state_wf m -> (length (sendQueue m) < sendQueue_cap)%nat ->
  exists m',
    enqueue_new t None m = Done m'
    /\ step_ok m m' [fresh (dom (packets m))]
               (match t with TL_msgs_ack ids => [ids] | _ => [] end).
Proof.
  intros Hwf Hroom. rewrite enqueue_new_room by assumption.
  eexists. split; [reflexivity|].
  pose proof (is_fresh (dom (packets m))) as Hfresh.
  assert (Hnone : packets m !! fresh (dom (packets m)) = None).
  { apply not_elem_of_dom. exact Hfresh. }
  assert (Hold : forall p pk, packets m !! p = Some pk ->
            <[fresh (dom (packets m)) := newPacket t None]> (packets m) !! p = Some pk).
  { intros p pk Hp. rewrite lookup_insert_ne; [assumption|]. congruence. }
  assert (Hinv : forall p pk,
            <[fresh (dom (packets m)) := newPacket t None]> (packets m) !! p = Some pk ->
            resp pk = None \/ packets m !! p = Some pk).
  { intros p pk Hp. destruct (decide (fresh (dom (packets m)) = p)) as [<-|Hne].
    - rewrite lookup_insert_eq in Hp. injection Hp as <-. now left.
    - rewrite lookup_insert_ne in Hp by assumption. now right. }
  destruct Hwf as [Hs Ht Hr Ho H1]. split; cbn.
  - split; cbn; try assumption.
    + intros id p Hp. destruct (Ht id p Hp) as [pk Hpk]. exists pk. now apply Hold.
    + intros p pk c Hp Hc. destruct (Hinv p pk Hp) as [E|Hp']; [congruence|]. eauto.
    + intros p1 p2 k1 k2 c Hp1 Hp2 Hc1 Hc2.
      destruct (Hinv p1 k1 Hp1) as [E|Hp1']; [congruence|].
      destruct (Hinv p2 k2 Hp2) as [E|Hp2']; [congruence|]. eauto.
  - reflexivity.
  - tauto.
  - intros p pk Hp. exists pk. split; [now apply Hold|reflexivity].
  - intros p Hp. apply list_elem_of_singleton in Hp. subst p. left.
    split; [assumption|]. rewrite lookup_insert_eq. eauto.
  - unfold new_acks. cbn [omap list_omap].
    rewrite decide_False by assumption.
    unfold ack_ids. rewrite lookup_insert_eq. cbn [msg newPacket].
    now destruct t.
Qed.

(** What a stretch of the dispatcher leaves of the queue's room: the queue
    has grown by what was added, and the table has not grown. *)
Lemma step_ok_room m m' added expected :
  step_ok m m' added expected ->
  length (sendQueue m') = (length (sendQueue m) + length added)%nat
  /\ (size (msgsByID m') <= size (msgsByID m))%nat.
Proof.
  intros S. split.
  - rewrite (ok_queue _ _ _ _ S). apply length_app.
  - apply map_subseteq_size, map_subseteq_spec. intros id p. apply (ok_table _ _ _ _ S).
Qed.

Lemma step_ok_delete m id :
  state_wf m -> step_ok m (set_msgsByID (delete id (msgsByID m)) m) [] [].
Proof.
  intros Hwf. split; cbn.
  - now apply state_wf_delete.
  - now rewrite app_nil_r.
  - intros i p Hp. now apply lookup_delete_Some in Hp as [_ Hp].
  - eauto.
  - intros p Hp. now apply elem_of_nil in Hp.
  - reflexivity.
Qed.

Lemma clearPacketData_ok m (id : Z) (response : TL) :
  state_wf m ->
  exists m', clearPacketData id response m = Done m' /\ step_ok m m' [] [].
Proof.
  intros Hwf. unfold clearPacketData.
  destruct (msgsByID m !! id) as [p|] eqn:Hid.
  2:{ exists m. split; [reflexivity|]. now apply step_ok_refl. }
  destruct (wf_table m Hwf id p Hid) as [pk Hpk]. rewrite Hpk.
  destruct (resp pk) as [c|] eqn:Hc.
  - destruct (wf_resp m Hwf p pk c Hpk Hc) as (ch & Hch & Hopen & Hitems & Hcap).
    unfold chan_send. rewrite Hch, Hopen, Hitems.
    destruct (Nat.ltb_spec (length (@nil TL)) (capacity ch)) as [_|Hbad];
      [|cbn in Hbad; lia].
    cbn [obind]. unfold chan_close. cbn [chans set_chans]. rewrite lookup_insert_eq.
    cbn [closed obind items capacity app]. rewrite insert_insert_eq.
    eexists. split; [reflexivity|].
    pose proof (state_wf_complete m p pk c ch response Hwf Hpk Hc Hch Hitems) as Hwf1.
    change (@nil ptr) with (@nil ptr ++ []). change (@nil (list Z)) with (@nil (list Z) ++ []).
    eapply step_ok_trans; [assumption| |apply (step_ok_delete _ id Hwf1)].
    split; cbn; try tauto.
    + now rewrite app_nil_r.
    + intros q qk Hq. destruct (decide (p = q)) as [->|Hne].
      * rewrite lookup_insert_eq. exists (clear_resp pk). split; [reflexivity|]. cbn.
        congruence.
      * rewrite lookup_insert_ne by assumption. eauto.
    + intros q Hq. now apply elem_of_nil in Hq.
  - cbn [obind]. eexists. split; [reflexivity|].
    change (@nil ptr) with (@nil ptr ++ []). change (@nil (list Z)) with (@nil (list Z) ++ []).
    assert (S1 : step_ok m (logf LWarn "second response to message #%d %#v" m) [] []).
    { apply step_ok_frame; try reflexivity; [assumption|apply Hwf]. }
    eapply step_ok_trans; [assumption|exact S1|].
    apply (step_ok_delete _ id (ok_wf _ _ _ _ S1)).
Qed.

Lemma ack_all_ok m (ids : list Z) :
  state_wf m -> exists m', ack_all ids m = Done m' /\ step_ok m m' [] [].
Proof.
  intros Hwf. destruct (ack_all_rel ids m Hwf) as (m' & E & Hwf' & R).
  exists m'. split; [assumption|]. split.
  - assumption.
  - rewrite <- (ack_frame _ _ _ R). cbn. now rewrite app_nil_r.
  - intros id p. now apply (ack_rel_shrinks ids m m').
  - intros p pk Hp.
    destruct (decide (Exists (fun j => msgsByID m !! j = Some p) ids)) as [Hex|Hno].
    + exists (clear_needAck pk). split; [|reflexivity].
      apply (ack_cleared _ _ _ R p pk Hp). apply Exists_exists in Hex. exact Hex.
    + exists pk. split; [|reflexivity].
      apply (ack_kept _ _ _ R p pk Hp). intros j Hj Hjp. apply Hno.
      apply Exists_exists. eauto.
  - intros p Hp. now apply elem_of_nil in Hp.
  - reflexivity.
Qed.

Lemma SaveSessionLogged_ok m (s : SessionInfo) :
  store_returns sessionStore -> state_wf m ->
  exists m', SaveSessionLogged (set_session (Some s) m) = Done m' /\ step_ok m m' [] [].
Proof.
  intros Hstore Hwf. unfold SaveSessionLogged. cbn [session set_session store_state].
  destruct (Hstore s (store_state m)) as (st' & e & E). rewrite E. cbn [obind].
  destruct e; eexists; (split; [reflexivity|]);
    apply step_ok_frame; try reflexivity; try assumption; cbn; eauto.
Qed.

Lemma omap_none {A B} (f : A -> option B) (l : list A) :
  (forall x, x ∈ l -> f x = None) -> omap f l = [].
Proof.
  induction l as [|x l IH]; intros H; cbn [omap list_omap]; [reflexivity|].
  rewrite (H x) by (apply elem_of_cons; now left).
  apply IH. intros y Hy. apply H. apply elem_of_cons. now right.
Qed.

Lemma resendPendingPackets_ok m :
  (forall t, range_order t ≡ₚ map_to_list t) -> state_wf m ->
  (length (sendQueue m) + size (msgsByID m) <= sendQueue_cap)%nat ->
  exists m',
    resendPendingPackets range_order m = Done m'
    /\ step_ok m m' ((range_order (msgsByID m)).*2) [].
Proof.
  intros Hperm Hwf Hroom. rewrite resendPendingPackets_eq by (try apply Hperm; assumption).
  eexists. split; [reflexivity|].
  assert (Hin : forall p, p ∈ (range_order (msgsByID m)).*2 ->
                          exists id, msgsByID m !! id = Some p).
  { intros p Hp. apply list_elem_of_fmap in Hp as ([id q] & -> & Hq).
    rewrite Hperm in Hq. apply elem_of_map_to_list in Hq. eauto. }
  assert (Hsub : forall id p,
             foldl (fun t x => delete x.1 t) (msgsByID m) (range_order (msgsByID m)) !! id
             = Some p -> msgsByID m !! id = Some p).
  { intros id p. rewrite lookup_delete_all. now destruct (decide _). }
  destruct Hwf as [Hs Ht Hr Ho H1]. split; cbn.
  - split; cbn; try assumption. intros id p Hp. eauto.
  - reflexivity.
  - exact Hsub.
  - eauto.
  - intros p Hp. right. now apply Hin.
  - unfold new_acks. apply omap_none. intros p Hp.
    destruct (Hin p Hp) as [id Hid].
    rewrite decide_True; [reflexivity|]. apply elem_of_dom. eauto.
Qed.

(** Induction on TL values, through the items of containers. *)
Lemma TL_nested_ind (P : TL -> Prop) :
  P TL_null ->
  (forall Items, Forall (fun v => P (MT_Data v)) Items -> P (TL_msg_container Items)) ->
  (forall req obj, P obj -> P (TL_rpc_result req obj)) ->
  (forall a b, P (TL_bad_server_salt a b)) ->
  (forall a b, P (TL_bad_msg_notification a b)) ->
  (forall a b, P (TL_msgs_state_info a b)) ->
  (forall a b, P (TL_new_session_created a b)) ->
  (forall a, P (TL_ping a)) ->
  (forall a b, P (TL_pong a b)) ->
  (forall ids, P (TL_msgs_ack ids)) ->
  (forall c p, P (TL_other c p)) ->
  forall t, P t.
Proof.
  intros Hnull Hcont Hrpc Hsalt Hbad Hinfo Hnew Hping Hpong Hack Hother.
  fix IH 1. intros [ |Items|req obj|a b|a b|a b|a b|a|a b|ids|c p].
  - exact Hnull.
  - apply Hcont. induction Items as [|[i s z d] rest IHrest].
    + constructor.
    + constructor; [exact (IH d)|exact IHrest].
  - apply Hrpc. exact (IH obj).
  - apply Hsalt.
  - apply Hbad.
  - apply Hinfo.
  - apply Hnew.
  - apply Hping.
  - apply Hpong.
  - apply Hack.
  - apply Hother.
Qed.

Lemma acks_of_own (t : TL) (msgId seqNo : Z) :
  acks_of t msgId seqNo = acks_of t msgId 0 ++ (if Z.odd seqNo then [msgId] else []).
Proof.
  destruct t; cbn [acks_of Z.odd]; now rewrite ?app_nil_r.
Qed.

Lemma sends_of_own (t : TL) (seqNo : Z) (n : nat) :
  sends_of t seqNo n = (sends_of t 0 n + (if Z.odd seqNo then 1 else 0))%nat.
Proof.
  destruct t; cbn [sends_of Z.odd]; lia.
Qed.

(** The fewer packets are pending, the fewer sends. *)
Lemma sends_of_mono (t : TL) :
  forall (seqNo : Z) (a b : nat), (a <= b)%nat ->
                                  (sends_of t seqNo a <= sends_of t seqNo b)%nat.
Proof.
  induction t as [ |Items IH|req obj IH|x y|x y|x y|x y|x|x y|ids|c p]
    using TL_nested_ind; intros seqNo a b Hab; cbn [sends_of]; try lia.
  - apply Nat.add_le_mono_r.
    induction IH as [|[id sq z d] rest Hd _ IHrest]; [lia|].
    cbn [MT_Data] in Hd. specialize (Hd sq a b Hab). lia.
  - specialize (IH 0 a b Hab). lia.
Qed.

(** The last step of process: the acknowledgement of the message itself. *)
Lemma own_ack_ok m m1 added (e : list Z) (msgId seqNo : Z) :
  state_wf m -> step_ok m m1 added ((fun i => [i]) <$> e) ->
  (length (sendQueue m1) + (if Z.odd seqNo then 1 else 0) <= sendQueue_cap)%nat ->
  exists m' added',
    (if Z.land seqNo 1 =? 1
     then enqueue_new (TL_msgs_ack [msgId]) None m1 else Done m1) = Done m'
    /\ step_ok m m' added' ((fun i => [i]) <$> (e ++ (if Z.odd seqNo then [msgId] else [])))
    /\ length added' = (length added + (if Z.odd seqNo then 1 else 0))%nat.
Proof.
  intros Hwf S1 Hroom. rewrite land_1_odd, fmap_app.
  destruct (Z.odd seqNo).
  - destruct (step_ok_enqueue_new (TL_msgs_ack [msgId]) m1 (ok_wf _ _ _ _ S1))
      as (m' & E & S2); [lia|].
    exists m', (added ++ [fresh (dom (packets m1))]). split; [exact E|]. split.
    + now apply (step_ok_trans m m1 m').
    + rewrite length_app. reflexivity.
  - exists m1, added. split; [reflexivity|]. cbn [fmap list_fmap].
    rewrite app_nil_r. split; [assumption|lia].
Qed.

(** In a well-formed state, with room in the queue for what it sends, the
    dispatcher returns on every message, and the acknowledgements it
    creates are those the message calls for. *)
Lemma process_ok (t : TL) :
  (forall tbl, range_order tbl ≡ₚ map_to_list tbl) ->
  store_returns sessionStore ->
  forall (msgId seqNo : Z) (may : bool) m,
    state_wf m ->
    (length (sendQueue m) + sends_of t seqNo (size (msgsByID m)) <= sendQueue_cap)%nat ->
    exists m' added,
      process range_order t msgId seqNo may m = Done m'
      /\ step_ok m m' added ((fun i => [i]) <$> acks_of t msgId seqNo)
      /\ (length added <= sends_of t seqNo (size (msgsByID m)))%nat.
Proof.
  intros Hperm Hstore.
  assert (Hlast : forall m m1 added (e : list Z) (msgId seqNo : Z) (n : nat),
             state_wf m -> step_ok m m1 added ((fun i => [i]) <$> e) ->
             (length added <= n)%nat ->
             (length (sendQueue m) + (n + (if Z.odd seqNo then 1 else 0))
              <= sendQueue_cap)%nat ->
             exists m' added',
               (if Z.land seqNo 1 =? 1
                then enqueue_new (TL_msgs_ack [msgId]) None m1 else Done m1) = Done m'
               /\ step_ok m m' added'
                          ((fun i => [i]) <$> (e ++ (if Z.odd seqNo then [msgId] else [])))
               /\ (length added' <= n + (if Z.odd seqNo then 1 else 0))%nat).
  { intros m m1 added e msgId seqNo n Hwf S1 Hn Hroom.
    destruct (step_ok_room _ _ _ _ S1) as [Hq _].
    destruct (own_ack_ok m m1 added e msgId seqNo Hwf S1) as (m' & a' & E & S2 & Hl);
      [lia|].
    exists m', a'. split; [exact E|]. split; [exact S2|lia]. }
  induction t as [ |Items IH|req obj IH|a b|a b|a b|a b|a|a b|ids|c p]
    using TL_nested_ind; intros msgId seqNo may m Hwf Hroom;
    rewrite acks_of_own; rewrite sends_of_own in Hroom |- *;
    cbn [process sends_of Z.odd Nat.add] in Hroom |- *.
  - (* nil *)
    assert (S1 : exists m1, (if may && handleEvent m
                             then Done (set_started (TL_null :: started m) m)
                             else Done m) = Done m1 /\ step_ok m m1 [] []).
    { destruct (may && handleEvent m); eexists; (split; [reflexivity|]).
      - apply step_ok_frame; try reflexivity; [assumption|apply Hwf].
      - now apply step_ok_refl. }
    destruct S1 as (m1 & -> & S1). cbn [obind acks_of app].
    apply (Hlast m m1 [] [] msgId seqNo 0%nat); cbn; try assumption; lia.
  - (* msg_container *)
    cbn [acks_of]. rewrite !app_nil_r. rewrite !Nat.add_0_r in Hroom |- *.
    match goal with |- context [obind (?loop Items m)] => set (each := loop) end.
    match goal with |- context [(?loop Items ++ _)] => set (each_acks := loop) end.
    set (each_sends := fun n : nat =>
           fix each (vs : list TL_MT_message) : nat :=
             match vs with
             | [] => 0%nat
             | MT_message _ sq _ d :: rest => (sends_of d sq n + each rest)%nat
             end).
    match goal with
    | |- context [(_ <= ?loop Items + _)%nat] =>
      change loop with (each_sends (size (msgsByID m))) in *
    end.
    assert (Hmono : forall vs (x y : nat), (x <= y)%nat ->
                                           (each_sends x vs <= each_sends y vs)%nat).
    { intros vs x y Hxy. induction vs as [|[id sq z d] rest IHrest]; [cbn; lia|].
      subst each_sends. cbn in *. pose proof (sends_of_mono d sq x y Hxy). lia. }
    assert (Hloop : forall m0, state_wf m0 ->
              (length (sendQueue m0) + each_sends (size (msgsByID m0)) Items
               <= sendQueue_cap)%nat ->
              exists m1 added, each Items m0 = Done m1
                               /\ step_ok m0 m1 added ((fun i => [i]) <$> each_acks Items)
                               /\ (length added
                                   <= each_sends (size (msgsByID m0)) Items)%nat).
    { clear m Hwf Hroom.
      induction IH as [|[id sq z d] rest Hd _ IHrest]; intros m0 Hwf0 Hroom0.
      - exists m0, []. split; [reflexivity|]. split; [now apply step_ok_refl|cbn; lia].
      - cbn [MT_Data] in Hd.
        assert (Hsplit : each_sends (size (msgsByID m0)) (MT_message id sq z d :: rest)
                         = (sends_of d sq (size (msgsByID m0))
                            + each_sends (size (msgsByID m0)) rest)%nat)
          by reflexivity.
        rewrite Hsplit in Hroom0 |- *.
        subst each each_acks. cbn.
        destruct (Hd id sq true m0 Hwf0) as (m1 & a1 & E1 & S1 & L1); [lia|].
        rewrite E1. cbn [obind].
        destruct (step_ok_room _ _ _ _ S1) as [Hq1 Ht1].
        pose proof (Hmono rest _ _ Ht1) as Hm.
        destruct (IHrest m1 (ok_wf _ _ _ _ S1)) as (m2 & a2 & E2 & S2 & L2); [lia|].
        exists m2, (a1 ++ a2). split; [exact E2|]. split.
        + rewrite fmap_app. now apply (step_ok_trans m0 m1 m2).
        + rewrite length_app. lia. }
    destruct (Hloop m Hwf) as (m1 & a1 & E1 & S1 & L1); [lia|].
    rewrite E1. cbn [obind].
    now apply (Hlast m m1 a1).
  - (* rpc_result *)
    cbn [acks_of]. rewrite !app_nil_r. rewrite !Nat.add_0_r in Hroom |- *.
    destruct (IH msgId 0 false m Hwf) as (m1 & a1 & E1 & S1 & L1); [lia|].
    rewrite E1. cbn [obind].
    destruct (clearPacketData_ok m1 req obj (ok_wf _ _ _ _ S1)) as (m2 & E2 & S2).
    rewrite E2. cbn [obind].
    apply (Hlast m m2 (a1 ++ [])).
    + assumption.
    + rewrite <- (app_nil_r (_ <$> _)). now apply (step_ok_trans m m1 m2).
    + rewrite app_nil_r. exact L1.
    + lia.
  - (* bad_server_salt *)
    destruct (wf_session m Hwf) as [s Hs]. rewrite Hs.
    destruct (SaveSessionLogged_ok m (set_ServerSalt a s) Hstore Hwf) as (m1 & E1 & S1).
    rewrite E1. cbn [obind acks_of app].
    destruct (step_ok_room _ _ _ _ S1) as [Hq1 Ht1]. cbn [length] in Hq1.
    destruct (resendPendingPackets_ok m1 Hperm (ok_wf _ _ _ _ S1)) as (m2 & E2 & S2);
      [lia|].
    rewrite E2. cbn [obind].
    apply (Hlast m m2 ([] ++ (range_order (msgsByID m1)).*2) []).
    + assumption.
    + now apply (step_ok_trans m m1 m2 [] _ [] []).
    + cbn [app]. rewrite length_fmap, (length_range_order _ (Hperm _)). lia.
    + lia.
  - (* bad_msg_notification *)
    destruct (clearPacketData_ok m a (TL_bad_msg_notification a b) Hwf) as (m1 & E1 & S1).
    rewrite E1. cbn [obind acks_of app].
    apply (Hlast m m1 [] [] msgId seqNo 0%nat); cbn; try assumption; lia.
  - (* msgs_state_info *)
    destruct (clearPacketData_ok m a (TL_msgs_state_info a b) Hwf) as (m1 & E1 & S1).
    rewrite E1. cbn [obind acks_of app].
    apply (Hlast m m1 [] [] msgId seqNo 0%nat); cbn; try assumption; lia.
  - (* new_session_created *)
    destruct (wf_session m Hwf) as [s Hs]. rewrite Hs.
    destruct (SaveSessionLogged_ok m (set_ServerSalt a s) Hstore Hwf) as (m1 & E1 & S1).
    rewrite E1. cbn [obind acks_of app].
    apply (Hlast m m1 [] [] msgId seqNo 0%nat); cbn; try assumption; lia.
  - (* ping *)
    destruct (step_ok_enqueue_new (TL_pong msgId a) m Hwf) as (m1 & E1 & S1); [lia|].
    rewrite E1. cbn [obind acks_of app].
    apply (Hlast m m1 [fresh (dom (packets m))] [] msgId seqNo 1%nat);
      cbn; try assumption; lia.
  - (* pong *)
    cbn [obind acks_of app].
    apply (Hlast m m [] [] msgId seqNo 0%nat); cbn; try assumption; try lia.
    now apply step_ok_refl.
  - (* msgs_ack *)
    destruct (ack_all_ok m ids Hwf) as (m1 & E1 & S1).
    rewrite E1. cbn [obind acks_of app].
    apply (Hlast m m1 [] [] msgId seqNo 0%nat); cbn; try assumption; lia.
  - (* any other object *)
    assert (S1 : exists m1, (if may && handleEvent m
                             then Done (set_started (TL_other c p :: started m) m)
                             else Done m) = Done m1 /\ step_ok m m1 [] []).
    { destruct (may && handleEvent m); eexists; (split; [reflexivity|]).
      - apply step_ok_frame; try reflexivity; [assumption|apply Hwf].
      - now apply step_ok_refl. }
    destruct S1 as (m1 & -> & S1). cbn [obind acks_of app].
    apply (Hlast m m1 [] [] msgId seqNo 0%nat); cbn; try assumption; lia.
Qed.

(** C1. In a well-formed state, with room in the internal queue for the
    packets the dispatcher sends there ([sends_of]: pongs, resent packets and
    acknowledgements), the dispatcher returns on every inbound message, and
    the msgs_ack packets it creates and appends to the internal queue are,
    in queue order, one [msgs_ack [id]] for each message of odd seq_no met
    in a post-order walk of the inbound message ([acks_of]): first those of
    the nested messages (container items with their own msg_id and seq_no,
    the object of an rpc_result with seq_no 0, hence without an
    acknowledgement of its own), and last, if and only if the seq_no of the
    message itself is odd, the one with its msg_id. *)
Theorem process_acks_odd_seq_no m (dataTL : TL) (msgId seqNo : Z) (may : bool)
        (Hperm : forall tbl, range_order tbl ≡ₚ map_to_list tbl)
        (Hstore : store_returns sessionStore)
        (Hwf : state_wf m)
        (Hroom : (length (sendQueue m) + sends_of dataTL seqNo (size (msgsByID m))
                  <= sendQueue_cap)%nat) :
  exists m' added,
    process range_order dataTL msgId seqNo may m = Done m'
    /\ state_wf m'
    /\ sendQueue m' = sendQueue m ++ added
    /\ new_acks (packets m) (packets m') added
       = (fun i => [i]) <$> acks_of dataTL msgId seqNo
    /\ acks_of dataTL msgId seqNo
       = acks_of dataTL msgId 0 ++ (if Z.odd seqNo then [msgId] else []).
Proof.
  destruct (process_ok dataTL Hperm Hstore msgId seqNo may m Hwf Hroom)
    as (m' & added & E & S & _).
  exists m', added. split; [exact E|]. split; [apply (ok_wf _ _ _ _ S)|].
  split; [apply (ok_queue _ _ _ _ S)|]. split; [apply (ok_acks _ _ _ _ S)|].
  apply acks_of_own.
Qed.

End DispatcherFacts.

(** ** The ping worker *)

Section PingFacts.

Context {St : Type}.
Implicit Types m : @MTProto St.

Local Abbreviation ping := (mkPacket 0 0 (TL_ping 0xCADACADA) None false).

(** [n] expiries of the timer while no stop token is around, with room in
    the queue: [n] new packets at the end of the queue, all of them pings
    without a response channel, and the worker goes on. *)
Lemma pingRoutine_after_ticks (n : nat) (rest : list ping_select) m :
  routinesStop m = 0%nat ->
  (length (sendQueue m) + n <= sendQueue_cap)%nat ->
  exists mn ps,
    pingRoutine (repeat After60s n ++ rest) m = pingRoutine rest mn
    /\ length ps = n
    /\ sendQueue mn = sendQueue m ++ ps
    /\ Forall (fun p => packets m !! p = None /\ packets mn !! p = Some ping) ps
    /\ (forall p pk, packets m !! p = Some pk -> packets mn !! p = Some pk)
    /\ routinesStop mn = 0%nat
    /\ routinesWG mn = routinesWG m
    /\ msgsByID mn = msgsByID m
    /\ chans mn = chans m.
Proof.
  revert m. induction n as [|n IH]; intros m Hstop Hroom.
  - exists m, []. cbn. rewrite app_nil_r. repeat split; auto.
  - cbn [repeat app pingRoutine]. rewrite Hstop.
    rewrite enqueue_new_room by lia. cbn [obind].
    pose proof (is_fresh (dom (packets m))) as Hfresh.
    set (f := fresh (dom (packets m))) in *.
    set (m1 := set_sendQueue _ _).
    assert (Hnone : packets m !! f = None) by now apply not_elem_of_dom.
    assert (Hold1 : forall p pk, packets m !! p = Some pk -> packets m1 !! p = Some pk).
    { intros p pk Hp. cbn. rewrite lookup_insert_ne; [assumption|]. congruence. }
    destruct (IH m1) as (mn & ps & E & Hlen & Hq & Hps & Hold & Hs & Hw & Htbl & Hch).
    { exact Hstop. }
    { cbn. rewrite length_app. cbn. lia. }
    exists mn, (f :: ps). split; [exact E|].
    split; [cbn; lia|].
    split; [rewrite Hq; cbn; now rewrite <- app_assoc|].
    split; [|split; [|now repeat split]].
    + constructor.
      * split; [assumption|]. apply Hold. cbn. apply lookup_insert_eq.
      * eapply Forall_impl; [exact Hps|]. intros p [Hnew Hp]. split; [|assumption].
        destruct (packets m !! p) as [pk|] eqn:Ep; [|reflexivity].
        rewrite (Hold1 p pk Ep) in Hnew. discriminate.
    + intros p pk Hp. apply Hold. now apply Hold1.
Qed.

(** C5, as amended.  A stop token that is in the channel when the worker
    comes to its [select] is taken at once, and the worker returns without
    sending.  With none there the worker does one thing at each expiry of its
    60 s timer: it appends to the internal queue (which must have room, else
    it waits there) a new packet carrying [ping] with the fixed id 0xCADACADA
    and no response channel.  After [n] expiries and then a stop token it
    has returned, having enqueued exactly [n] such packets, taken the token
    and signalled the wait group; as long as no token comes it is still
    running. *)
Theorem pingRoutine_enqueues_fixed_ping (n : nat) m (Hwg : 1 <= routinesWG m) :
  (forall k sched,
      routinesStop m = S k ->
      exists m',
        pingRoutine sched m = Done m'
        /\ sendQueue m' = sendQueue m /\ packets m' = packets m
        /\ routinesStop m' = k /\ routinesWG m' = routinesWG m - 1)
  /\ (routinesStop m = 0%nat ->
      (length (sendQueue m) + n <= sendQueue_cap)%nat ->
      pingRoutine (repeat After60s n) m = OutOfFuel
      /\ exists m' ps,
          pingRoutine (repeat After60s n ++ [RecvStop]) m = Done m'
          /\ length ps = n
          /\ sendQueue m' = sendQueue m ++ ps
          /\ Forall (fun p => packets m !! p = None
                              /\ packets m' !! p
                                 = Some (mkPacket 0 0 (TL_ping 0xCADACADA) None false)) ps
          /\ (forall p pk, packets m !! p = Some pk -> packets m' !! p = Some pk)
          /\ routinesStop m' = 0%nat
          /\ routinesWG m' = routinesWG m - 1
          /\ msgsByID m' = msgsByID m
          /\ chans m' = chans m)
  /\ (routinesStop m = 0%nat ->
      (sendQueue_cap <= length (sendQueue m))%nat ->
      forall rest, pingRoutine (After60s :: rest) m = Blocked).
Proof.
  split; [|split].
  - intros k sched Hstop.
    assert (E : pingRoutine sched m
                = WG_Done (logf LDebug "pingRoutine done" (set_routinesStop k m))).
    { destruct sched; cbn [pingRoutine]; now rewrite Hstop. }
    rewrite E. unfold WG_Done. cbn.
    destruct (Z.ltb_spec (routinesWG m - 1) 0); [lia|].
    eexists. split; [reflexivity|]. cbn. repeat split.
  - intros Hstop Hroom. split.
    + destruct (pingRoutine_after_ticks n [] m Hstop Hroom)
        as (mn & ps & E & _ & _ & _ & _ & Hs & _).
      rewrite app_nil_r in E. rewrite E. cbn [pingRoutine]. now rewrite Hs.
    + destruct (pingRoutine_after_ticks n [RecvStop] m Hstop Hroom)
        as (mn & ps & E & Hlen & Hq & Hps & Hold & Hs & Hw & Htbl & Hch).
      rewrite E. cbn [pingRoutine]. rewrite Hs. unfold WG_Done. cbn. rewrite Hw.
      destruct (Z.ltb_spec (routinesWG m - 1) 0); [lia|].
      eexists _, ps. split; [reflexivity|]. cbn. repeat split; assumption.
  - intros Hstop Hfull rest. cbn [pingRoutine]. rewrite Hstop.
    now rewrite enqueue_new_full.
Qed.

End PingFacts.

(** ** Reconnection *)

Section ReconnectFacts.

Context {St : Type}.
Implicit Types m : @MTProto St.
Variable range_order : gmap Z ptr -> list (Z * ptr).
Variables stop_routines Connect : @MTProto St -> outcome (@MTProto St * option error).

(** DCAddr finds an address exactly when the table has an option with the
    id and the address family asked for. *)
Lemma DCAddr_found (dcID : Z) (ipv6 : bool) m :
  (DCAddr dcID ipv6 m).2 = true
  <-> exists o, o ∈ dcOptions m /\ o_ID o = dcID /\ o_Ipv6 o = ipv6.
Proof.
  unfold DCAddr. induction (dcOptions m) as [|o os IH]; cbn [DCAddr_loop].
  - split; [discriminate|]. intros (o & Ho & _). now apply elem_of_nil in Ho.
  - destruct (Z.eqb_spec (o_ID o) dcID) as [Hid|Hid];
      destruct (Bool.eqb_spec (o_Ipv6 o) ipv6) as [Hv|Hv]; cbn [andb].
    1:{ split; [|reflexivity]. intros _. exists o. split; [apply elem_of_cons; now left|].
        now split. }
    all: rewrite IH; split; intros (o' & Ho' & Hid' & Hv').
    all: try (exists o'; split; [apply elem_of_cons; now right|now split]).
    all: apply elem_of_cons in Ho' as [->|Ho']; try congruence; eauto.
Qed.

(** C7, as amended. Once the workers are stopped, reconnectToDc clears the
    encryption-ready flag if and only if the new DC id differs from the
    session's (otherwise the flag keeps its value), and then looks the new id
    up in the DC-options table in every case, also when the DC does not
    change.  The lookup succeeds exactly when the table has an IPv4 option
    with that id.  If it fails, reconnectToDc returns the error "wrong DC
    number" with the session untouched; if it succeeds, the session's DC id
    and address are replaced and the outcome is that of Connect followed by
    the re-enqueueing of the pending packets. *)
Theorem reconnectToDc_always_looks_up m (newDcID : Z) m1 (s : SessionInfo)
        (Hs0 : is_Some (session m))
        (Hstop : stop_routines (logf LInfo "reconnecting: DC %d -> %d" m) = Done (m1, None))
        (Hs : session m1 = Some s) :
  let m2 := logf LDebug "found %d pending packet(s)" m1 in
  let m3 := if negb (newDcID =? DcID s) then set_encryptionReady false m2 else m2 in
  encryptionReady m3 = (if newDcID =? DcID s then encryptionReady m1 else false)
  /\ session m3 = Some s
  /\ ((DCAddr newDcID false m1).2 = true
      <-> exists o, o ∈ dcOptions m1 /\ o_ID o = newDcID /\ o_Ipv6 o = false)
  /\ match DCAddr newDcID false m1 with
     | (_, false) =>
       reconnectToDc range_order stop_routines Connect newDcID m
       = Done (m3, Some (Err "wrong DC number: %d"))
     | (newDcAddr, true) =>
       reconnectToDc range_order stop_routines Connect newDcID m
       = resend_after_connect (range_order (msgsByID m1)).*1
           (Connect (set_session (Some (set_Dc newDcID newDcAddr s)) m3))
     end.
Proof.
  intros m2 m3. split; [|split; [|split]].
  - subst m3 m2. now destruct (newDcID =? DcID s).
  - subst m3 m2. now destruct (newDcID =? DcID s).
  - apply DCAddr_found.
  - unfold reconnectToDc. destruct Hs0 as [s0 ->]. rewrite Hstop. cbn [obind].
    cbn [session logf set_log]. rewrite Hs.
    assert (Hsame : DCAddr newDcID false m3 = DCAddr newDcID false m1).
    { subst m3 m2. now destruct (newDcID =? DcID s). }
    fold m2. fold m3. rewrite Hsame.
    destruct (DCAddr newDcID false m1) as [addr [|]]; reflexivity.
Qed.

End ReconnectFacts.

(** ** The reconnect semaphore *)

Module SemaphoreFacts.
Import Semaphore.

(** C9 fails on the code.  A worker has entered reconnectLogged and holds
    the semaphore; a call of the exported Reconnect does not look at it, and
    both goroutines are inside reconnectToDc. *)
Theorem Reconnect_bypasses_the_semaphore :
  let s := run [0; 1]%nat (initial [ViaReconnectLogged; ViaReconnect]) in
  reconnSemaphore s = 1%nat
  /\ goroutines s = [(ViaReconnectLogged, InReconnectToDc); (ViaReconnect, InReconnectToDc)]
  /\ reconnecting s = 2%nat.
Proof. vm_compute. repeat split. Qed.

(** So are two callers of Reconnect, or of Auth, with the semaphore free. *)
Lemma two_direct_callers_overlap :
  reconnecting (run [0; 1]%nat (initial [ViaReconnect; ViaAuth])) = 2%nat.
Proof. vm_compute. reflexivity. Qed.

(** A second reconnectLogged is turned away while the first one runs. *)
Lemma second_reconnectLogged_aborts :
  goroutines (run [0; 1]%nat (initial [ViaReconnectLogged; ViaReconnectLogged]))
  = [(ViaReconnectLogged, InReconnectToDc); (ViaReconnectLogged, ReturnedInProgress)].
Proof. vm_compute. reflexivity. Qed.

Lemma filter_length_insert {A} (P : A -> Prop) `{forall x, Decision (P x)}
      (l : list A) (i : nat) (x y : A) :
  l !! i = Some x ->
  (length (filter P (<[i := y]> l)) + (if decide (P x) then 1 else 0)
   = length (filter P l) + (if decide (P y) then 1 else 0))%nat.
Proof.
  intros Hi. rewrite <- (take_drop_middle l i x Hi) at 2.
  rewrite insert_take_drop by (eapply lookup_lt_Some; eassumption).
  rewrite !filter_app, !filter_cons, !length_app.
  destruct (decide (P x)), (decide (P y)); cbn [length]; lia.
Qed.

Ltac decide_all H :=
  repeat first [ rewrite decide_True in H by reflexivity
               | rewrite decide_False in H by congruence ].

(** What the semaphore does guarantee: however the goroutines are
    scheduled, the number of them that are inside reconnectToDc by way of
    reconnectLogged equals the number of tokens in the semaphore, and is at
    most one. *)
Lemma reconnectLogged_is_exclusive (es : list entry) (schedule : list nat) :
  let s := run schedule (initial es) in
  reconnecting_via ViaReconnectLogged s = reconnSemaphore s
  /\ (reconnSemaphore s <= 1)%nat.
Proof.
  cbn zeta. unfold run.
  assert (Hinit : reconnecting_via ViaReconnectLogged (initial es)
                  = reconnSemaphore (initial es)
                  /\ (reconnSemaphore (initial es) <= 1)%nat).
  { unfold reconnecting_via, initial. cbn [goroutines reconnSemaphore]. split; [|lia].
    induction es as [|e es IH]; [reflexivity|].
    cbn [fmap list_fmap]. rewrite filter_cons.
    rewrite decide_False by congruence. exact IH. }
  revert Hinit. generalize (initial es). clear es.
  induction schedule as [|i schedule IH]; intros s Hs; [exact Hs|].
  cbn [foldl]. apply IH. clear IH. destruct Hs as [Hcount Hle].
  unfold step. destruct (goroutines s !! i) as [[e p]|] eqn:Hi; [|now split].
  destruct (advance e p (reconnSemaphore s)) as [[p' sem']|] eqn:Hadv; [|now split].
  unfold reconnecting_via in *. cbn [goroutines reconnSemaphore].
  pose proof (filter_length_insert
                (fun g => g = (ViaReconnectLogged, InReconnectToDc))
                (goroutines s) i (e, p) (e, p') Hi) as Hlen.
  cbn beta in Hlen.
  destruct e, p; cbn [advance] in Hadv; try discriminate.
  - destruct (reconnSemaphore s <? 1)%nat eqn:Hlt;
      [apply Nat.ltb_lt in Hlt | apply Nat.ltb_ge in Hlt];
      injection Hadv as <- <-;
      decide_all Hlen; split; lia.
  - destruct (reconnSemaphore s) as [|k] eqn:Hsem; [discriminate|].
    injection Hadv as <- <-.
    decide_all Hlen. split; lia.
  - injection Hadv as <- <-.
    decide_all Hlen. split; lia.
  - injection Hadv as <- <-.
    decide_all Hlen. split; lia.
  - injection Hadv as <- <-.
    decide_all Hlen. split; lia.
  - injection Hadv as <- <-.
    decide_all Hlen. split; lia.
Qed.

End SemaphoreFacts.

(** ** The properties at work on the example state *)

Lemma example_state_wf : state_wf example_state.
Proof.
  split; cbn.
  - eauto.
  - intros id p H. apply lookup_singleton_Some in H as [_ <-].
    rewrite lookup_singleton_eq. eauto.
  - intros p pk c Hp Hc. apply lookup_singleton_Some in Hp as [_ <-].
    cbn in Hc. injection Hc as <-. rewrite lookup_singleton_eq.
    eexists. split; [reflexivity|]. cbn. repeat split. lia.
  - intros p1 p2 k1 k2 c H1 H2 _ _.
    apply lookup_singleton_Some in H1 as [<- _].
    now apply lookup_singleton_Some in H2 as [<- _].
  - intros c ch H. apply lookup_singleton_Some in H as [_ <-]. cbn. lia.
Qed.

Lemma SessNoopStore_returns : store_returns SessNoopStore.
Proof. intros s st. now exists st, None. Qed.

Lemma map_to_list_is_an_order (t : gmap Z ptr) : map_to_list t ≡ₚ map_to_list t.
Proof. reflexivity. Qed.

Example acks_of_example_container : acks_of example_container 20 5 = [10; 12; 20].
Proof. reflexivity. Qed.

Example acks_of_even_seq_no : acks_of example_container 20 4 = [10; 12].
Proof. reflexivity. Qed.

Lemma process_acks_odd_seq_no_witness :
  (forall tbl : gmap Z ptr, map_to_list tbl ≡ₚ map_to_list tbl)
  /\ store_returns SessNoopStore
  /\ state_wf example_state
  /\ (length (sendQueue example_state)
      + sends_of example_container 5 (size (msgsByID example_state))
      <= sendQueue_cap)%nat
  /\ exists m' added,
      process map_to_list example_container 20 5 true example_state = Done m'
      /\ state_wf m'
      /\ sendQueue m' = sendQueue example_state ++ added
      /\ new_acks (packets example_state) (packets m') added
         = (fun i => [i]) <$> acks_of example_container 20 5
      /\ acks_of example_container 20 5
         = acks_of example_container 20 0 ++ (if Z.odd 5 then [20] else []).
Proof.
  split; [exact map_to_list_is_an_order|].
  split; [exact SessNoopStore_returns|].
  split; [exact example_state_wf|].
  assert (Hroom : (length (sendQueue example_state)
                   + sends_of example_container 5 (size (msgsByID example_state))
                   <= sendQueue_cap)%nat) by (vm_compute; lia).
  split; [exact Hroom|].
  exact (process_acks_odd_seq_no map_to_list example_state example_container 20 5 true
           map_to_list_is_an_order SessNoopStore_returns example_state_wf Hroom).
Defined.

Lemma bad_server_salt_resends_witness :
  session example_state = Some example_session
  /\ Save (mkSessionInfo 2 [] [] 99 "149.154.167.50:443" 11) (store_state example_state)
     = Done (tt, None)
  /\ (length (sendQueue example_state) + size (msgsByID example_state)
      + (if Z.odd 2 then 1 else 0) <= sendQueue_cap)%nat
  /\ exists m',
      process map_to_list (TL_bad_server_salt 99 []) 30 2 true example_state
      = Done m'
      /\ session m' = Some (mkSessionInfo 2 [] [] 99 "149.154.167.50:443" 11)
      /\ store_state m' = tt
      /\ msgsByID m' = ∅
      /\ chans m' = chans example_state
      /\ (forall p pk, packets example_state !! p = Some pk -> packets m' !! p = Some pk)
      /\ exists ps,
          ps ≡ₚ (map_to_list (msgsByID example_state)).*2
          /\ sendQueue m'
             = sendQueue example_state ++ ps
               ++ (if Z.odd 2 then [fresh (dom (packets example_state))] else []).
Proof.
  split; [reflexivity|]. split; [reflexivity|].
  assert (Hroom : (length (sendQueue example_state) + size (msgsByID example_state)
                   + (if Z.odd 2 then 1 else 0) <= sendQueue_cap)%nat)
    by (vm_compute; lia).
  split; [exact Hroom|].
  exact (bad_server_salt_resends map_to_list example_state 99 [] 30 2 true
           example_session tt None map_to_list_is_an_order eq_refl eq_refl Hroom).
Defined.

Lemma clearPacketData_completes_once_witness :
  state_wf example_state
  /\ exists m',
      clearPacketData 7 (TL_other 200 []) example_state = Done m'
      /\ state_wf m'
      /\ match msgsByID example_state !! 7 with
         | None => m' = example_state
         | Some p =>
           msgsByID m' = delete 7 (msgsByID example_state)
           /\ sendQueue m' = sendQueue example_state
           /\ exists pk,
               packets example_state !! p = Some pk
               /\ match resp pk with
                  | None =>
                    chans m' = chans example_state
                    /\ packets m' = packets example_state
                    /\ log m' = log example_state
                                ++ [(LWarn, "second response to message #%d %#v"%string)]
                  | Some c =>
                    exists ch,
                    chans example_state !! c = Some ch
                    /\ chans m' = <[c := mkChannel [TL_other 200 []] (capacity ch) true]>
                                    (chans example_state)
                    /\ packets m' = <[p := clear_resp pk]> (packets example_state)
                    /\ log m' = log example_state
                  end
         end.
Proof.
  split; [exact example_state_wf|].
  exact (clearPacketData_completes_once example_state 7 (TL_other 200 [])
           example_state_wf).
Defined.

Lemma msgs_ack_clears_and_removes_witness :
  state_wf example_state
  /\ (Z.odd 3 = true -> (length (sendQueue example_state) < sendQueue_cap)%nat)
  /\ exists m',
      process map_to_list (TL_msgs_ack [7; 8]) 30 3 true example_state = Done m'
      /\ chans m' = chans example_state
      /\ (forall id p pk,
             id ∈ [7; 8] -> msgsByID example_state !! id = Some p ->
             packets example_state !! p = Some pk ->
             packets m' !! p
             = Some (mkPacket (msgID pk) (seqNo pk) (msg pk) (resp pk) false)
             /\ msgsByID m' !! id
                = match resp pk with None => None | Some _ => Some p end)
      /\ (forall id, id ∉ [7; 8] -> msgsByID m' !! id = msgsByID example_state !! id)
      /\ (forall id, msgsByID example_state !! id = None -> msgsByID m' !! id = None)
      /\ (forall p pk,
             packets example_state !! p = Some pk ->
             (forall id, id ∈ [7; 8] -> msgsByID example_state !! id <> Some p) ->
             packets m' !! p = Some pk).
Proof.
  assert (Hroom : Z.odd 3 = true -> (length (sendQueue example_state) < sendQueue_cap)%nat)
    by (intros _; vm_compute; lia).
  split; [exact example_state_wf|]. split; [exact Hroom|].
  exact (msgs_ack_clears_and_removes map_to_list example_state [7; 8] 30 3 true
           example_state_wf Hroom).
Defined.

Lemma pingRoutine_enqueues_fixed_ping_witness :
  1 <= routinesWG example_state_running
  /\ routinesStop example_state_running = 0%nat
  /\ (length (sendQueue example_state_running) + 2 <= sendQueue_cap)%nat
  /\ pingRoutine (repeat After60s 2) example_state_running = OutOfFuel
  /\ exists m' ps,
      pingRoutine (repeat After60s 2 ++ [RecvStop]) example_state_running = Done m'
      /\ length ps = 2%nat
      /\ sendQueue m' = sendQueue example_state_running ++ ps
      /\ Forall (fun p => packets example_state_running !! p = None
                          /\ packets m' !! p
                             = Some (mkPacket 0 0 (TL_ping 0xCADACADA) None false)) ps
      /\ (forall p pk, packets example_state_running !! p = Some pk ->
                       packets m' !! p = Some pk)
      /\ routinesStop m' = 0%nat
      /\ routinesWG m' = routinesWG example_state_running - 1
      /\ msgsByID m' = msgsByID example_state_running
      /\ chans m' = chans example_state_running.
Proof.
  assert (H1 : routinesStop example_state_running = 0%nat) by reflexivity.
  assert (H2 : 1 <= routinesWG example_state_running) by (cbn; lia).
  assert (H3 : (length (sendQueue example_state_running) + 2 <= sendQueue_cap)%nat)
    by (vm_compute; lia).
  split; [exact H2|]. split; [exact H1|]. split; [exact H3|].
  exact (proj1 (proj2 (pingRoutine_enqueues_fixed_ping 2 example_state_running H2))
           H1 H3).
Defined.

(** C5 as it is stated does not hold: whatever the random source yields,
    here 7 and then 8, the worker's pings carry 0xCADACADA, so the code does
    not do what a worker sending [ping(random_id)] does. *)
Lemma ping_id_is_not_random :
  first_ping (pingRoutine [After60s; RecvStop] example_state_running)
  = Some (TL_ping 0xCADACADA)
  /\ first_ping (spec_pingRoutine [7; 8] [After60s; RecvStop] example_state_running)
     = Some (TL_ping 7)
  /\ pingRoutine [After60s; RecvStop] example_state_running
     <> spec_pingRoutine [7; 8] [After60s; RecvStop] example_state_running.
Proof.
  assert (H1 : first_ping (pingRoutine [After60s; RecvStop] example_state_running)
               = Some (TL_ping 0xCADACADA)) by (vm_compute; reflexivity).
  assert (H2 : first_ping (spec_pingRoutine [7; 8] [After60s; RecvStop]
                                            example_state_running)
               = Some (TL_ping 7)) by (vm_compute; reflexivity).
  split; [exact H1|]. split; [exact H2|].
  intros E. rewrite E, H2 in H1. discriminate.
Qed.

Lemma reconnectToDc_always_looks_up_witness :
  is_Some (session example_state)
  /\ quiet_network (logf LInfo "reconnecting: DC %d -> %d" example_state)
     = Done (logf LInfo "reconnecting: DC %d -> %d" example_state, None)
  /\ reconnectToDc map_to_list quiet_network quiet_network 2 example_state
     = resend_after_connect
         (map_to_list (msgsByID example_state)).*1
         (quiet_network
            (set_session (Some (set_Dc 2 "149.154.167.50:443" example_session))
               (logf LDebug "found %d pending packet(s)"
                  (logf LInfo "reconnecting: DC %d -> %d" example_state)))).
Proof.
  assert (H0 : is_Some (session example_state)) by (cbn; eauto).
  split; [exact H0|]. split; [reflexivity|].
  exact (proj2 (proj2 (proj2
    (reconnectToDc_always_looks_up map_to_list quiet_network quiet_network
       example_state 2 (logf LInfo "reconnecting: DC %d -> %d" example_state)
       example_session H0 eq_refl eq_refl)))).
Defined.

(** C7 as it is stated does not hold: a reconnect to the current DC, 2,
    succeeds when the DC-options table has an IPv4 option for DC 2 and fails
    with "wrong DC number" when the table is empty; and an IPv6 option for
    DC 2 alone does not help. *)
Lemma reconnect_to_current_dc_needs_the_table :
  DcID example_session = 2
  /\ (exists m', reconnectToDc map_to_list quiet_network quiet_network 2 example_state
                 = Done (m', None))
  /\ (exists m', reconnectToDc map_to_list quiet_network quiet_network 2
                   example_state_no_options
                 = Done (m', Some (Err "wrong DC number: %d"))
                 /\ encryptionReady m' = true)
  /\ DCAddr_loop [mkDcOption 2 true "2001:67c:4e8:f002::a" 443] 2 false
     = (EmptyString, false).
Proof.
  split; [reflexivity|]. split; [|split].
  - eexists. unfold reconnectToDc, example_state, quiet_network. cbn. reflexivity.
  - eexists. unfold reconnectToDc, example_state_no_options, quiet_network. cbn.
    split; reflexivity.
  - reflexivity.
Qed.

(** * Further properties of the code *)

(** ** The primitive readers *)

Lemma le_uint_range (bs : list byte) : 0 <= le_uint bs < 256 ^ Z.of_nat (length bs).
Proof.
  induction bs as [|b bs IH]; cbn [le_uint length].
  - change (256 ^ Z.of_nat 0) with 1. lia.
  - pose proof (byte_to_Z_range b). rewrite Nat2Z.inj_succ, Z.pow_succ_r by lia. lia.
Qed.

Lemma wrap_int_range (x : Z) : - 2^63 <= wrap_int x < 2^63.
Proof.
  unfold wrap_int. pose proof (Z.mod_pos_bound (x + 2^63) (2^64)). lia.
Qed.

Lemma wrap_int_small_32 (x : Z) : - 2^31 <= x < 2^31 -> wrap_int32 x = x.
Proof.
  intros H. unfold wrap_int32. rewrite Z.mod_small; lia.
Qed.

Lemma wrap_int32_range (x : Z) : - 2^31 <= wrap_int32 x < 2^31.
Proof.
  unfold wrap_int32. pose proof (Z.mod_pos_bound (x + 2^31) (2^32)). lia.
Qed.

Lemma length_slice (b : list byte) (lo hi : Z) (bs : list byte) :
  slice b lo hi = Some bs -> Z.of_nat (length bs) = hi - lo.
Proof.
  unfold slice.
  destruct (Z.leb_spec 0 lo); [|discriminate].
  destruct (Z.leb_spec lo hi); [|discriminate].
  destruct (Z.leb_spec hi (Z.of_nat (length b))); [|discriminate].
  cbn [andb]. intros [= <-]. rewrite length_take, length_drop. lia.
Qed.

(** What the common body of Long, Int, UInt and Double does on a
    well-formed decoder without error. *)
Lemma fixed_cases (n : Z) (name : string) (conv : Z -> Z) (d : Decode.DecodeBuf) :
  decoder_wf d -> Decode.err d = None -> 0 <= n <= 8 ->
  (Decode.off d + n <= Decode.size d ->
   exists bs, Z.of_nat (length bs) = n
              /\ slice (Decode.buf d) (Decode.off d) (Decode.off d + n) = Some bs
              /\ Decode.fixed n name conv d
                 = Done (conv (le_uint bs), Decode.set_off (Decode.off d + n) d))
  /\ (Decode.size d < Decode.off d + n ->
      Decode.fixed n name conv d = Done (0, Decode.set_err name d)).
Proof.
  intros (Hsize & Hoff & Hlen) Herr Hn. unfold Decode.fixed, Decode.failed.
  rewrite Herr, int_add_small by lia. split; intros H.
  - destruct (Z.gtb_spec (Decode.off d + n) (Decode.size d)); [lia|].
    rewrite slice_in_range by lia. eexists. split; [|split; reflexivity].
    rewrite length_take, length_drop. lia.
  - destruct (Z.gtb_spec (Decode.off d + n) (Decode.size d)); [reflexivity|lia].
Qed.

(** X1. On a well-formed decoder without error, Long, Int, UInt and Double
    never panic.  With enough bytes left they advance the offset by 8, 4, 4
    and 8 and return a value of their type: an int64, an int32, a uint32, a
    64-bit pattern.  With fewer bytes left they return 0, set the error and
    leave the offset where it was. *)
Theorem primitive_readers_cases (d : Decode.DecodeBuf)
        (Hwf : decoder_wf d) (Herr : Decode.err d = None) :
  let left := Decode.size d - Decode.off d in
  (if 8 <=? left
   then exists v, Decode.Long d = Done (v, Decode.set_off (Decode.off d + 8) d)
                  /\ - 2^63 <= v < 2^63
   else Decode.Long d = Done (0, Decode.set_err "DecodeLong" d))
  /\ (if 4 <=? left
      then exists v, Decode.Int d = Done (v, Decode.set_off (Decode.off d + 4) d)
                     /\ - 2^31 <= v < 2^31
      else Decode.Int d = Done (0, Decode.set_err "DecodeInt" d))
  /\ (if 4 <=? left
      then exists v, Decode.UInt d = Done (v, Decode.set_off (Decode.off d + 4) d)
                     /\ 0 <= v < 2^32
      else Decode.UInt d = Done (0, Decode.set_err "DecodeUInt" d))
  /\ (if 8 <=? left
      then exists v, Decode.Double d = Done (v, Decode.set_off (Decode.off d + 8) d)
                     /\ 0 <= v < 2^64
      else Decode.Double d = Done (0, Decode.set_err "DecodeDouble" d)).
Proof.
  intros left. subst left.
  assert (H8 : 0 <= 8 <= 8) by lia. assert (H4 : 0 <= 4 <= 8) by lia.
  repeat split.
  - destruct (fixed_cases 8 "DecodeLong" wrap_int d Hwf Herr H8) as [Hok Hshort].
    destruct (Z.leb_spec 8 (Decode.size d - Decode.off d)).
    + destruct Hok as (bs & _ & _ & E); [lia|]. eexists. split; [exact E|].
      apply wrap_int_range.
    + apply Hshort. lia.
  - destruct (fixed_cases 4 "DecodeInt" wrap_int32 d Hwf Herr H4) as [Hok Hshort].
    destruct (Z.leb_spec 4 (Decode.size d - Decode.off d)).
    + destruct Hok as (bs & _ & _ & E); [lia|]. eexists. split; [exact E|].
      apply wrap_int32_range.
    + apply Hshort. lia.
  - destruct (fixed_cases 4 "DecodeUInt" (fun x => x) d Hwf Herr H4) as [Hok Hshort].
    destruct (Z.leb_spec 4 (Decode.size d - Decode.off d)).
    + destruct Hok as (bs & Hl & _ & E); [lia|]. eexists. split; [exact E|].
      pose proof (le_uint_range bs) as R. rewrite Hl in R. exact R.
    + apply Hshort. lia.
  - destruct (fixed_cases 8 "DecodeDouble" (fun x => x) d Hwf Herr H8) as [Hok Hshort].
    destruct (Z.leb_spec 8 (Decode.size d - Decode.off d)).
    + destruct Hok as (bs & Hl & _ & E); [lia|]. eexists. split; [exact E|].
      pose proof (le_uint_range bs) as R. rewrite Hl in R. exact R.
    + apply Hshort. lia.
Qed.

Lemma primitive_readers_cases_witness :
  let d := Decode.NewDecodeBuf [xff; xff; xff; xff; x01; x00] in
  decoder_wf d /\ Decode.err d = None
  /\ Decode.Long d = Done (0, Decode.set_err "DecodeLong" d)
  /\ exists v, Decode.Int d = Done (v, Decode.set_off 4 d) /\ - 2^31 <= v < 2^31.
Proof.
  intros d.
  assert (Hwf : decoder_wf d) by (subst d; repeat split; cbn; lia).
  assert (Herr : Decode.err d = None) by reflexivity.
  split; [exact Hwf|]. split; [exact Herr|].
  pose proof (primitive_readers_cases d Hwf Herr) as (HL & HI & _).
  split; [exact HL|exact HI].
Defined.

Example Int_reads_minus_one :
  Decode.Int (Decode.NewDecodeBuf [xff; xff; xff; xff; x01; x00])
  = Done (-1, Decode.mkDecodeBuf [xff; xff; xff; xff; x01; x00] 4 6 None).
Proof. reflexivity. Qed.

(** X2. Bytes on a well-formed decoder without error: a size that fits
    yields exactly that many bytes, those at the offset, and advances by the
    size; a size beyond the end sets the error without moving; a negative
    size passes the bounds test and panics in [make]. *)
Theorem Bytes_cases (sz : Z) (d : Decode.DecodeBuf)
        (Hwf : decoder_wf d) (Herr : Decode.err d = None)
        (Hsz : - 2^62 <= sz < 2^62) :
  (0 <= sz -> Decode.off d + sz <= Decode.size d ->
   exists bs, Decode.Bytes sz d = Done (bs, Decode.set_off (Decode.off d + sz) d)
              /\ Z.of_nat (length bs) = sz
              /\ bs = take (Z.to_nat sz) (drop (Z.to_nat (Decode.off d)) (Decode.buf d)))
  /\ (Decode.size d < Decode.off d + sz ->
      Decode.Bytes sz d = Done ([], Decode.set_err "DecodeBytes" d))
  /\ (sz < 0 -> Decode.Bytes sz d = Panicked).
Proof.
  destruct Hwf as (Hsize & Hoff & Hlen). unfold Decode.Bytes, Decode.failed.
  rewrite Herr, int_add_small by lia. repeat split.
  - intros H0 Hfit.
    destruct (Z.gtb_spec (Decode.off d + sz) (Decode.size d)); [lia|].
    destruct (Z.ltb_spec sz 0); [lia|].
    rewrite slice_in_range by lia. eexists. split; [reflexivity|]. split.
    + rewrite length_take, length_drop. lia.
    + f_equal. lia.
  - intros H. destruct (Z.gtb_spec (Decode.off d + sz) (Decode.size d)); [reflexivity|lia].
  - intros H. destruct (Z.gtb_spec (Decode.off d + sz) (Decode.size d)); [lia|].
    destruct (Z.ltb_spec sz 0); [reflexivity|lia].
Qed.

Lemma Bytes_cases_witness :
  let d := Decode.NewDecodeBuf [x01; x02; x03] in
  decoder_wf d /\ Decode.err d = None /\ - 2^62 <= -1 < 2^62
  /\ Decode.Bytes (-1) d = Panicked.
Proof.
  intros d.
  assert (Hwf : decoder_wf d) by (subst d; repeat split; cbn; lia).
  assert (Hsz : - 2^62 <= -1 < 2^62) by lia.
  split; [exact Hwf|]. split; [reflexivity|]. split; [exact Hsz|].
  apply (Bytes_cases (-1) d Hwf eq_refl Hsz). lia.
Defined.

(** ** Strings *)

Ltac err_case :=
  unfold decoder_wf; cbn; repeat split; try lia; try assumption; try reflexivity;
  try discriminate; try (intros; reflexivity).

Lemma StringBytes_body_cases (sz padding : Z) (m : Decode.DecodeBuf) :
  decoder_wf m -> Decode.err m = None -> 0 <= sz < 2^24 -> 0 <= padding < 4 ->
  exists r m',
    Decode.StringBytes_body sz padding m = Done (r, m')
    /\ decoder_wf m' /\ Decode.buf m' = Decode.buf m
    /\ (Decode.err m' <> None -> r = [])
    /\ (Decode.err m' = None ->
        Decode.err m = None /\ Z.of_nat (length r) = sz
        /\ Decode.off m' = Decode.off m + sz + padding).
Proof.
  intros (Hsize & Hoff & Hlen) Herr Hsz Hpad. unfold Decode.StringBytes_body.
  rewrite (int_add_small (Decode.off m) sz) by lia.
  destruct (Z.gtb_spec (Decode.off m + sz) (Decode.size m)) as [Hgt|Hle].
  { eexists _, _. split; [reflexivity|]. cbn. err_case. }
  rewrite slice_in_range by lia. cbn [Decode.off Decode.size Decode.set_off].
  rewrite (int_add_small (Decode.off m + sz) padding) by lia.
  destruct (Z.gtb_spec (Decode.off m + sz + padding) (Decode.size m)).
  { eexists _, _. split; [reflexivity|]. cbn. err_case. }
  eexists _, _. split; [reflexivity|]. unfold decoder_wf. cbn.
  repeat split; try lia; try assumption.
  - intros Hbad. contradiction.
  - rewrite length_take, length_drop. lia.
Qed.

Lemma aligned_short (n : Z) : 0 <= n -> (1 + n + (4 - (n + 1) mod 4) mod 4) mod 4 = 0.
Proof. intros H. Z.div_mod_to_equations. lia. Qed.

Lemma aligned_long (n : Z) : 0 <= n -> (4 + n + (4 - n mod 4) mod 4) mod 4 = 0.
Proof. intros H. Z.div_mod_to_equations. lia. Qed.

(** X3. StringBytes never panics on a well-formed decoder and leaves it
    well-formed, over the same buffer.  When it sets the error it returns
    nil.  When it does not, it has consumed a multiple of four bytes: the
    length prefix (one byte, or four when the first byte is 254), the string
    and up to three bytes of padding. *)
Theorem StringBytes_consumes_aligned (d : Decode.DecodeBuf) (Hwf : decoder_wf d) :
  exists s d',
    Decode.StringBytes d = Done (s, d')
    /\ decoder_wf d' /\ Decode.buf d' = Decode.buf d
    /\ (Decode.err d' <> None -> s = [])
    /\ (Decode.err d' = None ->
        let used := Decode.off d' - Decode.off d in
        used mod 4 = 0
        /\ Z.of_nat (length s) + 1 <= used <= Z.of_nat (length s) + 7).
Proof.
  pose proof Hwf as (Hsize & Hoff & Hlen). unfold Decode.StringBytes, Decode.failed.
  destruct (Decode.err d) as [e|] eqn:Herr.
  { exists [], d. split; [reflexivity|]. split; [assumption|].
    split; [reflexivity|]. split; [reflexivity|]. intros H. congruence. }
  rewrite (int_add_small (Decode.off d) 1) by lia.
  destruct (Z.gtb_spec (Decode.off d + 1) (Decode.size d)) as [Hgt|Hle].
  { eexists _, _. split; [reflexivity|]. cbn. err_case. }
  destruct (index_in_range (Decode.buf d) (Decode.off d)) as [b0 Hb0]; [lia|].
  rewrite Hb0. cbn [Decode.off Decode.size Decode.buf Decode.set_off].
  pose proof (byte_to_Z_range b0) as Hb.
  destruct (Z.eqb_spec (byte_to_Z b0) 254) as [E|NE].
  - rewrite (int_add_small (Decode.off d + 1) 3) by lia.
    destruct (Z.gtb_spec (Decode.off d + 1 + 3) (Decode.size d)) as [Hgt3|Hle3].
    { eexists _, _. split; [reflexivity|]. cbn. err_case. }
    rewrite (int_add_small (Decode.off d + 1) 1) by lia.
    rewrite (int_add_small (Decode.off d + 1) 2) by lia.
    destruct (index_in_range (Decode.buf d) (Decode.off d + 1)) as [b1 ->]; [lia|].
    destruct (index_in_range (Decode.buf d) (Decode.off d + 1 + 1)) as [b2 ->]; [lia|].
    destruct (index_in_range (Decode.buf d) (Decode.off d + 1 + 2)) as [b3 ->]; [lia|].
    pose proof (three_byte_size_range b1 b2 b3) as Hsz.
    set (sz := Z.lor _ _) in *.
    destruct (StringBytes_body_cases sz (Z.land (wrap_int (4 - Z.rem sz 4)) 3)
                (Decode.set_off (Decode.off d + 1 + 3)
                   (Decode.set_off (Decode.off d + 1) d)))
      as (r & d' & Eb & Hwf' & Hbuf & Hnil & Hok).
    { repeat split; cbn; lia. }
    { exact Herr. }
    { exact Hsz. }
    { apply land_3_range. }
    exists r, d'. split; [exact Eb|]. split; [exact Hwf'|]. split; [exact Hbuf|].
    split; [exact Hnil|]. intros Hnone. destruct (Hok Hnone) as (_ & Hl & Ho).
    cbn in Ho. rewrite decoder_padding in Ho by lia.
    pose proof (aligned_long sz ltac:(lia)) as Ha.
    pose proof (Z.mod_pos_bound (4 - sz mod 4) 4 ltac:(lia)).
    replace (Decode.off d' - Decode.off d) with (4 + sz + (4 - sz mod 4) mod 4) by lia.
    split; [exact Ha|lia].
  - destruct (StringBytes_body_cases (byte_to_Z b0)
                (Z.land (wrap_int (4 - Z.rem (int_add (byte_to_Z b0) 1) 4)) 3)
                (Decode.set_off (Decode.off d + 1) d))
      as (r & d' & Eb & Hwf' & Hbuf & Hnil & Hok).
    { repeat split; cbn; lia. }
    { exact Herr. }
    { lia. }
    { apply land_3_range. }
    exists r, d'. split; [exact Eb|]. split; [exact Hwf'|]. split; [exact Hbuf|].
    split; [exact Hnil|]. intros Hnone. destruct (Hok Hnone) as (_ & Hl & Ho).
    cbn in Ho. rewrite int_add_small, decoder_padding in Ho by lia.
    pose proof (aligned_short (byte_to_Z b0) ltac:(lia)) as Ha.
    pose proof (Z.mod_pos_bound (4 - (byte_to_Z b0 + 1) mod 4) 4 ltac:(lia)).
    replace (Decode.off d' - Decode.off d)
      with (1 + byte_to_Z b0 + (4 - (byte_to_Z b0 + 1) mod 4) mod 4) by lia.
    split; [exact Ha|lia].
Qed.

Lemma StringBytes_consumes_aligned_witness :
  let d := Decode.NewDecodeBuf [x02; x61; x62; x00; x09] in
  decoder_wf d
  /\ exists s d',
      Decode.StringBytes d = Done (s, d')
      /\ decoder_wf d' /\ Decode.buf d' = Decode.buf d
      /\ (Decode.err d' <> None -> s = [])
      /\ (Decode.err d' = None ->
          let used := Decode.off d' - Decode.off d in
          used mod 4 = 0
          /\ Z.of_nat (length s) + 1 <= used <= Z.of_nat (length s) + 7).
Proof.
  intros d.
  assert (Hwf : decoder_wf d) by (subst d; repeat split; cbn; lia).
  split; [exact Hwf|]. exact (StringBytes_consumes_aligned d Hwf).
Defined.

(** ** Optional fields *)

Lemma land_pow2 (a n : Z) :
  0 <= n -> Z.land a (2 ^ n) = if Z.testbit a n then 2 ^ n else 0.
Proof.
  intros Hn. apply Z.bits_inj'. intros i Hi.
  rewrite Z.land_spec, Z.pow2_bits_eqb by assumption.
  destruct (Z.eqb_spec n i) as [->|Hne].
  - destruct (Z.testbit a i); cbn [andb].
    + rewrite Z.pow2_bits_eqb by assumption. symmetry. apply Z.eqb_refl.
    + symmetry. apply Z.bits_0.
  - rewrite andb_false_r. destruct (Z.testbit a n).
    + rewrite Z.pow2_bits_eqb by assumption. symmetry. now apply Z.eqb_neq.
    + symmetry. apply Z.bits_0.
Qed.

Lemma land_sign_bit (a : Z) :
  - 2^31 <= a < 2^31 -> (Z.land a (- 2^31) =? 0) = negb (Z.testbit a 31).
Proof.
  intros Ha.
  change (- 2^31) with (Z.lnot (Z.ones 31)).
  change (Z.land a (Z.lnot (Z.ones 31))) with (Z.ldiff a (Z.ones 31)).
  rewrite Z.ldiff_ones_r by lia.
  rewrite Z.shiftl_mul_pow2, Z.shiftr_div_pow2 by lia.
  replace (Z.testbit a 31) with (Z.odd (a / 2^31)).
  2:{ rewrite <- Z.bit0_odd, <- Z.shiftr_div_pow2 by lia.
      rewrite Z.shiftr_spec by lia. reflexivity. }
  assert (a / 2^31 = 0 \/ a / 2^31 = -1) as [E|E].
  { change (2^31) with 2147483648 in *. Z.div_mod_to_equations. lia. }
  - rewrite E. reflexivity.
  - rewrite E. reflexivity.
Qed.

Lemma flag_bit_cases (num : Z) :
  (0 <= num < 31 -> Decode.flag_bit num = 2 ^ num)
  /\ (num = 31 -> Decode.flag_bit num = - 2^31)
  /\ (num < 0 \/ 32 <= num -> Decode.flag_bit num = 0).
Proof.
  unfold Decode.flag_bit. repeat split.
  - intros H. destruct (Z.ltb_spec num 0); [lia|].
    apply wrap_int_small_32.
    assert (0 < 2 ^ num) by (apply Z.pow_pos_nonneg; lia).
    assert (2 ^ num <= 2 ^ 30) by (apply Z.pow_le_mono_r; lia).
    change (2^31) with (2 * 2^30). lia.
  - intros ->. reflexivity.
  - intros [H|H]; destruct (Z.ltb_spec num 0); try lia; try reflexivity.
    unfold wrap_int32.
    replace (2 ^ num) with (2 ^ (num - 32) * 2 ^ 32)
      by (rewrite <- Z.pow_add_r by lia; f_equal; lia).
    rewrite Z.add_comm, Z.mod_add by lia. reflexivity.
Qed.

(** X4. The Flagged readers (FlaggedLong, FlaggedInt, FlaggedString, ...)
    read a field exactly when bit [num] of the int32 [flags] is set, bit 31
    being the sign bit; otherwise they return the zero value and leave the
    decoder untouched.  For a bit number below 0 or above 31 they never
    read, whatever the flags. *)
Theorem flagged_reads_iff_bit {A} (zero : A) (rd : Decode.reader A)
        (flags num : Z) (d : Decode.DecodeBuf)
        (Hflags : - 2^31 <= flags < 2^31) :
  (0 <= num <= 31 ->
   Decode.flagged zero rd flags num d
   = if Z.testbit flags num then rd d else Done (zero, d))
  /\ (num < 0 \/ 32 <= num -> Decode.flagged zero rd flags num d = Done (zero, d)).
Proof.
  destruct (flag_bit_cases num) as (Hlow & H31 & Hout).
  unfold Decode.flagged. split.
  - intros Hnum. destruct (Z.eq_dec num 31) as [->|Hne].
    + rewrite (H31 eq_refl), land_sign_bit by assumption.
      now destruct (Z.testbit flags 31).
    + rewrite Hlow, land_pow2 by lia.
      assert (0 < 2 ^ num) by (apply Z.pow_pos_nonneg; lia).
      destruct (Z.testbit flags num).
      * destruct (Z.eqb_spec (2 ^ num) 0); [lia|reflexivity].
      * reflexivity.
  - intros H. rewrite (Hout H), Z.land_0_r. reflexivity.
Qed.

Lemma flagged_reads_iff_bit_witness :
  let d := Decode.NewDecodeBuf [x07; x00; x00; x00] in
  - 2^31 <= 5 < 2^31
  /\ Decode.FlaggedInt 5 2 d = Decode.Int d
  /\ Decode.FlaggedInt 5 1 d = Done (0, d)
  /\ Decode.FlaggedInt 5 32 d = Done (0, d).
Proof.
  intros d. assert (H : - 2^31 <= 5 < 2^31) by lia.
  split; [exact H|]. split; [|split].
  - apply (proj1 (flagged_reads_iff_bit 0 Decode.Int 5 2 d H)). lia.
  - apply (proj1 (flagged_reads_iff_bit 0 Decode.Int 5 1 d H)). lia.
  - apply (proj2 (flagged_reads_iff_bit 0 Decode.Int 5 32 d H)). lia.
Defined.

(** ** Vectors and objects *)

Lemma read_items_nil_on_error {A} (rd : Decode.reader A) (n : nat) :
  forall (acc : list A) (m : Decode.DecodeBuf) r m',
    Decode.read_items rd n acc m = Done (r, m') ->
    Decode.failed m = false -> Decode.failed m' = true -> r = [].
Proof.
  induction n as [|n IH]; intros acc m r m' E Hm Hm'; cbn [Decode.read_items] in E.
  - injection E as <- <-. congruence.
  - destruct (rd m) as [[y m1]| | |]; cbn [obind] in E; try discriminate.
    destruct (Decode.failed m1) eqn:F1.
    + now injection E as <- <-.
    + eapply IH; eassumption.
Qed.

Lemma vector_of_nil_on_error {A} (name : string) (rd : Decode.reader A)
      (m : Decode.DecodeBuf) r m' :
  Decode.vector_of name rd m = Done (r, m') -> Decode.failed m' = true -> r = [].
Proof.
  unfold Decode.vector_of. intros E Hm'.
  destruct (Decode.UInt m) as [[c m1]| | |]; cbn [obind] in E; try discriminate.
  destruct (Decode.failed m1) eqn:F1; [now injection E as <- <-|].
  destruct (negb (c =? Decode.CRC_vector)); [now injection E as <- <-|].
  destruct (Decode.Int m1) as [[sz m2]| | |]; cbn [obind] in E; try discriminate.
  destruct (Decode.failed m2) eqn:F2; [now injection E as <- <-|].
  destruct (sz <? 0); [now injection E as <- <-|].
  eapply read_items_nil_on_error; eassumption.
Qed.

Section ObjectFacts.

Variables CRC_msg_container CRC_rpc_result CRC_gzip_packed : Z.
Variable ObjectGenerated : Z -> Decode.reader TL.
Variable gunzip : list byte -> option (list byte).

Local Abbreviation Object :=
  (Decode.Object CRC_msg_container CRC_rpc_result CRC_gzip_packed
                 ObjectGenerated gunzip).
Local Abbreviation Vector :=
  (Decode.Vector CRC_msg_container CRC_rpc_result CRC_gzip_packed
                 ObjectGenerated gunzip).

Ltac finish_case E :=
  match type of E with
  | (if Decode.failed ?m then _ else _) = _ =>
    let F := fresh "F" in
    destruct (Decode.failed m) eqn:F; injection E as <- <-; [reflexivity|congruence]
  end.

(** X5. The decoder never hands out a value together with an error: when
    Object returns with the decoder's error set, the object is nil, and when
    a vector reader (VectorInt, VectorLong, VectorString, Vector) does, the
    slice is nil, whatever was decoded before the error. *)
Theorem no_value_with_error :
  (forall fuel d r d',
      Object fuel d = Done (r, d') -> Decode.err d' <> None -> r = TL_null)
  /\ (forall d r d',
         Decode.VectorInt d = Done (r, d') -> Decode.err d' <> None -> r = [])
  /\ (forall d r d',
         Decode.VectorLong d = Done (r, d') -> Decode.err d' <> None -> r = [])
  /\ (forall d r d',
         Decode.VectorString d = Done (r, d') -> Decode.err d' <> None -> r = [])
  /\ (forall fuel d r d',
         Vector fuel d = Done (r, d') -> Decode.err d' <> None -> r = []).
Proof.
  assert (Hf : forall d : Decode.DecodeBuf,
             Decode.err d <> None -> Decode.failed d = true).
  { intros d H. unfold Decode.failed. destruct (Decode.err d); congruence. }
  split; [|repeat split; intros; eapply vector_of_nil_on_error; eauto].
  intros fuel d r d' E Herr. apply Hf in Herr.
  destruct fuel as [|fuel]; [discriminate|]. cbn [Decode.Object] in E.
  destruct (Decode.UInt d) as [[c m1]| | |]; cbn [obind] in E; try discriminate.
  destruct (Decode.failed m1) eqn:F1; [now injection E as <- <-|].
  destruct (c =? CRC_msg_container).
  { destruct (Decode.Int m1) as [[sz m2]| | |]; cbn [obind] in E; try discriminate.
    destruct (sz <? 0); [discriminate|].
    destruct (Decode.container_items _ _ _ m2) as [[arr m3]| | |];
      cbn [obind] in E; try discriminate.
    destruct arr as [arr|]; [finish_case E|now injection E as <- <-]. }
  destruct (c =? CRC_rpc_result).
  { destruct (Decode.Long m1) as [[req m2]| | |]; cbn [obind] in E; try discriminate.
    destruct (Object fuel m2) as [[o m3]| | |]; cbn [obind] in E; try discriminate.
    finish_case E. }
  destruct (c =? CRC_gzip_packed).
  { destruct (Decode.StringBytes m1) as [[packed m2]| | |];
      cbn [obind] in E; try discriminate.
    destruct (gunzip packed) as [unpacked|]; [|discriminate].
    destruct (Object fuel (Decode.NewDecodeBuf unpacked)) as [[o m3]| | |];
      cbn [obind] in E; try discriminate.
    finish_case E. }
  destruct (ObjectGenerated c m1) as [[o m2]| | |]; cbn [obind] in E; try discriminate.
  finish_case E.
Qed.

End ObjectFacts.

Lemma no_value_with_error_witness :
  let d := Decode.NewDecodeBuf [x15; xc4; xb5; x1c; x02; x00; x00; x00;
                                x07; x00; x00; x00] in
  exists d',
    Decode.VectorInt d = Done ([], d') /\ Decode.err d' <> None.
Proof.
  intros d.
  destruct (Decode.VectorInt d) as [[r d']| | |] eqn:E; try (vm_compute in E; discriminate).
  assert (Herr : Decode.err d' <> None).
  { vm_compute in E. injection E as <- <-. discriminate. }
  exists d'. split; [|exact Herr]. f_equal. f_equal.
  exact (proj1 (proj2 (no_value_with_error 1 2 3 (fun _ m => Done (TL_null, m))
                         (fun _ => None))) d r d' E Herr).
Defined.

Lemma wrap_int32_of_uint32 (v : Z) : - 2^31 <= v < 2^31 -> wrap_int32 (v mod 2^32) = v.
Proof.
  intros H. unfold wrap_int32.
  change (2^31) with 2147483648 in *. change (2^32) with 4294967296.
  Z.div_mod_to_equations. lia.
Qed.

(** A fixed-width reader gives back the number whose little-endian bytes
    stand at the offset. *)
Lemma fixed_decodes (k : nat) (name : string) (conv : Z -> Z)
      (pre : list byte) (v : Z) (rest : list byte) (d : Decode.DecodeBuf) :
  Decode.buf d = pre ++ le_bytes k v ++ rest ->
  Decode.off d = Z.of_nat (length pre) ->
  Decode.size d = Z.of_nat (length (Decode.buf d)) ->
  Decode.size d < 2^62 ->
  Decode.err d = None ->
  (k <= 8)%nat ->
  Decode.fixed (Z.of_nat k) name conv d
  = Done (conv (v mod 256 ^ Z.of_nat k),
          Decode.set_off (Z.of_nat (length pre) + Z.of_nat k) d).
Proof.
  destruct d as [b o sz e]. cbn [Decode.buf Decode.off Decode.size Decode.err].
  intros -> -> Hsize Hlen -> Hk.
  assert (Hfit : Z.of_nat (length pre) + Z.of_nat k <= sz).
  { rewrite Hsize, !length_app, length_le_bytes. lia. }
  unfold Decode.fixed, Decode.failed.
  cbn [Decode.buf Decode.off Decode.size Decode.err].
  rewrite int_add_small by lia.
  destruct (Z.gtb_spec (Z.of_nat (length pre) + Z.of_nat k) sz); [lia|].
  replace (Z.of_nat k) with (Z.of_nat (length (le_bytes k v))) at 1
    by (now rewrite length_le_bytes).
  now rewrite slice_middle, le_uint_le_bytes.
Qed.

Lemma length_flat_le_bytes (k : nat) (xs : list Z) :
  length (flat_map (le_bytes k) xs) = (k * length xs)%nat.
Proof.
  induction xs as [|x xs IH]; cbn [flat_map length]; [lia|].
  rewrite length_app, length_le_bytes, IH. lia.
Qed.

Lemma read_items_fixed (k : nat) (name : string) (conv : Z -> Z) (xs : list Z) :
  (k <= 8)%nat ->
  Forall (fun x => conv (x mod 256 ^ Z.of_nat k) = x) xs ->
  forall (pre : list byte) (acc : list Z) (rest : list byte) (d : Decode.DecodeBuf),
    Decode.buf d = pre ++ flat_map (le_bytes k) xs ++ rest ->
    Decode.off d = Z.of_nat (length pre) ->
    Decode.size d = Z.of_nat (length (Decode.buf d)) ->
    Decode.size d < 2^62 ->
    Decode.err d = None ->
    Decode.read_items (Decode.fixed (Z.of_nat k) name conv) (length xs) acc d
    = Done (acc ++ xs,
            Decode.set_off (Z.of_nat (length pre) + Z.of_nat (k * length xs)) d).
Proof.
  intros Hk Hxs. induction Hxs as [|x xs Hx _ IH];
    intros pre acc rest d Hbuf Hoff Hsize Hlen Herr; cbn [length Decode.read_items].
  - rewrite app_nil_r, Nat.mul_0_r, Z.add_0_r. rewrite <- Hoff. now destruct d.
  - cbn [flat_map] in Hbuf. rewrite <- app_assoc in Hbuf.
    rewrite (fixed_decodes k name conv pre x _ d Hbuf Hoff Hsize Hlen Herr Hk).
    cbn [obind]. unfold Decode.failed at 1. cbn [Decode.err Decode.set_off].
    rewrite Herr, Hx.
    rewrite (IH (pre ++ le_bytes k x) (acc ++ [x]) rest).
    + rewrite <- app_assoc. cbn [app]. do 2 f_equal.
      unfold Decode.set_off. cbn. f_equal. rewrite length_app, length_le_bytes. lia.
    + cbn. rewrite Hbuf. now rewrite <- app_assoc.
    + cbn. rewrite length_app, length_le_bytes. lia.
    + cbn. assumption.
    + cbn. assumption.
    + cbn. assumption.
Qed.

(** A vector of fixed-width items, framed as the decoder expects it. *)
Lemma vector_of_fixed (k : nat) (name item : string) (conv : Z -> Z) (xs : list Z)
      (pre rest : list byte) (d : Decode.DecodeBuf) :
  (k <= 8)%nat ->
  Forall (fun x => conv (x mod 256 ^ Z.of_nat k) = x) xs ->
  Z.of_nat (length xs) < 2^31 ->
  Decode.buf d = pre ++ le_bytes 4 Decode.CRC_vector
                     ++ le_bytes 4 (Z.of_nat (length xs))
                     ++ flat_map (le_bytes k) xs ++ rest ->
  Decode.off d = Z.of_nat (length pre) ->
  Decode.size d = Z.of_nat (length (Decode.buf d)) ->
  Decode.size d < 2^62 ->
  Decode.err d = None ->
  Decode.vector_of name (Decode.fixed (Z.of_nat k) item conv) d
  = Done (xs, Decode.set_off
                (Z.of_nat (length pre) + 8 + Z.of_nat (k * length xs)) d).
Proof.
  intros Hk Hxs Hn Hbuf Hoff Hsize Hlen Herr. unfold Decode.vector_of, Decode.UInt.
  change (Decode.fixed 4) with (Decode.fixed (Z.of_nat 4)).
  rewrite (fixed_decodes 4 "DecodeUInt" (fun x => x) pre Decode.CRC_vector _ d
             Hbuf Hoff Hsize Hlen Herr ltac:(lia)).
  cbn [obind]. unfold Decode.failed at 1. cbn [Decode.err Decode.set_off]. rewrite Herr.
  change (Decode.CRC_vector mod 256 ^ Z.of_nat 4 =? Decode.CRC_vector) with true.
  cbn [negb]. unfold Decode.Int.
  change (Decode.fixed 4) with (Decode.fixed (Z.of_nat 4)).
  rewrite (fixed_decodes 4 "DecodeInt" wrap_int32 (pre ++ le_bytes 4 Decode.CRC_vector)
             (Z.of_nat (length xs)) (flat_map (le_bytes k) xs ++ rest));
    [ | cbn; rewrite Hbuf; now rewrite <- app_assoc
      | cbn; rewrite length_app; cbn [length le_bytes]; lia
      | cbn; assumption | cbn; assumption | cbn; assumption | lia ].
  cbn [obind]. unfold Decode.failed at 1. cbn [Decode.err Decode.set_off]. rewrite Herr.
  change (256 ^ Z.of_nat 4) with (2^32). rewrite wrap_int32_of_uint32 by lia.
  destruct (Z.ltb_spec (Z.of_nat (length xs)) 0); [lia|]. rewrite Nat2Z.id.
  rewrite (read_items_fixed k item conv xs Hk Hxs
             ((pre ++ le_bytes 4 Decode.CRC_vector) ++ le_bytes 4 (Z.of_nat (length xs)))
             [] rest).
  - cbn [app]. do 2 f_equal. unfold Decode.set_off. cbn. f_equal.
    rewrite !length_app. cbn [length le_bytes]. lia.
  - cbn. rewrite Hbuf. now rewrite <- !app_assoc.
  - cbn. rewrite !length_app. cbn [length le_bytes]. lia.
  - cbn. assumption.
  - cbn. assumption.
  - cbn. assumption.
Qed.

(** X6. VectorLong and VectorInt read back a framed vector: behind the
    constructor number 0x1cb5c415 and the count, both four bytes
    little-endian, the items in eight or four bytes each.  The result is the
    list of the items and the offset stands behind the last one. *)
Theorem vectors_decode (xs : list Z) (pre rest : list byte) (d : Decode.DecodeBuf)
        (Hn : Z.of_nat (length xs) < 2^31)
        (Hoff : Decode.off d = Z.of_nat (length pre))
        (Hsize : Decode.size d = Z.of_nat (length (Decode.buf d)))
        (Hlen : Decode.size d < 2^62)
        (Herr : Decode.err d = None) :
  (Forall (fun x => - 2^63 <= x < 2^63) xs ->
   Decode.buf d = pre ++ le_bytes 4 0x1cb5c415 ++ le_bytes 4 (Z.of_nat (length xs))
                      ++ flat_map (le_bytes 8) xs ++ rest ->
   Decode.VectorLong d
   = Done (xs, Decode.set_off
                 (Z.of_nat (length pre) + 8 + 8 * Z.of_nat (length xs)) d))
  /\ (Forall (fun x => - 2^31 <= x < 2^31) xs ->
      Decode.buf d = pre ++ le_bytes 4 0x1cb5c415 ++ le_bytes 4 (Z.of_nat (length xs))
                         ++ flat_map (le_bytes 4) xs ++ rest ->
      Decode.VectorInt d
      = Done (xs, Decode.set_off
                    (Z.of_nat (length pre) + 8 + 4 * Z.of_nat (length xs)) d)).
Proof.
  split; intros Hxs Hbuf.
  - unfold Decode.VectorLong, Decode.Long.
    change (Decode.fixed 8) with (Decode.fixed (Z.of_nat 8)).
    rewrite (vector_of_fixed 8 _ _ wrap_int xs pre rest d); try assumption; try lia.
    + do 3 f_equal. lia.
    + eapply Forall_impl; [exact Hxs|]. intros x Hx. cbn beta.
      change (256 ^ Z.of_nat 8) with (2^64). now apply wrap_int_of_uint64.
  - unfold Decode.VectorInt, Decode.Int.
    change (Decode.fixed 4) with (Decode.fixed (Z.of_nat 4)).
    rewrite (vector_of_fixed 4 _ _ wrap_int32 xs pre rest d); try assumption; try lia.
    + do 3 f_equal. lia.
    + eapply Forall_impl; [exact Hxs|]. intros x Hx. cbn beta.
      change (256 ^ Z.of_nat 4) with (2^32). now apply wrap_int32_of_uint32.
Qed.

Lemma vectors_decode_witness :
  let b := [x15; xc4; xb5; x1c; x02; x00; x00; x00;
            xff; xff; xff; xff; x07; x00; x00; x00] in
  Decode.VectorInt (Decode.NewDecodeBuf b)
  = Done ([-1; 7], Decode.set_off 16 (Decode.NewDecodeBuf b)).
Proof.
  intros b.
  assert (Hxs : Forall (fun x => - 2^31 <= x < 2^31) [-1; 7]).
  { repeat constructor; lia. }
  exact (proj2 (vectors_decode [-1; 7] [] [] (Decode.NewDecodeBuf b)
                  ltac:(cbn; lia) eq_refl eq_refl ltac:(cbn; lia) eq_refl)
               Hxs eq_refl).
Defined.

(** ** Loading a session *)

Lemma fixed_returns (n : Z) (name : string) (conv : Z -> Z) (d : Decode.DecodeBuf) :
  decoder_wf d -> 0 <= n <= 8 ->
  exists r d', Decode.fixed n name conv d = Done (r, d') /\ decoder_wf d'.
Proof.
  intros Hwf Hn. destruct (Decode.err d) as [e|] eqn:Herr.
  - exists 0, d. split; [|assumption]. unfold Decode.fixed, Decode.failed.
    now rewrite Herr.
  - destruct (fixed_cases n name conv d Hwf Herr Hn) as [Hok Hshort].
    pose proof Hwf as (Hsize & Hoff & Hlen).
    destruct (Z.le_gt_cases (Decode.off d + n) (Decode.size d)) as [Hfit|Hcut].
    + destruct (Hok Hfit) as (bs & _ & _ & E). eexists _, _. split; [exact E|].
      repeat split; cbn; lia.
    + eexists _, _. split; [apply Hshort; lia|]. repeat split; cbn; lia.
Qed.

Lemma read_4096_length (content b : list byte) :
  SessFileStore.read_4096 content = Some b -> length b = 4096%nat.
Proof.
  unfold SessFileStore.read_4096. destruct content as [|x xs]; [discriminate|].
  remember (x :: xs) as c eqn:Hc. clear Hc.
  intros [= <-]. rewrite length_app, repeat_length, length_take. lia.
Qed.

Lemma take_repeat_min {A} (x : A) (k n : nat) :
  take k (repeat x n) = repeat x (Nat.min k n).
Proof.
  revert n. induction k as [|k IH]; intros [|n]; cbn; try reflexivity.
  now rewrite IH.
Qed.

Lemma read_4096_zeros (n : nat) :
  SessFileStore.read_4096 (repeat x00 (S n)) = Some (repeat x00 4096).
Proof.
  unfold SessFileStore.read_4096.
  destruct (repeat x00 (S n)) as [|x xs] eqn:E; [discriminate|]. rewrite <- E.
  rewrite take_repeat_min, repeat_length, <- repeat_app. do 2 f_equal. lia.
Qed.

Lemma Load_lookup_cases (FPath : string) (sess : SessionInfo)
      (fs : gmap string (list byte)) :
  (fs !! FPath = None ->
   SessFileStore.Load FPath sess fs = Done (fs, sess, Some ErrNoSessionData))
  /\ (fs !! FPath = Some [] ->
      SessFileStore.Load FPath sess fs = Done (fs, sess, Some (Err "EOF")))
  /\ (forall n, fs !! FPath = Some (repeat x00 (S n)) ->
                SessFileStore.Load FPath sess fs
                = Done (fs, mkSessionInfo (DcID sess) [] [] 0 EmptyString (sessionId sess),
                        None)).
Proof.
  unfold SessFileStore.Load. repeat split.
  - intros ->. reflexivity.
  - intros ->. reflexivity.
  - intros n ->. rewrite read_4096_zeros. vm_compute. reflexivity.
Qed.

(** X7. Load of the file store never panics, whatever the file holds, and
    never touches the DC id or the session id.  A missing file gives
    ErrNoSessionData and an empty file an error, both with the session as it
    was.  A file of zero bytes only, of any positive length, is accepted
    without error as a session with an empty key, an empty hash, salt 0 and
    an empty address: what the file lacks is read from the zeroed buffer. *)
Theorem Load_never_panics (FPath : string) (sess : SessionInfo)
        (fs : gmap string (list byte)) :
  (exists sess' e,
      SessFileStore.Load FPath sess fs = Done (fs, sess', e)
      /\ DcID sess' = DcID sess /\ sessionId sess' = sessionId sess)
  /\ (fs !! FPath = None ->
      SessFileStore.Load FPath sess fs = Done (fs, sess, Some ErrNoSessionData))
  /\ (fs !! FPath = Some [] ->
      SessFileStore.Load FPath sess fs = Done (fs, sess, Some (Err "EOF")))
  /\ (forall n, fs !! FPath = Some (repeat x00 (S n)) ->
                SessFileStore.Load FPath sess fs
                = Done (fs, mkSessionInfo (DcID sess) [] [] 0 EmptyString (sessionId sess),
                        None)).
Proof.
  unfold SessFileStore.Load. repeat split.
  - destruct (fs !! FPath) as [content|]; [|now eexists _, _].
    destruct (SessFileStore.read_4096 content) as [b|] eqn:Hread; [|now eexists _, _].
    assert (Hwf : decoder_wf (Decode.NewDecodeBuf b)).
    { apply NewDecodeBuf_wf. rewrite (read_4096_length _ _ Hread). cbn. lia. }
    destruct (StringBytes_returns _ Hwf) as (k & d1 & -> & Hwf1). cbn [obind].
    destruct (StringBytes_returns _ Hwf1) as (h & d2 & -> & Hwf2). cbn [obind].
    destruct (fixed_returns 8 "DecodeLong" wrap_int d2 Hwf2 ltac:(lia))
      as (salt & d3 & E3 & Hwf3).
    unfold Decode.Long. rewrite E3. cbn [obind].
    destruct (StringBytes_returns _ Hwf3) as (a & d4 & E4 & _).
    unfold Decode.String. rewrite E4. cbn [obind].
    destruct (Decode.failed d4); cbn [obind]; destruct (Decode.err _);
      eexists _, _; (split; [reflexivity|]); split; reflexivity.
  - intros ->. reflexivity.
  - intros ->. reflexivity.
  - intros n ->. rewrite read_4096_zeros. vm_compute. reflexivity.
Qed.

(** X8. InitSession over the file store.  With a session given it sets
    the encryption-ready flag to its argument and never consults the store.
    With none and no session file it starts from the default address
    149.154.167.50:443, encryption not ready.  With none and an empty file it
    returns the error but leaves the zero session in place, so that a second
    call finds a session, reads nothing and succeeds.  With none and a file
    of zero bytes only it declares encryption ready over an empty key.  In
    every success the session id is the random value drawn. *)
Theorem InitSession_cases (FPath : string) (ready : bool) (rnd : Z)
        (m : @MTProto (gmap string (list byte))) :
  let init := @InitSession _ (SessFileStore.store FPath) in
  (forall s, session m = Some s ->
             init ready rnd m
             = Done (set_session (Some (set_sessionId rnd s))
                       (set_encryptionReady ready m), None))
  /\ (session m = None -> store_state m !! FPath = None ->
      exists m', init ready rnd m = Done (m', None)
                 /\ session m' = Some (mkSessionInfo 0 [] [] 0 "149.154.167.50:443" rnd)
                 /\ encryptionReady m' = false
                 /\ store_state m' = store_state m)
  /\ (session m = None -> store_state m !! FPath = Some [] ->
      exists m', init ready rnd m = Done (m', Some (Err "EOF"))
                 /\ session m' = Some empty_session
                 /\ exists m'', init ready rnd m' = Done (m'', None)
                                /\ encryptionReady m'' = ready
                                /\ session m'' = Some (set_sessionId rnd empty_session))
  /\ (forall n, session m = None -> store_state m !! FPath = Some (repeat x00 (S n)) ->
                exists m', init ready rnd m = Done (m', None)
                           /\ session m' = Some (set_sessionId rnd empty_session)
                           /\ encryptionReady m' = true).
Proof.
  intros init. subst init. unfold InitSession. cbn [Load SessFileStore.store].
  repeat split.
  - intros s Hs. rewrite Hs. cbn [obind session set_encryptionReady]. now rewrite Hs.
  - intros -> Hfile.
    rewrite (proj1 (Load_lookup_cases FPath empty_session (store_state m)) Hfile).
    cbn [obind]. eexists. split; [reflexivity|]. cbn. now destruct m.
  - intros -> Hfile.
    rewrite (proj1 (proj2 (Load_lookup_cases FPath empty_session (store_state m)))
               Hfile).
    cbn [obind]. eexists. split; [reflexivity|]. split; [reflexivity|].
    cbn [session set_store_state set_session obind set_encryptionReady].
    eexists. split; [reflexivity|]. split; reflexivity.
  - intros n -> Hfile.
    rewrite (proj2 (proj2 (Load_lookup_cases FPath empty_session (store_state m)))
               n Hfile).
    cbn [obind]. eexists. split; [reflexivity|]. split; reflexivity.
Qed.

Lemma InitSession_cases_witness :
  let m := @NewMTProtoExt (gmap string (list byte)) ∅ None in
  session m = None /\ store_state m !! "tg.session"%string = None
  /\ exists m',
      @InitSession _ (SessFileStore.store "tg.session") false 42 m = Done (m', None)
      /\ session m' = Some (mkSessionInfo 0 [] [] 0 "149.154.167.50:443" 42)
      /\ encryptionReady m' = false
      /\ store_state m' = store_state m.
Proof.
  intros m. split; [reflexivity|]. split; [reflexivity|].
  exact (proj1 (proj2 (InitSession_cases "tg.session" false 42 m)) eq_refl eq_refl).
Defined.

(** ** More on the dispatcher *)

Section DispatcherMore.

Context {St : Type} {sessionStore : SessionStore St}.
Variable range_order : gmap Z ptr -> list (Z * ptr).
Implicit Types m : @MTProto St.

(** X9. In a well-formed state, with room in the internal queue for what
    it sends there, the dispatcher returns whatever message it is given, and
    it has not added an entry to the pending table, not taken anything off
    the internal queue, not freed a packet and not changed the payload of
    one: the table is a part of what it was, the old queue is a prefix of the
    new one, which is longer by at most [sends_of], and every old packet is
    still there with its message. *)
Theorem process_never_adds_pending m (dataTL : TL) (msgId seqNo : Z) (may : bool)
        (Hperm : forall tbl, range_order tbl ≡ₚ map_to_list tbl)
        (Hstore : store_returns sessionStore)
        (Hwf : state_wf m)
        (Hroom : (length (sendQueue m) + sends_of dataTL seqNo (size (msgsByID m))
                  <= sendQueue_cap)%nat) :
  exists m',
    process range_order dataTL msgId seqNo may m = Done m'
    /\ msgsByID m' ⊆ msgsByID m
    /\ sendQueue m `prefix_of` sendQueue m'
    /\ (length (sendQueue m')
        <= length (sendQueue m) + sends_of dataTL seqNo (size (msgsByID m)))%nat
    /\ (forall p pk, packets m !! p = Some pk ->
                     exists pk', packets m' !! p = Some pk' /\ msg pk' = msg pk).
Proof.
  destruct (process_ok range_order dataTL Hperm Hstore msgId seqNo may m Hwf Hroom)
    as (m' & added & E & S & L).
  exists m'. split; [exact E|]. split; [|split; [|split]].
  - apply map_subseteq_spec. intros id p. apply (ok_table _ _ _ _ S).
  - exists added. apply (ok_queue _ _ _ _ S).
  - rewrite (ok_queue _ _ _ _ S), length_app. lia.
  - apply (ok_heap _ _ _ _ S).
Qed.

(** X10. An rpc_result carrying a plain object for a request that waits on
    a channel: the object is sent on that channel, the channel is closed,
    the packet's channel field becomes nil, its other fields staying as they
    were, and the request leaves the table.  No handler goroutine is started
    for the object, even if a handler is installed and the call allows it;
    and the queue gains only the acknowledgement of the rpc_result itself,
    if its seq_no is odd, for which it must have room. *)
Theorem rpc_result_delivers m (req constructor : Z) (payload : list byte)
        (msgId seq_no : Z) (may : bool) (p : ptr) (pk : packetToSend) (c : chan_id)
        (Hwf : state_wf m)
        (Hreq : msgsByID m !! req = Some p)
        (Hpk : packets m !! p = Some pk)
        (Hc : resp pk = Some c)
        (Hroom : Z.odd seq_no = true -> (length (sendQueue m) < sendQueue_cap)%nat) :
  exists m' ch,
    process range_order (TL_rpc_result req (TL_other constructor payload))
            msgId seq_no may m = Done m'
    /\ chans m !! c = Some ch
    /\ chans m' = <[c := mkChannel [TL_other constructor payload] (capacity ch) true]>
                    (chans m)
    /\ packets m' !! p = Some (mkPacket (msgID pk) (seqNo pk) (msg pk) None (needAck pk))
    /\ msgsByID m' = delete req (msgsByID m)
    /\ started m' = started m
    /\ sendQueue m'
       = sendQueue m ++ (if Z.odd seq_no then [fresh (dom (packets m))] else []).
Proof.
  destruct (wf_resp m Hwf p pk c Hpk Hc) as (ch & Hch & Hopen & Hitems & Hcap).
  cbn [process]. change (Z.land 0 1 =? 1) with false. cbn [andb obind].
  unfold clearPacketData. rewrite Hreq, Hpk, Hc.
  unfold chan_send. rewrite Hch, Hopen, Hitems.
  destruct (Nat.ltb_spec (length (@nil TL)) (capacity ch)) as [_|Hbad];
    [|cbn in Hbad; lia].
  cbn [obind]. unfold chan_close. cbn [chans set_chans]. rewrite lookup_insert_eq.
  cbn [closed obind items capacity app]. rewrite insert_insert_eq, land_1_odd.
  assert (Hdom : dom (<[p := clear_resp pk]> (packets m)) = dom (packets m)).
  { rewrite dom_insert_L. apply subseteq_union_1_L, singleton_subseteq_l.
    apply elem_of_dom. eauto. }
  destruct (Z.odd seq_no);
    [rewrite enqueue_new_room by (cbn; now apply Hroom)|];
    eexists _, ch; (split; [reflexivity|]); cbn;
    rewrite ?Hdom; repeat split; try assumption; rewrite ?app_nil_r; try reflexivity.
  - rewrite lookup_insert_ne, lookup_insert_eq; [reflexivity|].
    now apply (fresh_not_allocated m p pk).
  - apply lookup_insert_eq.
Qed.

(** X11. Completing a request twice is completing it once: in a
    well-formed state, a second clearPacketData for the same msg_id, with
    whatever response, changes nothing at all, since the first one removed
    the entry. *)
Theorem clearPacketData_twice m (id : Z) (r1 r2 : TL) (Hwf : state_wf m) :
  exists m1,
    clearPacketData id r1 m = Done m1
    /\ clearPacketData id r2 m1 = Done m1.
Proof.
  unfold clearPacketData at 1.
  destruct (msgsByID m !! id) as [p|] eqn:Hid.
  2:{ exists m. split; [reflexivity|]. unfold clearPacketData. now rewrite Hid. }
  destruct (wf_table m Hwf id p Hid) as [pk Hpk]. rewrite Hpk.
  destruct (resp pk) as [c|] eqn:Hc.
  - destruct (wf_resp m Hwf p pk c Hpk Hc) as (ch & Hch & Hopen & Hitems & Hcap).
    unfold chan_send. rewrite Hch, Hopen, Hitems.
    destruct (Nat.ltb_spec (length (@nil TL)) (capacity ch)) as [_|Hbad];
      [|cbn in Hbad; lia].
    cbn [obind]. unfold chan_close. cbn [chans set_chans]. rewrite lookup_insert_eq.
    cbn [closed obind]. eexists. split; [reflexivity|].
    unfold clearPacketData. cbn [msgsByID set_msgsByID].
    now rewrite lookup_delete_eq.
  - cbn [obind]. eexists. split; [reflexivity|].
    unfold clearPacketData. cbn [msgsByID set_msgsByID].
    now rewrite lookup_delete_eq.
Qed.

End DispatcherMore.

(** ** More on reconnection *)

Section ReconnectMore.

Context {St : Type}.
Implicit Types m : @MTProto St.
Variable range_order : gmap Z ptr -> list (Z * ptr).
Variables stop_routines Connect : @MTProto St -> outcome (@MTProto St * option error).

(** X12. DCAddr answers with the first option of the table, in table
    order, that has the DC id and the address family asked for, as
    "ip:port"; if no option has both it answers with the empty string and
    false. *)
Theorem DCAddr_first_match (dcID : Z) (ipv6 : bool) m :
  let wanted o := o_ID o = dcID /\ o_Ipv6 o = ipv6 in
  match DCAddr dcID ipv6 m with
  | (a, true) =>
    exists before o after,
    dcOptions m = before ++ o :: after
    /\ Forall (fun o' => ~ wanted o') before
    /\ wanted o
    /\ a = (o_IpAddress o ++ ":" ++ pretty (o_Port o))%string
  | (a, false) => a = EmptyString /\ Forall (fun o' => ~ wanted o') (dcOptions m)
  end.
Proof.
  intros wanted. unfold DCAddr.
  induction (dcOptions m) as [|o os IH]; cbn [DCAddr_loop].
  - split; [reflexivity|constructor].
  - destruct (Z.eqb_spec (o_ID o) dcID) as [Hid|Hid];
      destruct (Bool.eqb_spec (o_Ipv6 o) ipv6) as [Hv|Hv]; cbn [andb].
    1:{ exists [], o, os. repeat split; try assumption. constructor. }
    all: assert (Hno : ~ wanted o) by (unfold wanted; tauto).
    all: destruct (DCAddr_loop os dcID ipv6) as [a [|]].
    all: try (destruct IH as (before & o' & after & -> & Hbefore & Hw & Ha);
              exists (o :: before), o', after;
              repeat split; try apply Hw; try assumption;
              now constructor).
    all: destruct IH as [-> Hall]; split; [reflexivity|now constructor].
Qed.

Lemma length_omap_le {A B} (f : A -> option B) (l : list A) :
  (length (omap f l) <= length l)%nat.
Proof.
  induction l as [|x l IH]; cbn [omap list_omap length]; [lia|].
  destruct (f x); cbn [length]; lia.
Qed.

(** X13. A reconnect that goes through (the workers stopped, the DC found
    in the table, Connect without error, and room in the internal queue for
    the packets that were pending when the workers stopped) puts back on the
    internal queue the packets of exactly those requests that were pending
    then and are still pending after Connect; it does not take them out of
    the table and does not touch the packets, so they go out again with the
    msg_id and seq_no they had.  If Connect completed none of them, every
    pending packet is queued again, once. *)
Theorem reconnect_requeues_pending m (newDcID : Z) m1 (s : SessionInfo)
        (addr : string) m3
        (Hperm : forall tbl, range_order tbl ≡ₚ map_to_list tbl)
        (Hs0 : is_Some (session m))
        (Hstop : stop_routines (logf LInfo "reconnecting: DC %d -> %d" m) = Done (m1, None))
        (Hs : session m1 = Some s)
        (Haddr : DCAddr newDcID false m1 = (addr, true))
        (Hconn : Connect
                   (set_session
                      (Some (mkSessionInfo newDcID (AuthKey s) (AuthKeyHash s)
                                           (ServerSalt s) addr (sessionId s)))
                      (if negb (newDcID =? DcID s)
                       then set_encryptionReady false
                              (logf LDebug "found %d pending packet(s)" m1)
                       else logf LDebug "found %d pending packet(s)" m1))
                 = Done (m3, None))
        (Hroom : (length (sendQueue m3) + size (msgsByID m1) <= sendQueue_cap)%nat) :
  exists m' added,
    reconnectToDc range_order stop_routines Connect newDcID m = Done (m', None)
    /\ sendQueue m' = sendQueue m3 ++ added
    /\ msgsByID m' = msgsByID m3 /\ packets m' = packets m3 /\ chans m' = chans m3
    /\ (forall p, p ∈ added <->
                  exists id, is_Some (msgsByID m1 !! id) /\ msgsByID m3 !! id = Some p)
    /\ (msgsByID m3 = msgsByID m1 -> added ≡ₚ (map_to_list (msgsByID m1)).*2).
Proof.
  set (ids := (range_order (msgsByID m1)).*1).
  assert (Hids : forall id, id ∈ ids <-> is_Some (msgsByID m1 !! id)).
  { intros id. unfold ids. rewrite list_elem_of_fmap. split.
    - intros ([i p] & -> & Hin). rewrite Hperm in Hin.
      apply elem_of_map_to_list in Hin. cbn. eauto.
    - intros [p Hp]. exists (id, p). split; [reflexivity|].
      rewrite Hperm. now apply elem_of_map_to_list. }
  set (added := omap (fun id => msgsByID m3 !! id) ids).
  assert (Hlen : (length (sendQueue m3) + length added <= sendQueue_cap)%nat).
  { pose proof (length_omap_le (fun id => msgsByID m3 !! id) ids) as Hle.
    unfold ids in Hle at 2. rewrite length_fmap, (length_range_order _ _ (Hperm _)) in Hle.
    fold added in Hle. lia. }
  exists (if (0 <? length ids)%nat
          then logf LInfo "reconnected to DC %d (%s)"
                 (logf LDebug "pushed %d pending packet(s)"
                    (set_sendQueue (sendQueue m3 ++ added) m3))
          else logf LInfo "reconnected to DC %d (%s)" m3),
         added.
  split; [|split; [|split; [|split; [|split; [|split]]]]].
  - unfold reconnectToDc. destruct Hs0 as [s0 ->]. rewrite Hstop. cbn [obind].
    cbn [session logf set_log]. rewrite Hs.
    replace (DCAddr newDcID false
               (if negb (newDcID =? DcID s)
                then set_encryptionReady false
                       (logf LDebug "found %d pending packet(s)" m1)
                else logf LDebug "found %d pending packet(s)" m1))
      with (DCAddr newDcID false m1) by (now destruct (newDcID =? DcID s)).
    rewrite Haddr. cbn [negb].
    change (set_Dc newDcID addr s)
      with (mkSessionInfo newDcID (AuthKey s) (AuthKeyHash s) (ServerSalt s) addr
                          (sessionId s)).
    rewrite Hconn.
    unfold resend_after_connect. cbn [obind]. fold ids. fold added.
    destruct (0 <? length ids)%nat; [|reflexivity].
    unfold pushPendingPacketsUnlocked. now rewrite push_loop.
  - destruct (Nat.ltb_spec 0 (length ids)) as [Hpos|Hzero]; [reflexivity|].
    unfold added. destruct ids; [|cbn in Hzero; lia]. cbn. now rewrite app_nil_r.
  - now destruct (0 <? length ids)%nat.
  - now destruct (0 <? length ids)%nat.
  - now destruct (0 <? length ids)%nat.
  - intros p. unfold added. rewrite list_elem_of_omap. split.
    + intros (id & Hin & Hp). exists id. split; [now apply Hids|assumption].
    + intros (id & Hin & Hp). exists id. split; [now apply Hids|assumption].
  - intros Hsame. unfold added. rewrite Hsame, <- Hperm. unfold ids.
    generalize (Hperm (msgsByID m1)). intros Hp.
    assert (Hall : Forall (fun x => msgsByID m1 !! x.1 = Some x.2)
                          (range_order (msgsByID m1))).
    { apply Forall_forall. intros [i q] Hin. rewrite Hp in Hin.
      now apply elem_of_map_to_list in Hin. }
    clear Hp Hids Hlen added. clear ids.
    induction Hall as [|[i q] l Hx _ IH]; [reflexivity|].
    cbn [fmap list_fmap omap list_omap fst snd] in *. cbn in Hx. rewrite Hx.
    now rewrite IH.
Qed.

End ReconnectMore.

(** ** The other cases of the dispatcher *)

Section DispatcherCases.

Context {St : Type} {sessionStore : SessionStore St}.
Variable range_order : gmap Z ptr -> list (Z * ptr).
Implicit Types m : @MTProto St.

Lemma fresh_packet_is_new m : packets m !! fresh (dom (packets m)) = None.
Proof. apply not_elem_of_dom, is_fresh. Qed.

(** X14. A bad_msg_notification or a msgs_state_info for a request that
    waits on a channel completes that request with the notification
    itself: the caller receives the notification as its response, on a
    channel that is then closed; the packet's channel field becomes nil, its
    other fields staying as they were; and the request leaves the pending
    table without being sent again.  The queue gains only the
    acknowledgement of the notification, if its seq_no is odd, for which it
    must have room. *)
Theorem notification_completes_request m (t : TL) (id msgId seq_no : Z)
        (may : bool) (p : ptr) (pk : packetToSend) (c : chan_id)
        (Hwf : state_wf m)
        (Ht : (exists others, t = TL_bad_msg_notification id others)
              \/ (exists others, t = TL_msgs_state_info id others))
        (Hreq : msgsByID m !! id = Some p)
        (Hpk : packets m !! p = Some pk)
        (Hc : resp pk = Some c)
        (Hroom : Z.odd seq_no = true -> (length (sendQueue m) < sendQueue_cap)%nat) :
  exists m' ch,
    process range_order t msgId seq_no may m = Done m'
    /\ chans m !! c = Some ch
    /\ chans m' = <[c := mkChannel [t] (capacity ch) true]> (chans m)
    /\ packets m' !! p = Some (mkPacket (msgID pk) (seqNo pk) (msg pk) None (needAck pk))
    /\ msgsByID m' = delete id (msgsByID m)
    /\ sendQueue m'
       = sendQueue m ++ (if Z.odd seq_no then [fresh (dom (packets m))] else []).
Proof.
  destruct (wf_resp m Hwf p pk c Hpk Hc) as (ch & Hch & Hopen & Hitems & Hcap).
  assert (Hdom : dom (<[p := clear_resp pk]> (packets m)) = dom (packets m)).
  { rewrite dom_insert_L. apply subseteq_union_1_L, singleton_subseteq_l.
    apply elem_of_dom. eauto. }
  assert (Hclear : clearPacketData id t m
                   = Done (set_msgsByID (delete id (msgsByID m))
                             (set_packets (<[p := clear_resp pk]> (packets m))
                                (set_chans (<[c := mkChannel [t] (capacity ch) true]>
                                              (chans m)) m)))).
  { unfold clearPacketData. rewrite Hreq, Hpk, Hc.
    unfold chan_send. rewrite Hch, Hopen, Hitems.
    destruct (Nat.ltb_spec (length (@nil TL)) (capacity ch)) as [_|Hbad];
      [|cbn in Hbad; lia].
    cbn [obind]. unfold chan_close. cbn [chans set_chans]. rewrite lookup_insert_eq.
    cbn [closed obind items capacity app]. now rewrite insert_insert_eq. }
  assert (Hproc : process range_order t msgId seq_no may m
                  = let* m1 := clearPacketData id t m in
                    if Z.land seq_no 1 =? 1
                    then enqueue_new (TL_msgs_ack [msgId]) None m1
                    else Done m1).
  { destruct Ht as [[others ->]|[others ->]]; reflexivity. }
  rewrite Hproc, Hclear. cbn [obind]. rewrite land_1_odd.
  destruct (Z.odd seq_no);
    [rewrite enqueue_new_room by (cbn; now apply Hroom)|];
    eexists _, ch; (split; [reflexivity|]); cbn;
    rewrite ?Hdom; repeat split; try assumption; rewrite ?app_nil_r; try reflexivity.
  - rewrite lookup_insert_ne, lookup_insert_eq; [reflexivity|].
    now apply (fresh_not_allocated m p pk).
  - apply lookup_insert_eq.
Qed.

(** X15. A new_session_created only replaces the server salt of the
    session, every other field of the session staying as it was, and saves
    that session: unlike a bad_server_salt it leaves the pending table as it
    is and queues nothing again; the queue gains at most the acknowledgement
    of the message itself, for which it must have room. *)
Theorem new_session_created_keeps_pending m (salt : Z) (others : list byte)
        (msgId seq_no : Z) (may : bool) (s : SessionInfo)
        (Hstore : store_returns sessionStore)
        (Hs : session m = Some s)
        (Hroom : Z.odd seq_no = true -> (length (sendQueue m) < sendQueue_cap)%nat) :
  let s' := mkSessionInfo (DcID s) (AuthKey s) (AuthKeyHash s) salt (Addr s)
                          (sessionId s) in
  exists m' st' e,
    process range_order (TL_new_session_created salt others) msgId seq_no may m
    = Done m'
    /\ Save s' (store_state m) = Done (st', e)
    /\ store_state m' = st'
    /\ session m' = Some s'
    /\ msgsByID m' = msgsByID m
    /\ packets m' = (if Z.odd seq_no
                     then <[fresh (dom (packets m)) :=
                              mkPacket 0 0 (TL_msgs_ack [msgId]) None false]> (packets m)
                     else packets m)
    /\ chans m' = chans m
    /\ sendQueue m'
       = sendQueue m ++ (if Z.odd seq_no then [fresh (dom (packets m))] else []).
Proof.
  intros s'.
  destruct (Hstore s' (store_state m)) as (st' & e & Hsave).
  cbn [process]. rewrite Hs. unfold SaveSessionLogged.
  cbn [session set_session store_state].
  change (set_ServerSalt salt s) with s'. rewrite Hsave. cbn [obind].
  rewrite land_1_odd.
  destruct e as [e|], (Z.odd seq_no); cbn [obind];
    try (rewrite enqueue_new_room by (cbn; now apply Hroom));
    eexists _, st', _;
    (split; [reflexivity|]); cbn; rewrite ?app_nil_r; repeat split.
Qed.

(** X16. A ping from the server is answered with a pong that carries the
    msg_id of the ping's message and the ping id, in a new packet without a
    response channel; the pong is queued before the acknowledgement of the
    ping, and nothing else changes.  This needs room in the internal queue
    for the pong and the acknowledgement; on a full queue the dispatcher
    waits at the pong. *)
Theorem ping_is_answered_with_pong m (PingID msgId seq_no : Z) (may : bool) :
  ((length (sendQueue m) + 1 + (if Z.odd seq_no then 1 else 0) <= sendQueue_cap)%nat ->
   exists m' p,
     process range_order (TL_ping PingID) msgId seq_no may m = Done m'
     /\ packets m !! p = None
     /\ packets m' !! p = Some (mkPacket 0 0 (TL_pong msgId PingID) None false)
     /\ (exists acks,
            sendQueue m' = sendQueue m ++ p :: acks
            /\ Forall (fun q => q <> p
                                /\ packets m !! q = None
                                /\ packets m' !! q
                                   = Some (mkPacket 0 0 (TL_msgs_ack [msgId]) None false))
                      acks
            /\ length acks = if Z.odd seq_no then 1%nat else 0%nat)
     /\ msgsByID m' = msgsByID m
     /\ chans m' = chans m
     /\ started m' = started m
     /\ (forall q pk, packets m !! q = Some pk -> packets m' !! q = Some pk))
  /\ ((sendQueue_cap <= length (sendQueue m))%nat ->
      process range_order (TL_ping PingID) msgId seq_no may m = Blocked).
Proof.
  split.
  2:{ intros Hfull. cbn [process]. now rewrite enqueue_new_full. }
  intros Hroom.
  pose proof (fresh_packet_is_new m) as Hp.
  set (p := fresh (dom (packets m))) in *.
  set (pong := mkPacket 0 0 (TL_pong msgId PingID) None false).
  pose proof (fresh_packet_is_new (set_packets (<[p := pong]> (packets m)) m)) as Hq.
  cbn [packets set_packets] in Hq.
  set (q := fresh (dom (<[p := pong]> (packets m)))) in *.
  assert (Hne : q <> p).
  { intros E. rewrite E, lookup_insert_eq in Hq. discriminate. }
  assert (Hqm : packets m !! q = None).
  { now rewrite lookup_insert_ne in Hq by congruence. }
  cbn [process]. rewrite enqueue_new_room by lia. cbn [obind]. rewrite land_1_odd.
  destruct (Z.odd seq_no);
    [rewrite enqueue_new_room by (cbn; rewrite length_app; cbn; lia)|];
    eexists _, p; (split; [reflexivity|]); cbn; fold p;
    change (newPacket (TL_pong msgId PingID) None) with pong; fold q.
  - split; [assumption|]. split.
    { rewrite lookup_insert_ne by congruence. apply lookup_insert_eq. }
    split.
    { exists [q]. rewrite <- app_assoc. split; [reflexivity|]. split; [|reflexivity].
      repeat constructor; try assumption. apply lookup_insert_eq. }
    repeat split. intros r pk Hr.
    rewrite !lookup_insert_ne; [assumption| |]; intros <-; congruence.
  - split; [assumption|]. split; [apply lookup_insert_eq|]. split.
    { exists []. repeat split. constructor. }
    repeat split. intros r pk Hr.
    rewrite lookup_insert_ne; [assumption|]. intros <-. congruence.
Qed.

(** X17. The updates of a container get a handler goroutine whether or not
    the caller allowed it: when a handler is installed, one goroutine is
    started for every item of a container of plain objects, even if process
    was called with mayPassToHandler false; without a handler none is
    started.  The goroutines run on their own, so this says which were
    started and how often, not in which order they run.  The pending table
    and the channels are untouched.  The queue must have room for the
    acknowledgements. *)
Theorem container_updates_reach_handler m (Items : list TL_MT_message)
        (msgId seq_no : Z) (may : bool)
        (Hplain : Forall (fun v => exists c payload, MT_Data v = TL_other c payload)
                         Items)
        (Hroom : (length (sendQueue m)
                  + sends_of (TL_msg_container Items) seq_no (size (msgsByID m))
                  <= sendQueue_cap)%nat) :
  exists m',
    process range_order (TL_msg_container Items) msgId seq_no may m = Done m'
    /\ started m'
       ≡ₚ started m ++ (if handleEvent m then MT_Data <$> Items else [])
    /\ msgsByID m' = msgsByID m
    /\ chans m' = chans m.
Proof.
  cbn [process sends_of] in *.
  generalize dependent (size (msgsByID m)). intros n Hroom.
  match goal with |- context [obind (?loop Items m)] => set (each := loop) end.
  set (each_sends := fix each (vs : list TL_MT_message) : nat :=
         match vs with
         | [] => 0%nat
         | MT_message _ sq _ d :: rest => (sends_of d sq n + each rest)%nat
         end) in *.
  assert (Hloop : forall m0,
             (length (sendQueue m0) + each_sends Items <= sendQueue_cap)%nat ->
             exists m1, each Items m0 = Done m1
                        /\ started m1
                           ≡ₚ started m0
                              ++ (if handleEvent m0 then MT_Data <$> Items else [])
                        /\ handleEvent m1 = handleEvent m0
                        /\ msgsByID m1 = msgsByID m0 /\ chans m1 = chans m0
                        /\ (length (sendQueue m1)
                            <= length (sendQueue m0) + each_sends Items)%nat).
  { clear m Hroom. induction Hplain as [|[id sq z d] rest (c & payload & Hd) _ IH];
      intros m0 Hroom0.
    - exists m0. cbn. repeat split; try lia.
      destruct (handleEvent m0); now rewrite app_nil_r.
    - cbn [MT_Data] in Hd. subst d. subst each. cbn [process andb obind].
      assert (Hs : each_sends (MT_message id sq z (TL_other c payload) :: rest)
                   = ((if Z.odd sq then 1 else 0) + each_sends rest)%nat) by reflexivity.
      rewrite Hs in Hroom0 |- *.
      rewrite land_1_odd.
      destruct (handleEvent m0) eqn:Hh, (Z.odd sq); cbn [obind];
        try (rewrite enqueue_new_room by (cbn; lia); cbn [obind]);
        match goal with
        | |- exists _, _ rest ?x = _ /\ _ =>
          destruct (IH x) as (m1 & E & H1 & H2 & H3 & H4 & H5);
            [cbn; rewrite ?length_app; cbn; lia|]
        end;
        exists m1; (split; [exact E|]); rewrite H1, H2, H3, H4; cbn; rewrite ?Hh;
        cbn in H5; rewrite ?length_app in H5; cbn in H5;
        repeat split; try lia.
      all: cbn [fmap list_fmap].
      all: first [apply Permutation_middle | reflexivity]. }
  destruct (Hloop m) as (m1 & E & H1 & H2 & H3 & H4 & H5); [lia|].
  rewrite E. cbn [obind]. rewrite land_1_odd.
  destruct (Z.odd seq_no);
    [rewrite enqueue_new_room by lia|];
    eexists; (split; [reflexivity|]); cbn;
    rewrite ?H3, ?H4; repeat split; exact H1.
Qed.

(** X18. Resending the pending packets once more right away resends
    nothing: when the first call has returned it has emptied the table, so
    the second call, which then returns whatever room the queue has, leaves
    the queue, the table, the packets and the channels as the first left
    them and only logs.  The first call returns when the queue has room for
    the pending packets. *)
Theorem resendPendingPackets_twice m
        (Hperm : forall tbl, range_order tbl ≡ₚ map_to_list tbl) :
  (forall m1,
      resendPendingPackets range_order m = Done m1 ->
      msgsByID m1 = ∅
      /\ exists m2,
          resendPendingPackets range_order m1 = Done m2
          /\ sendQueue m2 = sendQueue m1
          /\ msgsByID m2 = ∅
          /\ packets m2 = packets m /\ chans m2 = chans m /\ session m2 = session m)
  /\ ((length (sendQueue m) + size (msgsByID m) <= sendQueue_cap)%nat ->
      exists m1, resendPendingPackets range_order m = Done m1).
Proof.
  assert (Hnil : range_order ∅ = []).
  { apply Permutation_nil_r. rewrite Hperm. now rewrite map_to_list_empty. }
  split.
  - intros m1 E1. apply resendPendingPackets_done in E1. subst m1.
    cbn [msgsByID logf set_log set_sendQueue set_msgsByID].
    rewrite pop_empties by apply Hperm. split; [reflexivity|].
    unfold resendPendingPackets, popPendingPacketsUnlocked, pushPendingPacketsUnlocked.
    cbn [msgsByID logf set_log set_sendQueue set_msgsByID].
    rewrite Hnil. cbn [foldl obind].
    eexists. split; [reflexivity|]. cbn. repeat split.
  - intros Hroom. rewrite resendPendingPackets_eq by (try apply Hperm; assumption).
    eauto.
Qed.

End DispatcherCases.

(** ** Sending and the transfer worker *)

Section SendingFacts.

Context {St : Type}.
Implicit Types (m : @MTProto St) (x : @Sender St).

Lemma NewMTProtoExt_wf (st : St) (s : SessionInfo) :
  state_wf (NewMTProtoExt st (Some s)).
Proof.
  split; cbn; eauto.
  - intros id p Hp. now rewrite lookup_empty in Hp.
  - intros p pk c Hp. now rewrite lookup_empty in Hp.
  - intros p1 p2 pk1 pk2 c Hp. now rewrite lookup_empty in Hp.
  - intros c ch Hc. now rewrite lookup_empty in Hc.
Qed.

(** X19. Send, when the external queue has room, returns a channel that
    did not exist before, open, empty and of capacity one, and puts at the
    back of the external queue a new packet whose message is the one given
    and whose response channel is the one returned, with msg_id and seq_no 0
    and no acknowledgement asked yet; the internal queue and the pending
    table are untouched, no existing packet or channel changes, and the state
    stays well-formed.  When the external queue holds 64 packets Send
    blocks. *)
Theorem Send_makes_fresh_channel (msg : TL) x (Hwf : state_wf (core x)) :
  ((length (extSendQueue x) < 64)%nat ->
   exists c p x',
     Send msg x = Done (c, x')
     /\ chans (core x) !! c = None
     /\ chans (core x') = <[c := mkChannel [] 1 false]> (chans (core x))
     /\ packets (core x) !! p = None
     /\ packets (core x') = <[p := mkPacket 0 0 msg (Some c) false]> (packets (core x))
     /\ extSendQueue x' = extSendQueue x ++ [p]
     /\ sendQueue (core x') = sendQueue (core x)
     /\ msgsByID (core x') = msgsByID (core x)
     /\ state_wf (core x'))
  /\ ((64 <= length (extSendQueue x))%nat -> Send msg x = Blocked).
Proof.
  unfold Send, make_chan, alloc, extSendQueue_cap. cbn [packets set_chans chans].
  set (c := fresh (dom (chans (core x)))).
  set (p := fresh (dom (packets (core x)))).
  assert (Hc : chans (core x) !! c = None) by apply not_elem_of_dom, is_fresh.
  assert (Hp : packets (core x) !! p = None) by apply not_elem_of_dom, is_fresh.
  split; intros Hlen.
  2:{ destruct (Nat.ltb_spec (length (extSendQueue x)) 64); [lia|reflexivity]. }
  destruct (Nat.ltb_spec (length (extSendQueue x)) 64); [|lia].
  exists c, p. eexists. split; [reflexivity|]. cbn.
  repeat split; try assumption; destruct Hwf as [Hs Ht Hr Ho H1]; cbn.
  - assumption.
  - intros id q Hq. destruct (Ht id q Hq) as [pk Hpk].
    rewrite lookup_insert_ne; [eauto|]. intros <-. congruence.
  - intros q pk c' Hq Hresp. destruct (decide (q = p)) as [->|Hne].
    + rewrite lookup_insert_eq in Hq. injection Hq as <-. cbn in Hresp.
      injection Hresp as <-. rewrite lookup_insert_eq.
      eexists. repeat split. cbn. lia.
    + rewrite lookup_insert_ne in Hq by congruence.
      destruct (Hr q pk c' Hq Hresp) as (ch & Hch & Hrest).
      exists ch. split; [|exact Hrest].
      rewrite lookup_insert_ne; [assumption|]. intros <-. congruence.
  - intros p1 p2 pk1 pk2 c' Hp1 Hp2 Hr1 Hr2.
    destruct (decide (p1 = p)) as [->|Hne1], (decide (p2 = p)) as [->|Hne2];
      try reflexivity.
    + rewrite lookup_insert_eq in Hp1. injection Hp1 as <-. cbn in Hr1.
      injection Hr1 as <-. rewrite lookup_insert_ne in Hp2 by congruence.
      destruct (Hr p2 pk2 c Hp2 Hr2) as (ch & Hch & _). congruence.
    + rewrite lookup_insert_eq in Hp2. injection Hp2 as <-. cbn in Hr2.
      injection Hr2 as <-. rewrite lookup_insert_ne in Hp1 by congruence.
      destruct (Hr p1 pk1 c Hp1 Hr1) as (ch & Hch & _). congruence.
    + rewrite lookup_insert_ne in Hp1, Hp2 by congruence. eauto.
  - intros c' ch Hch. destruct (decide (c' = c)) as [->|Hne].
    + rewrite lookup_insert_eq in Hch. injection Hch as <-. cbn. lia.
    + rewrite lookup_insert_ne in Hch by congruence. eauto.
Qed.

(** X20. Two calls of Send in a row never hand out the same channel or
    the same packet, whatever the state: each caller waits on a channel of
    its own, and the two packets stand in the external queue in the order
    of the calls. *)
Theorem Send_channels_are_distinct (msg1 msg2 : TL) x (c1 c2 : chan_id) x1 x2
        (H1 : Send msg1 x = Done (c1, x1))
        (H2 : Send msg2 x1 = Done (c2, x2)) :
  c1 <> c2
  /\ exists p1 p2,
       p1 <> p2
       /\ extSendQueue x2 = extSendQueue x ++ [p1; p2]
       /\ packets (core x2) !! p1 = Some (newPacket msg1 (Some c1))
       /\ packets (core x2) !! p2 = Some (newPacket msg2 (Some c2)).
Proof.
  unfold Send, make_chan, alloc, extSendQueue_cap in H1, H2.
  cbn [packets set_chans chans] in H1, H2.
  destruct (length (extSendQueue x) <? 64)%nat; [|discriminate].
  injection H1 as <- <-. cbn [core extSendQueue packets set_packets chans] in H2.
  destruct (length (extSendQueue x ++ _) <? 64)%nat; [|discriminate].
  injection H2 as <- <-. cbn.
  set (c := fresh (dom (chans (core x)))).
  set (p := fresh (dom (packets (core x)))).
  set (pk := newPacket msg1 (Some c)).
  pose proof (is_fresh (dom (<[c := mkChannel [] 1 false]> (chans (core x))))) as Hc.
  pose proof (is_fresh (dom (<[p := pk]> (packets (core x))))) as Hp.
  set (c2 := fresh (dom (<[c := mkChannel [] 1 false]> (chans (core x))))) in *.
  set (p2 := fresh (dom (<[p := pk]> (packets (core x))))) in *.
  assert (Hcc : c <> c2).
  { intros E. apply Hc. rewrite <- E. apply elem_of_dom.
    rewrite lookup_insert_eq. eauto. }
  assert (Hpp : p <> p2).
  { intros E. apply Hp. rewrite <- E. apply elem_of_dom.
    rewrite lookup_insert_eq. eauto. }
  split; [assumption|].
  exists p, p2. rewrite <- app_assoc. split; [assumption|split; [reflexivity|split]].
  - rewrite lookup_insert_ne by congruence. apply lookup_insert_eq.
  - apply lookup_insert_eq.
Qed.

(** X21. The transfer worker, run on its own until it returns, moves a
    front part of the external queue to the back of the internal queue, in
    order, and leaves the rest where it was; it moves a packet only while
    the internal queue holds fewer than 64, so it never makes that queue
    longer than 64 (or than it already was); it returns only by taking one
    stop token, and then signs off from the wait group once.  It touches
    neither the pending table nor any packet or channel. *)
Theorem queueTransferRoutine_moves_in_order (sched : list bool) x x'
        (Hrun : queueTransferRoutine sched x = Done x') :
  exists moved,
    extSendQueue x = moved ++ extSendQueue x'
    /\ sendQueue (core x') = sendQueue (core x) ++ moved
    /\ (length (sendQueue (core x')) <= Nat.max (length (sendQueue (core x))) 64)%nat
    /\ S (routinesStop (core x')) = routinesStop (core x)
    /\ routinesWG (core x') = routinesWG (core x) - 1
    /\ 0 <= routinesWG (core x')
    /\ msgsByID (core x') = msgsByID (core x)
    /\ packets (core x') = packets (core x)
    /\ chans (core x') = chans (core x).
Proof.
  pose (P := fun x : @Sender St =>
    exists moved,
      extSendQueue x = moved ++ extSendQueue x'
      /\ sendQueue (core x') = sendQueue (core x) ++ moved
      /\ (length (sendQueue (core x')) <= Nat.max (length (sendQueue (core x))) 64)%nat
      /\ S (routinesStop (core x')) = routinesStop (core x)
      /\ routinesWG (core x') = routinesWG (core x) - 1
      /\ 0 <= routinesWG (core x')
      /\ msgsByID (core x') = msgsByID (core x)
      /\ packets (core x') = packets (core x)
      /\ chans (core x') = chans (core x)).
  change (P x). revert x Hrun.
  induction sched as [|b sched IH]; intros x Hrun; [discriminate|].
  cbn [queueTransferRoutine] in Hrun. unfold extSendQueue_cap in Hrun.
  assert (Hstop : forall k ext, routinesStop (core x) = S k -> extSendQueue x = ext ->
            (let* m := WG_Done (logf LDebug "queueTransferRoutine done"
                                  (set_routinesStop k (core x))) in
             Done (mkSender m ext)) = Done x' -> P x).
  { intros k ext Hk <-. unfold WG_Done. cbn [routinesWG logf set_log set_routinesStop].
    destruct (Z.ltb_spec (routinesWG (core x) - 1) 0); [discriminate|].
    cbn [obind]. intros [= <-]. exists []. cbn. rewrite app_nil_r, Hk.
    repeat split; lia. }
  assert (Hmove : forall p ext, extSendQueue x = p :: ext ->
            (length (sendQueue (core x)) < 64)%nat ->
            (let* m := enqueue p (core x) in
             queueTransferRoutine sched (mkSender m ext)) = Done x' ->
            P x).
  { intros p ext Hext Hlt Hrest.
    rewrite enqueue_room in Hrest by (unfold sendQueue_cap; lia). cbn [obind] in Hrest.
    destruct (IH _ Hrest) as (moved & E1 & E2 & E3 & E4 & E5 & E6 & E7 & E8 & E9).
    cbn in E1, E2, E3, E4, E5, E7, E8, E9.
    exists (p :: moved). rewrite Hext, E1, E2, <- app_assoc.
    repeat split; try assumption.
    rewrite E2 in E3. rewrite !length_app in *. cbn [length] in *. lia. }
  destruct (Nat.ltb_spec (length (sendQueue (core x))) 64) as [Hlt|Hge].
  - destruct (routinesStop (core x)) as [|k] eqn:Hk.
    + destruct (extSendQueue x) as [|p ext] eqn:Hext; [discriminate|].
      now apply (Hmove p ext).
    + destruct (extSendQueue x) as [|p ext] eqn:Hext.
      * now apply (Hstop k []).
      * destruct b; [now apply (Hstop k (p :: ext))|now apply (Hmove p ext)].
  - destruct (routinesStop (core x)) as [|k] eqn:Hk.
    + exact (IH _ Hrun).
    + now apply (Hstop k (extSendQueue x)).
Qed.

End SendingFacts.

(** X22. However the goroutines that ask for a reconnection are
    scheduled, and however many of them there are, at most one of those
    that came through reconnectLogged is inside reconnectToDc at any time,
    and the semaphore never holds more than its one token. *)
Theorem reconnectLogged_at_most_one (es : list Semaphore.entry) (schedule : list nat) :
  let s := Semaphore.run schedule (Semaphore.initial es) in
  (Semaphore.reconnecting_via Semaphore.ViaReconnectLogged s <= 1)%nat
  /\ (Semaphore.reconnSemaphore s <= 1)%nat.
Proof.
  cbn zeta.
  destruct (SemaphoreFacts.reconnectLogged_is_exclusive es schedule) as [E L].
  cbn zeta in E. split; [rewrite E|]; exact L.
Qed.

(** ** The further properties at work on the example state *)

Lemma process_never_adds_pending_witness :
  store_returns SessNoopStore
  /\ state_wf example_state
  /\ (length (sendQueue example_state)
      + sends_of example_container 5 (size (msgsByID example_state))
      <= sendQueue_cap)%nat
  /\ exists m',
      process map_to_list example_container 20 5 true example_state = Done m'
      /\ msgsByID m' ⊆ msgsByID example_state
      /\ sendQueue example_state `prefix_of` sendQueue m'
      /\ (length (sendQueue m')
          <= length (sendQueue example_state)
             + sends_of example_container 5 (size (msgsByID example_state)))%nat
      /\ (forall p pk, packets example_state !! p = Some pk ->
                       exists pk', packets m' !! p = Some pk' /\ msg pk' = msg pk).
Proof.
  assert (Hroom : (length (sendQueue example_state)
                   + sends_of example_container 5 (size (msgsByID example_state))
                   <= sendQueue_cap)%nat) by (vm_compute; lia).
  split; [exact SessNoopStore_returns|]. split; [exact example_state_wf|].
  split; [exact Hroom|].
  exact (process_never_adds_pending map_to_list example_state example_container
           20 5 true map_to_list_is_an_order SessNoopStore_returns example_state_wf
           Hroom).
Defined.

Lemma rpc_result_delivers_witness :
  state_wf example_state
  /\ msgsByID example_state !! 7 = Some 1%positive
  /\ (Z.odd 3 = true -> (length (sendQueue example_state) < sendQueue_cap)%nat)
  /\ exists m' ch,
      process map_to_list (TL_rpc_result 7 (TL_other 200 [])) 12 3 true example_state
      = Done m'
      /\ chans example_state !! 1%positive = Some ch
      /\ chans m' = <[1%positive := mkChannel [TL_other 200 []] (capacity ch) true]>
                      (chans example_state)
      /\ packets m' !! 1%positive = Some (mkPacket 7 1 (TL_other 100 []) None true)
      /\ msgsByID m' = delete 7 (msgsByID example_state)
      /\ started m' = started example_state
      /\ sendQueue m'
         = sendQueue example_state
           ++ (if Z.odd 3 then [fresh (dom (packets example_state))] else []).
Proof.
  assert (Hroom : Z.odd 3 = true -> (length (sendQueue example_state) < sendQueue_cap)%nat)
    by (intros _; vm_compute; lia).
  split; [exact example_state_wf|]. split; [reflexivity|]. split; [exact Hroom|].
  exact (rpc_result_delivers map_to_list example_state 7 200 [] 12 3 true 1%positive
           (mkPacket 7 1 (TL_other 100 []) (Some 1%positive) true) 1%positive
           example_state_wf eq_refl eq_refl eq_refl Hroom).
Defined.

Lemma clearPacketData_twice_witness :
  state_wf example_state
  /\ exists m1,
      clearPacketData 7 (TL_other 200 []) example_state = Done m1
      /\ clearPacketData 7 (TL_other 300 []) m1 = Done m1.
Proof.
  split; [exact example_state_wf|].
  exact (clearPacketData_twice example_state 7 (TL_other 200 []) (TL_other 300 [])
           example_state_wf).
Defined.

Lemma reconnect_requeues_pending_witness :
  let m1 := logf LInfo "reconnecting: DC %d -> %d" example_state in
  let m3 := set_session (Some (mkSessionInfo 2 [] [] 5 "149.154.167.50:443" 11))
              (logf LDebug "found %d pending packet(s)" m1) in
  DCAddr 2 false m1 = ("149.154.167.50:443"%string, true)
  /\ (length (sendQueue m3) + size (msgsByID m1) <= sendQueue_cap)%nat
  /\ exists m' added,
      reconnectToDc map_to_list quiet_network quiet_network 2 example_state
      = Done (m', None)
      /\ sendQueue m' = sendQueue m3 ++ added
      /\ msgsByID m' = msgsByID m3 /\ packets m' = packets m3 /\ chans m' = chans m3
      /\ (forall p, p ∈ added <->
                    exists id, is_Some (msgsByID m1 !! id) /\ msgsByID m3 !! id = Some p)
      /\ (msgsByID m3 = msgsByID m1 -> added ≡ₚ (map_to_list (msgsByID m1)).*2).
Proof.
  intros m1 m3.
  assert (Hroom : (length (sendQueue m3) + size (msgsByID m1) <= sendQueue_cap)%nat)
    by (vm_compute; lia).
  split; [reflexivity|]. split; [exact Hroom|].
  exact (reconnect_requeues_pending map_to_list quiet_network quiet_network
           example_state 2 m1 example_session "149.154.167.50:443" m3
           map_to_list_is_an_order (ex_intro _ example_session eq_refl)
           eq_refl eq_refl eq_refl eq_refl Hroom).
Defined.

Lemma notification_completes_request_witness :
  state_wf example_state
  /\ msgsByID example_state !! 7 = Some 1%positive
  /\ (Z.odd 3 = true -> (length (sendQueue example_state) < sendQueue_cap)%nat)
  /\ exists m' ch,
      process map_to_list (TL_bad_msg_notification 7 []) 30 3 true example_state
      = Done m'
      /\ chans example_state !! 1%positive = Some ch
      /\ chans m' = <[1%positive := mkChannel [TL_bad_msg_notification 7 []]
                                             (capacity ch) true]>
                      (chans example_state)
      /\ packets m' !! 1%positive = Some (mkPacket 7 1 (TL_other 100 []) None true)
      /\ msgsByID m' = delete 7 (msgsByID example_state)
      /\ sendQueue m'
         = sendQueue example_state
           ++ (if Z.odd 3 then [fresh (dom (packets example_state))] else []).
Proof.
  assert (Hroom : Z.odd 3 = true -> (length (sendQueue example_state) < sendQueue_cap)%nat)
    by (intros _; vm_compute; lia).
  split; [exact example_state_wf|]. split; [reflexivity|]. split; [exact Hroom|].
  exact (notification_completes_request map_to_list example_state
           (TL_bad_msg_notification 7 []) 7 30 3 true 1%positive
           (mkPacket 7 1 (TL_other 100 []) (Some 1%positive) true) 1%positive
           example_state_wf (or_introl (ex_intro _ [] eq_refl))
           eq_refl eq_refl eq_refl Hroom).
Defined.

Lemma new_session_created_keeps_pending_witness :
  store_returns SessNoopStore
  /\ session example_state = Some example_session
  /\ (Z.odd 3 = true -> (length (sendQueue example_state) < sendQueue_cap)%nat)
  /\ exists m' st' e,
      process map_to_list (TL_new_session_created 99 []) 30 3 true example_state
      = Done m'
      /\ Save (mkSessionInfo 2 [] [] 99 "149.154.167.50:443" 11)
              (store_state example_state)
         = Done (st', e)
      /\ store_state m' = st'
      /\ session m' = Some (mkSessionInfo 2 [] [] 99 "149.154.167.50:443" 11)
      /\ msgsByID m' = msgsByID example_state
      /\ packets m' = (if Z.odd 3
                       then <[fresh (dom (packets example_state)) :=
                                mkPacket 0 0 (TL_msgs_ack [30]) None false]>
                              (packets example_state)
                       else packets example_state)
      /\ chans m' = chans example_state
      /\ sendQueue m'
         = sendQueue example_state
           ++ (if Z.odd 3 then [fresh (dom (packets example_state))] else []).
Proof.
  assert (Hroom : Z.odd 3 = true -> (length (sendQueue example_state) < sendQueue_cap)%nat)
    by (intros _; vm_compute; lia).
  split; [exact SessNoopStore_returns|]. split; [reflexivity|]. split; [exact Hroom|].
  exact (new_session_created_keeps_pending map_to_list example_state 99 [] 30 3 true
           example_session SessNoopStore_returns eq_refl Hroom).
Defined.

Lemma ping_is_answered_with_pong_witness :
  (length (sendQueue example_state) + 1 + (if Z.odd 1 then 1 else 0)
   <= sendQueue_cap)%nat
  /\ exists m' p,
      process map_to_list (TL_ping 5) 40 1 true example_state = Done m'
      /\ packets example_state !! p = None
      /\ packets m' !! p = Some (mkPacket 0 0 (TL_pong 40 5) None false)
      /\ (exists acks,
             sendQueue m' = sendQueue example_state ++ p :: acks
             /\ Forall (fun q => q <> p
                                 /\ packets example_state !! q = None
                                 /\ packets m' !! q
                                    = Some (mkPacket 0 0 (TL_msgs_ack [40]) None false))
                       acks
             /\ length acks = if Z.odd 1 then 1%nat else 0%nat)
      /\ msgsByID m' = msgsByID example_state
      /\ chans m' = chans example_state
      /\ started m' = started example_state
      /\ (forall q pk, packets example_state !! q = Some pk -> packets m' !! q = Some pk).
Proof.
  assert (Hroom : (length (sendQueue example_state) + 1 + (if Z.odd 1 then 1 else 0)
                   <= sendQueue_cap)%nat) by (vm_compute; lia).
  split; [exact Hroom|].
  exact (proj1 (@ping_is_answered_with_pong unit SessNoopStore map_to_list
                  example_state 5 40 1 true) Hroom).
Defined.

Lemma container_updates_reach_handler_witness :
  Forall (fun v => exists c payload, MT_Data v = TL_other c payload) example_updates
  /\ (length (sendQueue example_state_with_handler)
      + sends_of (TL_msg_container example_updates) 4
                 (size (msgsByID example_state_with_handler))
      <= sendQueue_cap)%nat
  /\ exists m',
      process map_to_list (TL_msg_container example_updates) 20 4 false
              example_state_with_handler = Done m'
      /\ started m'
         ≡ₚ started example_state_with_handler
            ++ (if handleEvent example_state_with_handler
                then MT_Data <$> example_updates else [])
      /\ msgsByID m' = msgsByID example_state_with_handler
      /\ chans m' = chans example_state_with_handler.
Proof.
  assert (Hplain : Forall (fun v => exists c payload, MT_Data v = TL_other c payload)
                          example_updates).
  { repeat constructor; eexists _, _; reflexivity. }
  assert (Hroom : (length (sendQueue example_state_with_handler)
                   + sends_of (TL_msg_container example_updates) 4
                              (size (msgsByID example_state_with_handler))
                   <= sendQueue_cap)%nat) by (vm_compute; lia).
  split; [exact Hplain|]. split; [exact Hroom|].
  exact (container_updates_reach_handler map_to_list example_state_with_handler
           example_updates 20 4 false Hplain Hroom).
Defined.

Lemma resendPendingPackets_twice_witness :
  (length (sendQueue example_state) + size (msgsByID example_state)
   <= sendQueue_cap)%nat
  /\ exists m1,
      resendPendingPackets map_to_list example_state = Done m1
      /\ msgsByID m1 = ∅
      /\ exists m2,
          resendPendingPackets map_to_list m1 = Done m2
          /\ sendQueue m2 = sendQueue m1
          /\ msgsByID m2 = ∅
          /\ packets m2 = packets example_state /\ chans m2 = chans example_state
          /\ session m2 = session example_state.
Proof.
  assert (Hroom : (length (sendQueue example_state) + size (msgsByID example_state)
                   <= sendQueue_cap)%nat) by (vm_compute; lia).
  split; [exact Hroom|].
  destruct (proj2 (resendPendingPackets_twice map_to_list example_state
                     map_to_list_is_an_order) Hroom) as [m1 E1].
  exists m1. split; [exact E1|].
  exact (proj1 (resendPendingPackets_twice map_to_list example_state
                  map_to_list_is_an_order) m1 E1).
Defined.

Lemma Send_makes_fresh_channel_witness :
  state_wf (core example_sender)
  /\ (length (extSendQueue example_sender) < 64)%nat
  /\ exists c p x',
      Send (TL_other 300 []) example_sender = Done (c, x')
      /\ chans (core example_sender) !! c = None
      /\ chans (core x') = <[c := mkChannel [] 1 false]> (chans (core example_sender))
      /\ packets (core example_sender) !! p = None
      /\ packets (core x')
         = <[p := mkPacket 0 0 (TL_other 300 []) (Some c) false]>
             (packets (core example_sender))
      /\ extSendQueue x' = extSendQueue example_sender ++ [p]
      /\ sendQueue (core x') = sendQueue (core example_sender)
      /\ msgsByID (core x') = msgsByID (core example_sender)
      /\ state_wf (core x').
Proof.
  assert (Hroom : (length (extSendQueue example_sender) < 64)%nat) by (cbn; lia).
  split; [exact example_state_wf|]. split; [exact Hroom|].
  exact (proj1 (Send_makes_fresh_channel (TL_other 300 []) example_sender
                  example_state_wf) Hroom).
Defined.

Lemma Send_channels_are_distinct_witness :
  exists c1 x1 c2 x2,
    Send (TL_other 300 []) example_sender = Done (c1, x1)
    /\ Send (TL_other 400 []) x1 = Done (c2, x2)
    /\ c1 <> c2
    /\ exists p1 p2,
        p1 <> p2
        /\ extSendQueue x2 = extSendQueue example_sender ++ [p1; p2]
        /\ packets (core x2) !! p1 = Some (newPacket (TL_other 300 []) (Some c1))
        /\ packets (core x2) !! p2 = Some (newPacket (TL_other 400 []) (Some c2)).
Proof.
  eexists _, _, _, _.
  split; [vm_compute; reflexivity|]. split; [vm_compute; reflexivity|].
  eapply (Send_channels_are_distinct (TL_other 300 []) (TL_other 400 [])
            example_sender); vm_compute; reflexivity.
Defined.

Lemma queueTransferRoutine_moves_in_order_witness :
  exists x',
    queueTransferRoutine [false; true] example_sender_two_sent = Done x'
    /\ exists moved,
        extSendQueue example_sender_two_sent = moved ++ extSendQueue x'
        /\ sendQueue (core x') = sendQueue (core example_sender_two_sent) ++ moved
        /\ (length (sendQueue (core x'))
            <= Nat.max (length (sendQueue (core example_sender_two_sent))) 64)%nat
        /\ S (routinesStop (core x')) = routinesStop (core example_sender_two_sent)
        /\ routinesWG (core x') = routinesWG (core example_sender_two_sent) - 1
        /\ 0 <= routinesWG (core x')
        /\ msgsByID (core x') = msgsByID (core example_sender_two_sent)
        /\ packets (core x') = packets (core example_sender_two_sent)
        /\ chans (core x') = chans (core example_sender_two_sent).
Proof.
  eexists. split; [vm_compute; reflexivity|].
  apply (queueTransferRoutine_moves_in_order [false; true] example_sender_two_sent).
  vm_compute; reflexivity.
Defined.

Lemma Load_never_panics_witness :
  (∅ : gmap string (list byte)) !! "tg.session"%string = None
  /\ SessFileStore.Load "tg.session" example_session ∅
     = Done (∅, example_session, Some ErrNoSessionData).
Proof.
  split; [apply lookup_empty|].
  exact (proj1 (proj2 (Load_never_panics "tg.session" example_session ∅))
           (lookup_empty _)).
Defined.

(** ** Counts sent by the server *)

Section CountFacts.

Variables CRC_msg_container CRC_rpc_result CRC_gzip_packed : Z.
Variable ObjectGenerated : Z -> Decode.reader TL.
Variable gunzip : list byte -> option (list byte).

Local Abbreviation Object :=
  (Decode.Object CRC_msg_container CRC_rpc_result CRC_gzip_packed
                 ObjectGenerated gunzip).
Local Abbreviation Vector :=
  (Decode.Vector CRC_msg_container CRC_rpc_result CRC_gzip_packed
                 ObjectGenerated gunzip).

(** The constructor number and the count that follow the bytes already
    read. *)
Lemma header_decodes (crc n : Z) (pre rest : list byte) (d : Decode.DecodeBuf) :
  0 <= crc < 2^32 -> - 2^31 <= n < 2^31 ->
  Decode.buf d = pre ++ le_bytes 4 crc ++ le_bytes 4 n ++ rest ->
  Decode.off d = Z.of_nat (length pre) ->
  Decode.size d = Z.of_nat (length (Decode.buf d)) ->
  Decode.size d < 2^62 ->
  Decode.err d = None ->
  Decode.UInt d = Done (crc, Decode.set_off (Z.of_nat (length pre) + 4) d)
  /\ Decode.Int (Decode.set_off (Z.of_nat (length pre) + 4) d)
     = Done (n, Decode.set_off (Z.of_nat (length pre) + 8) d).
Proof.
  intros Hcrc Hn Hbuf Hoff Hsize Hlen Herr. unfold Decode.UInt, Decode.Int.
  change (Decode.fixed 4) with (Decode.fixed (Z.of_nat 4)).
  rewrite (fixed_decodes 4 "DecodeUInt" (fun x => x) pre crc _ d
             Hbuf Hoff Hsize Hlen Herr ltac:(lia)).
  change (256 ^ Z.of_nat 4) with (2^32). rewrite Z.mod_small by assumption.
  split; [reflexivity|].
  rewrite (fixed_decodes 4 "DecodeInt" wrap_int32 (pre ++ le_bytes 4 crc) n rest);
    [ | cbn; rewrite Hbuf; now rewrite <- app_assoc
      | cbn; rewrite length_app; cbn [length le_bytes]; lia
      | cbn; assumption | cbn; assumption | cbn; assumption | lia ].
  change (256 ^ Z.of_nat 4) with (2^32). rewrite wrap_int32_of_uint32 by assumption.
  do 2 f_equal. unfold Decode.set_off. cbn. f_equal.
  rewrite length_app. cbn [length le_bytes]. lia.
Qed.

(** X23. A negative count is handled in two ways.  The vector readers
    reject it: they set the error "Wrong size" and return nil.  Object on a
    msg_container does not test it and panics when it makes the slice of the
    items, whatever follows in the buffer. *)
Theorem negative_count_error_or_panic (fuel : nat) (n : Z) (pre rest : list byte)
        (d : Decode.DecodeBuf)
        (Hn : - 2^31 <= n < 0)
        (Hoff : Decode.off d = Z.of_nat (length pre))
        (Hsize : Decode.size d = Z.of_nat (length (Decode.buf d)))
        (Hlen : Decode.size d < 2^62)
        (Herr : Decode.err d = None) :
  (0 <= CRC_msg_container < 2^32 ->
   Decode.buf d = pre ++ le_bytes 4 CRC_msg_container ++ le_bytes 4 n ++ rest ->
   Object (S fuel) d = Panicked)
  /\ (Decode.buf d = pre ++ le_bytes 4 Decode.CRC_vector ++ le_bytes 4 n ++ rest ->
      let d' := Decode.set_off (Z.of_nat (length pre) + 8) d in
      Decode.VectorInt d = Done ([], Decode.set_err "DecodeVectorInt: Wrong size" d')
      /\ Decode.VectorLong d = Done ([], Decode.set_err "DecodeVectorLong: Wrong size" d')
      /\ Decode.VectorString d
         = Done ([], Decode.set_err "DecodeVectorString: Wrong size" d')
      /\ Vector fuel d = Done ([], Decode.set_err "DecodeVector: Wrong size" d')).
Proof.
  assert (Hn' : - 2^31 <= n < 2^31) by lia.
  destruct (Z.ltb_spec n 0) as [_|]; [|lia].
  split.
  - intros Hcrc Hbuf.
    destruct (header_decodes CRC_msg_container n pre rest d
                Hcrc Hn' Hbuf Hoff Hsize Hlen Herr) as [HU HI].
    cbn [Decode.Object]. rewrite HU. cbn [obind].
    unfold Decode.failed at 1. cbn [Decode.err Decode.set_off]. rewrite Herr.
    rewrite Z.eqb_refl, HI. cbn [obind].
    destruct (Z.ltb_spec n 0); [reflexivity|lia].
  - intros Hbuf d'.
    destruct (header_decodes Decode.CRC_vector n pre rest d
                ltac:(unfold Decode.CRC_vector; lia) Hn' Hbuf Hoff Hsize Hlen Herr)
      as [HU HI].
    assert (Hv : forall A name (rd : Decode.reader A),
               Decode.vector_of name rd d
               = Done ([], Decode.set_err (name ++ ": Wrong size") d')).
    { intros A name rd. unfold Decode.vector_of. rewrite HU. cbn [obind].
      unfold Decode.failed at 1. cbn [Decode.err Decode.set_off]. rewrite Herr.
      rewrite Z.eqb_refl. cbn [negb]. rewrite HI. cbn [obind].
      unfold Decode.failed at 1. cbn [Decode.err Decode.set_off]. rewrite Herr.
      destruct (Z.ltb_spec n 0); [reflexivity|lia]. }
    repeat split; apply Hv.
Qed.

End CountFacts.

Lemma negative_count_error_or_panic_witness :
  let d := Decode.NewDecodeBuf (le_bytes 4 0x73f1f8dc ++ le_bytes 4 (-1)) in
  Decode.Object 0x73f1f8dc 0xf35c6d01 0x3072cfa1
                (fun _ m => Done (TL_null, m)) (fun _ => None) 1 d
  = Panicked.
Proof.
  intros d.
  apply (proj1 (negative_count_error_or_panic
                  0x73f1f8dc 0xf35c6d01 0x3072cfa1
                  (fun _ m => Done (TL_null, m)) (fun _ => None)
                  0 (-1) [] [] d ltac:(lia) eq_refl eq_refl ltac:(cbn; lia) eq_refl)).
  - lia.
  - reflexivity.
Defined.
